(* ===== verification/_CoqProject ===== *)
-Q . S2P
Prelude.v
World.v
CryptContext.v
CryptBuffer.v
Keystream.v
Session.v
Util.v
CryptMain.v
CommandLine.v
