(* ===== verification/Prelude.v ===== *)
(** * A verification development of minicrypt

    minicrypt (src/) is a command-line tool that applies a keyed, stateful
    XOR stream transform to a byte stream.  It has three parts:

    - libcryptprov (src/src/libcryptprov/libcryptprov.c and
      src/include/libcryptprov.h): the cipher engine.
      [crypt_alloc_context] copies a caller key into a fresh
      [struct crypt_context] whose cursor [key_state] starts at 0;
      [crypt_buffer] runs the cipher loop over one span, rewriting the key
      bytes in place ([key[i] = (key[i] + i) % 256]) and advancing the
      cursor modulo [key_size]; [crypt_free_context] zeroes the key and the
      context before releasing them.
    - cryptmain (src/src/cryptmain.c): the command line.  It parses the
      arguments into a [struct crypt_params], allocates one context, and
      either transforms a whole input file with one [crypt_buffer] call
      ([mode_input_file]) or transforms stdin in chunks of
      [CRYPT_STDIN_BUF_SIZE] = 16 bytes through the same context
      ([mode_input_stdin]); then it releases the context and the
      parameters ([free_cli_params]).
    - util (src/src/util.c): the I/O helpers that cryptmain calls
      ([read_file_into_memory], [read_from_stdin], [get_stdin_user],
      [strnlen], [write_to_file], [is_path_valid]) and the logger [debug]
      behind [DEBUG_INFO] and [DEBUG_ERR].

    The engine's state is the context; the program threads it through
    every [crypt_buffer] call.  The property the whole design rests on is
    that the key schedule depends only on how many bytes have gone through
    the context, so that chunked stdin mode and single-call file mode give
    the same bytes.  The program's other state is its environment: the
    files, stdin, stdout (where [debug] writes its lines between the
    ciphertext bytes) and the heap blocks it allocates and frees.

    ** Files and what they model

    - [Prelude] (this file): machine-width helpers on [Z] ([u8], [u32],
      bytes as [Z] in [0, 256)), the XOR notation [⊕] of [minicrypt_scope],
      the hint database [minicrypt] and the shared lemmas on bytes and
      lists.
    - [World]: the environment [world] that every I/O function threads:
      the file system as a [gmap] from paths to contents, the bytes left on
      stdin, the stdout trace ([OByte] for [fwrite] bytes, [OLog] for a
      [debug] line kept as its format string and arguments) and the heap
      trace ([HAlloc] with the allocation site, [HFree] with what the
      block holds when it is freed).  [debug], [DEBUG_INFO], [DEBUG_ERR].
    - [CryptContext]: the error codes of libcryptprov.h as an inductive
      type with their integer values; [struct crypt_context] as a record;
      [crypt_alloc_context] and [crypt_free_context], with the allocation
      outcomes of [calloc] and [malloc] as explicit inputs, and the
      context's well-formedness invariant [ctx_wf].
    - [CryptBuffer]: [crypt_buffer], split into its loop ([crypt_loop],
      one equation per iteration of the [for] loop of libcryptprov.c:74-78)
      and the guards of libcryptprov.c:60-66.  Theorems: the functional
      behaviour of every branch (each guard and its return code, the
      success case), preservation of [ctx_wf], output length, chunk
      invariance (two calls equal one call over the concatenation), the
      XOR-keystream decomposition and the involution (decrypting with a
      fresh context recovers the plaintext).
    - [Keystream]: the abstract specification.  [sched_key K m] is the key
      buffer after [m] bytes, in closed form ([K[j] + visits m j * j] mod
      256), and [ks_byte K n] is the n-th keystream byte.  The refinement
      theorems show that [crypt_loop] started in the state after [m] bytes
      produces the state after [m + n] bytes and XORs the input with the
      keystream bytes [m .. m+n-1]; lifted to [crypt_buffer] through the
      abstraction relation [ctx_models], a sequence of calls over any
      split of a stream ([feed]) outputs the keystream XOR of the whole
      stream, [crypt_alloc_context] starts the abstract state at 0 and
      [crypt_free_context] frees the key as zeros.
    - [Session]: the interface of libcryptprov.h as the type classes
      [StreamEngine] (allocate, transform, release) and
      [StreamEngineSpec] (their laws against an abstraction relation), the
      instance of the library, and the session protocol of the
      specification as two step relations over labelled events: [cstep]
      on any engine and the abstract [astep].  The refinement theorem is a
      forward simulation proved against the interface only; the library's
      instance discharges the laws.
    - [Util]: util.c.  [strnlen], [is_path_valid], [read_file_into_memory]
      (the [ftell] size stored in a [uint32_t]), [write_to_file] (append
      mode), [read_from_stdin] and [get_stdin_user] (the [fgetc] result
      stored in an [int8_t] or [char], written [s8]), each with its log
      lines and its allocations.
    - [CryptMain]: [struct crypt_params], [write_output_buffer],
      [mode_input_file], [mode_input_stdin] and [print_cli_params] of
      cryptmain.c.  Theorems: both modes output the input XORed with the
      keystream of the key and agree with each other; stdin mode ends on
      every stdin and its exact stdout trace; the error-code collision of
      an empty key in file mode.
    - [CommandLine]: [parse_cli_and_load] (its argument loop
      [parse_loop], with the [uint8_t] index, and the cleanup at
      [params_fail]), [free_cli_params], [print_help] and [main].
      Theorems: one lemma per kind of argument, termination with at most
      254 arguments, the endless loop with 257, the skipped argument after
      an input path, and [main] end to end in file mode, in stdin mode and
      with an output file, each with its exact stdout and heap traces; the
      key left unreleased by [params_fail]; the wiping of
      [free_cli_params].

    The components interact only through their operations: [CryptMain]
    and [CommandLine] call [crypt_alloc_context] and [crypt_buffer] and
    are proved against the abstraction [ctx_models] of [Keystream], not
    against the loop; [Session]'s clients are proved against the class
    [StreamEngineSpec].

    ** Integers and bounds

    Every C integer is a [Z] kept at its width: [uint8_t] values are
    reduced with [u8] ([mod 256]) where the C code stores into a
    [uint8_t], [uint16_t] with [u16], [uint32_t] with [u32], and an
    [int8_t] or [char] read from a byte with [s8].  The key size passed to
    [crypt_alloc_context] and the engine's cursor are [uint8_t]; the
    theorems carry the bound [key_size < 255] that the code checks, which
    keeps [(i + 1) % key_size] inside [uint8_t].

    ** Fuel

    The engine's loop and the readers of util.c are structural over the
    input list.  Two loops of cryptmain.c are not: the stdin loop of
    [mode_input_stdin] gets [1 + length stdin / 16] rounds, and every round
    that does not end it consumes 16 bytes, so it always returns
    ([mode_input_stdin_terminates]); the argument loop gets [argc] rounds,
    enough whenever [argc <= 254] ([parse_loop_terminates]).  With 256
    arguments or more the C loop itself does not end normally, and the
    model shows a command line on which no fuel is enough
    ([parse_loop_wrap_hangs]).

    ** Not modelled

    The text [vprintf] produces from a log line: a line is kept as its
    format (with the C escapes as the characters they denote) and
    arguments.  The contents of the structs at [free] (the
    [crypt_params] and [crypt_context] blocks): only byte buffers are kept
    with their contents.  The allocations of the parser and of [main] are
    taken to succeed, and so are those of the engine instance in
    [Session]; [crypt_alloc_context] models both of its failures.  I/O
    errors of [fread], [fwrite] and [fopen] for writing.  The memory model
    with aliasing of input and output is not needed for the in-place call
    of stdin mode (see [CryptMain]). *)

From stdpp Require Export base list strings.
From Stdlib Require Export ZArith Lia.

Declare Scope minicrypt_scope.
Delimit Scope minicrypt_scope with mc.
Open Scope Z_scope.
Open Scope minicrypt_scope.

(** ** Machine-width integers *)

(** Storing an [int] into a [uint8_t]. *)
Definition u8 (z : Z) : Z := z mod 256.

(** Storing an integer into a [uint32_t]. *)
Definition u32 (z : Z) : Z := z mod 2 ^ 32.

(** The value range of a [uint8_t], as a boolean test. *)
Definition is_u8 (z : Z) : bool := (0 <=? z) && (z <? 256).

(** A byte buffer: every element is a [uint8_t] value. *)
Definition bytes_ok (l : list Z) : bool := forallb is_u8 l.

Notation "a ⊕ b" := (Z.lxor a b) (at level 40, left associativity) : minicrypt_scope.

Create HintDb minicrypt.
Create Rewrite HintDb minicrypt.

(** ** Bytes *)

Lemma is_u8_spec z : is_u8 z = true <-> 0 <= z < 256.
Proof. unfold is_u8. rewrite andb_true_iff, Z.leb_le, Z.ltb_lt. lia. Qed.

Lemma u8_range z : 0 <= u8 z < 256.
Proof. unfold u8. apply Z.mod_pos_bound. lia. Qed.

Lemma u8_is_u8 z : is_u8 (u8 z) = true.
Proof. apply is_u8_spec, u8_range. Qed.

Lemma u8_small z : 0 <= z < 256 -> u8 z = z.
Proof. intros. unfold u8. apply Z.mod_small. lia. Qed.

Lemma u8_add_l a b : u8 (u8 a + b) = u8 (a + b).
Proof. unfold u8. apply Zplus_mod_idemp_l. Qed.

Lemma lxor_byte_range a b :
  0 <= a < 256 -> 0 <= b < 256 -> 0 <= a ⊕ b < 256.
Proof.
  intros Ha Hb. split; [apply Z.lxor_nonneg; lia|].
  destruct (Z.eq_dec (a ⊕ b) 0) as [->|Hnz]; [lia|].
  assert (0 < a ⊕ b) by (pose proof (proj2 (Z.lxor_nonneg a b)); lia).
  apply Z.log2_lt_pow2 with (b := 8) in H as Hlog.
  apply Hlog. pose proof (Z.log2_lxor a b ltac:(lia) ltac:(lia)).
  assert (Z.log2 a < 8). { destruct (Z.eq_dec a 0) as [->|]; [simpl; lia|].
    apply Z.log2_lt_pow2; lia. }
  assert (Z.log2 b < 8). { destruct (Z.eq_dec b 0) as [->|]; [simpl; lia|].
    apply Z.log2_lt_pow2; lia. }
  lia.
Qed.

Lemma lxor_cancel_r a k : a ⊕ k ⊕ k = a.
Proof. rewrite Z.lxor_assoc, Z.lxor_nilpotent. apply Z.lxor_0_r. Qed.

(** ** Byte buffers *)

Lemma bytes_ok_Forall l : bytes_ok l = true <-> Forall (fun z => 0 <= z < 256) l.
Proof.
  unfold bytes_ok. rewrite forallb_forall, List.Forall_forall.
  split; intros H x Hx; apply is_u8_spec; apply H; exact Hx.
Qed.

Lemma bytes_ok_lookup l i :
  bytes_ok l = true -> (i < length l)%nat -> 0 <= l !!! i < 256.
Proof.
  rewrite bytes_ok_Forall, Forall_lookup. intros H Hi.
  destruct (lookup_lt_is_Some_2 l i Hi) as [x Hx].
  rewrite (list_lookup_total_correct _ _ _ Hx). eauto.
Qed.

Lemma bytes_ok_insert l i x :
  bytes_ok l = true -> 0 <= x < 256 -> bytes_ok (<[i:=x]> l) = true.
Proof.
  rewrite !bytes_ok_Forall. intros. by apply Forall_insert.
Qed.

Lemma bytes_ok_app l1 l2 :
  bytes_ok (l1 ++ l2) = bytes_ok l1 && bytes_ok l2.
Proof. apply forallb_app. Qed.

Lemma bytes_ok_cons x l : bytes_ok (x :: l) = is_u8 x && bytes_ok l.
Proof. reflexivity. Qed.

#[export] Hint Resolve u8_range u8_is_u8 lxor_byte_range bytes_ok_insert : minicrypt.
#[export] Hint Rewrite u8_add_l lxor_cancel_r bytes_ok_app bytes_ok_cons : minicrypt.

(** Close a goal about the bounds of bytes with the hypotheses at hand. *)
Ltac byte_bounds :=
  repeat match goal with
         | H : is_u8 _ = true |- _ => apply is_u8_spec in H
         | |- is_u8 _ = true => apply is_u8_spec
         | |- context [u8 ?z] => pose proof (u8_range z); unfold u8 in *
         end; auto with minicrypt; lia.
