(* ===== verification/World.v ===== *)
(** * The environment of minicrypt: files, stdin and the stdout trace

    The program reads files and stdin, writes files and stdout, and
    allocates and frees heap blocks.  The environment is the record
    [world]: the file system as a [gmap] from paths to contents, the bytes
    still to be read on stdin, stdout as the trace of what was written to
    it, in order, and the heap trace.

    Two things reach stdout: the bytes of [fwrite(buf, 1, n, stdout)]
    ([OByte]) and the lines printed by [debug] (util.c:11-29), which every
    [DEBUG_INFO] and [DEBUG_ERR] of util.h:8-9 calls ([OLog]).  A log
    line is kept as the call that printed it: [is_error], the format
    string as written in the source and the arguments; [vprintf] is not
    modelled.  A [%s] argument is the memory its [char *] points to, so a
    buffer without a NUL (which [printf] reads past) is visible as such.

    The heap is the trace of the allocations that returned a block, by
    allocation site, and of the [free] calls, with what each freed buffer
    holds at that moment: what a reader of freed memory could recover.
    A block allocated and never freed is a leak ([live_blocks]). *)

From stdpp Require Import gmap.
From S2P Require Import Prelude.

(** The memory a [char *] to the C string [s] points to. *)
Definition cstr_mem (s : list Z) : list Z := s ++ [0].

(** The bytes of a string literal of the source (without its NUL). *)
Definition str_bytes (s : string) : list Z :=
  (fun a => Z.of_nat (Ascii.nat_of_ascii a)) <$> String.list_ascii_of_string s.

(** An argument of a [debug] call: an integer ([%d], [%x]), the memory
    that a [char *] ([%s]) points to, or a NULL [char *] (undefined for
    [printf]; glibc prints "(null)"). *)
Inductive log_arg := LInt (n : Z) | LPtr (mem : list Z) | LNull.

(** The [%s] argument for a [char *] that is NULL or points to a C string. *)
Definition ptr_arg (s : option (list Z)) : log_arg :=
  match s with
  | Some str => LPtr (cstr_mem str)
  | None => LNull
  end.

(** One call of [debug(is_error, format, ...)]. *)
Record log_line := mk_log {
  log_error : bool;
  log_format : string;
  log_args : list log_arg
}.

(** One write to stdout. *)
Inductive out_item := OByte (b : Z) | OLog (l : log_line).

(** The heap blocks the program allocates, by allocation site. *)
Inductive alloc_site :=
  | SParams     (* cryptmain.c:207, the [struct crypt_params] *)
  | SKeyArg     (* cryptmain.c:235, the copy of the [-k] argument *)
  | SOutPath    (* cryptmain.c:283, the copy of the [-o] path *)
  | SFileBuf    (* util.c:74, the buffer of [read_file_into_memory] *)
  | SStdinBuf   (* util.c:116, the buffer of [get_stdin_user] *)
  | SOutBuf     (* cryptmain.c:98, the output buffer of [mode_input_file] *)
  | SCtx        (* libcryptprov.c:14, the [struct crypt_context] *)
  | SCtxKey.    (* libcryptprov.c:24, the context's copy of the key *)

(** An allocation that returned a block, or a [free] with what the block
    holds at that moment ([None] for a struct, whose bytes are not
    modelled).  What a freed block holds is what a reader of freed memory
    can recover. *)
Inductive heap_event := HAlloc (s : alloc_site) | HFree (mem : option (list Z)).

Record world := mk_world {
  w_fs : gmap (list Z) (list Z);
  w_stdin : list Z;
  w_stdout : list out_item;
  w_heap : list heap_event
}.

Definition set_stdin (w : world) (s : list Z) : world :=
  {| w_fs := w_fs w; w_stdin := s; w_stdout := w_stdout w; w_heap := w_heap w |}.

Definition set_fs (w : world) (fs : gmap (list Z) (list Z)) : world :=
  {| w_fs := fs; w_stdin := w_stdin w; w_stdout := w_stdout w; w_heap := w_heap w |}.

(** [malloc] or [calloc] at site [s] returning a block. *)
Definition heap_alloc (s : alloc_site) (w : world) : world :=
  {| w_fs := w_fs w; w_stdin := w_stdin w; w_stdout := w_stdout w;
     w_heap := w_heap w ++ [HAlloc s] |}.

(** [free] of a block holding [mem]. *)
Definition heap_free (mem : option (list Z)) (w : world) : world :=
  {| w_fs := w_fs w; w_stdin := w_stdin w; w_stdout := w_stdout w;
     w_heap := w_heap w ++ [HFree mem] |}.

(** [debug] (util.c:11-29): one line on stdout. *)
Definition debug (is_error : bool) (format : string) (args : list log_arg) (w : world) : world :=
  {| w_fs := w_fs w; w_stdin := w_stdin w;
     w_stdout := w_stdout w ++ [OLog (mk_log is_error format args)]; w_heap := w_heap w |}.

(** util.h:8-9. *)
Definition DEBUG_ERR := debug true.
Definition DEBUG_INFO := debug false.

(** The stdout item of a [DEBUG_INFO] and of a [DEBUG_ERR]. *)
Definition info (format : string) (args : list log_arg) : out_item := OLog (mk_log false format args).
Definition err (format : string) (args : list log_arg) : out_item := OLog (mk_log true format args).

(** [fwrite(buf, 1, n, stdout)] of the bytes [bs]. *)
Definition put_bytes (bs : list Z) (w : world) : world :=
  {| w_fs := w_fs w; w_stdin := w_stdin w; w_stdout := w_stdout w ++ (OByte <$> bs);
     w_heap := w_heap w |}.

(** The bytes and the log lines of a stdout trace. *)
Definition stdout_bytes (o : list out_item) : list Z :=
  omap (fun it => match it with OByte b => Some b | OLog _ => None end) o.

Definition stdout_logs (o : list out_item) : list log_line :=
  omap (fun it => match it with OByte _ => None | OLog l => Some l end) o.

(** [printf("%s", p)] reads past the object [p] points to when the
    object holds no NUL. *)
Definition reads_past (a : log_arg) : bool :=
  match a with
  | LPtr m => negb (bool_decide (0 ∈ m))
  | LInt _ | LNull => false
  end.

(** The number of blocks allocated and not freed. *)
Definition live_blocks (h : list heap_event) : Z :=
  foldr (fun e n => match e with HAlloc _ => n + 1 | HFree _ => n - 1 end) 0 h.

(** The byte buffers passed to [free]. *)
Definition freed_buffers (h : list heap_event) : list (list Z) :=
  omap (fun e => match e with HFree (Some m) => Some m | _ => None end) h.

(** ** Lemmas *)

(** Two environments are equal when their four parts are; proving the
    parts one by one keeps the terms small. *)
Lemma world_ext a b :
  w_fs a = w_fs b -> w_stdin a = w_stdin b -> w_stdout a = w_stdout b -> w_heap a = w_heap b -> a = b.
Proof. destruct a, b; cbn. intros. by subst. Qed.

Lemma live_blocks_app h1 h2 : live_blocks (h1 ++ h2) = live_blocks h1 + live_blocks h2.
Proof. unfold live_blocks. induction h1 as [|[] h1 IH]; simpl; lia. Qed.

Lemma freed_buffers_app h1 h2 : freed_buffers (h1 ++ h2) = freed_buffers h1 ++ freed_buffers h2.
Proof. apply omap_app. Qed.


Lemma stdout_bytes_app o1 o2 : stdout_bytes (o1 ++ o2) = stdout_bytes o1 ++ stdout_bytes o2.
Proof. apply omap_app. Qed.

Lemma stdout_bytes_bytes bs : stdout_bytes (OByte <$> bs) = bs.
Proof. unfold stdout_bytes. induction bs as [|b bs IH]; [done|]. rewrite fmap_cons. simpl. by f_equal. Qed.

Lemma stdout_bytes_log l : stdout_bytes [OLog l] = [].
Proof. done. Qed.

Lemma stdout_logs_app o1 o2 : stdout_logs (o1 ++ o2) = stdout_logs o1 ++ stdout_logs o2.
Proof. apply omap_app. Qed.

Lemma stdout_logs_bytes bs : stdout_logs (OByte <$> bs) = [].
Proof. by induction bs. Qed.

Lemma reads_past_cstr s : reads_past (LPtr (cstr_mem s)) = false.
Proof.
  unfold reads_past, cstr_mem. rewrite bool_decide_true; [done|].
  set_solver.
Qed.

#[export] Hint Rewrite stdout_bytes_app stdout_bytes_bytes stdout_bytes_log
  stdout_logs_app stdout_logs_bytes live_blocks_app freed_buffers_app : minicrypt.
