(* ===== verification/CryptContext.v ===== *)
(** * The key context of libcryptprov

    The error codes and constants of src/include/libcryptprov.h, the
    context [struct crypt_context], and the two operations that create and
    destroy it in src/src/libcryptprov/libcryptprov.c:
    [crypt_alloc_context] and [crypt_free_context].

    Pointers are modelled by [option]: [None] is [NULL].  The outcome of
    each allocation ([calloc] of the context, [malloc] of the key buffer)
    is an input of the model, so both failure paths are reachable.
    [crypt_free_context] returns the contents of the two blocks at the
    moment [free] is called on them, which is what a reader of freed
    memory can observe. *)

From S2P Require Import Prelude.

(** ** Constants and error codes (libcryptprov.h) *)

Definition CRYPT_VERSION : Z := 1.
Definition CRYPT_VERSION_STRING : string := "v0.1".
Definition CRYPT_MAX_KEY_LEN : Z := 255.
Definition CRYPT_MAX_BUFFER_SIZE : Z := 65535.

(** The anonymous [enum] of libcryptprov.h; its constants are the return
    codes of the library. *)
Inductive crypt_error :=
| CRYPT_ERROR_OK
| CRYPT_ERROR_NO_MEMORY
| CRYPT_ERROR_PARAMETER
| CRYPT_ERROR_ALREADY_RUNNING.

#[export] Instance crypt_error_eq_dec : EqDecision crypt_error.
Proof. solve_decision. Defined.

(** [lia] after unfolding the constants of the header. *)
Ltac crypt_lia := unfold CRYPT_MAX_KEY_LEN, CRYPT_MAX_BUFFER_SIZE in *; lia.

(** The integer value of each enumerator (C numbers them from 0). *)
Definition crypt_error_code (e : crypt_error) : Z :=
  match e with
  | CRYPT_ERROR_OK => 0
  | CRYPT_ERROR_NO_MEMORY => 1
  | CRYPT_ERROR_PARAMETER => 2
  | CRYPT_ERROR_ALREADY_RUNNING => 3
  end.

Definition crypt_get_version_long : Z := CRYPT_VERSION.
Definition crypt_get_version_string : string := CRYPT_VERSION_STRING.

(** [struct crypt_context]: [key] is the pointer to the owned key buffer
    (its contents when non-NULL), [key_size] a [uint16_t], [key_state] the
    [uint8_t] cursor. *)
Record crypt_context := mk_crypt_context {
  version : Z;
  version_string : option string;
  key : option (list Z);
  key_size : Z;
  key_state : Z
}.

(** The context after [memset(ctx, 0x00, sizeof(struct crypt_context))]. *)
Definition zeroed_context : crypt_context :=
  {| version := 0; version_string := None; key := None; key_size := 0; key_state := 0 |}.

(** The outcome of the allocations one call performs. *)
Record alloc_outcome := {
  calloc_ok : bool;   (** [calloc] of the context *)
  malloc_ok : bool    (** [malloc] of the key buffer *)
}.

Definition alloc_succeeds : alloc_outcome := {| calloc_ok := true; malloc_ok := true |}.

(** ** [crypt_alloc_context] (libcryptprov.c:8-36)

    [ctx_out_nonnull] says whether [ctx_out] is non-NULL; [key_buf] is the
    caller's key buffer; [key_sz] is the [uint8_t] argument [key_size].
    The result is the return code and what is stored through [ctx_out]
    ([None]: nothing is stored). [memcpy] copies the first [key_sz]
    bytes of the caller's buffer. *)
Definition crypt_alloc_context (ctx_out_nonnull : bool) (key_buf : option (list Z))
    (key_sz : Z) (heap : alloc_outcome) : crypt_error * option crypt_context :=
  match key_buf with
  | Some kb =>
      if negb ctx_out_nonnull || (CRYPT_MAX_KEY_LEN <=? key_sz)
      then (CRYPT_ERROR_PARAMETER, None)
      else if negb (calloc_ok heap) then (CRYPT_ERROR_NO_MEMORY, None)
      else if negb (malloc_ok heap) then (CRYPT_ERROR_NO_MEMORY, None)
      else (CRYPT_ERROR_OK,
            Some {| version := crypt_get_version_long;
                    version_string := Some crypt_get_version_string;
                    key := Some (take (Z.to_nat key_sz) kb);
                    key_size := key_sz;
                    key_state := 0 |})
  | None => (CRYPT_ERROR_PARAMETER, None)
  end.

(** ** [crypt_free_context] (libcryptprov.c:38-51) *)

(** [memset(buf, 0x00, n)] on a buffer. *)
Definition memset_zero (buf : list Z) (n : nat) : list Z :=
  replicate (min n (length buf)) 0 ++ drop n buf.

(** The contents of the two blocks when they are passed to [free]. *)
Record freed_blocks := {
  freed_key : option (list Z);
  freed_ctx : crypt_context
}.

(** [None]: the context pointer was NULL and nothing was freed. *)
Definition crypt_free_context (ctx : option crypt_context) : option freed_blocks :=
  match ctx with
  | None => None
  | Some c =>
      Some {| freed_key := (fun k => memset_zero k (Z.to_nat (key_size c))) <$> key c;
              freed_ctx := zeroed_context |}
  end.

(** ** The context invariant

    What every function of the library assumes of a live context: the key
    pointer is set, the buffer holds [key_size] bytes, [key_size] is in
    [1 .. 254], and the cursor indexes the buffer. *)
Definition ctx_wfb (c : crypt_context) : bool :=
  match key c with
  | Some k =>
      (Z.of_nat (length k) =? key_size c) && (0 <? key_size c)
      && (key_size c <? CRYPT_MAX_KEY_LEN)
      && (0 <=? key_state c) && (key_state c <? key_size c) && bytes_ok k
  | None => false
  end.

Definition ctx_wf (c : crypt_context) : Prop :=
  exists k, key c = Some k /\ length k = Z.to_nat (key_size c)
            /\ 0 < key_size c < CRYPT_MAX_KEY_LEN
            /\ 0 <= key_state c < key_size c /\ bytes_ok k = true.

Lemma ctx_wfb_spec c : ctx_wfb c = true <-> ctx_wf c.
Proof.
  unfold ctx_wfb, ctx_wf, CRYPT_MAX_KEY_LEN.
  destruct (key c) as [k|]; [|split; [discriminate|intros (? & ? & _); discriminate]].
  rewrite !andb_true_iff, Z.eqb_eq, !Z.ltb_lt, Z.leb_le.
  split.
  - intros (((((? & ?) & ?) & ?) & ?) & ?). exists k. repeat split; auto; lia.
  - intros (k' & [= <-] & ? & ? & ? & ?). repeat split; auto; lia.
Qed.

#[export] Instance ctx_wf_dec c : Decision (ctx_wf c).
Proof. refine (cast_if (decide (ctx_wfb c = true))); by rewrite <-ctx_wfb_spec. Defined.

(** ** Theorems on allocation and release *)

Lemma length_take_key (kb : list Z) ks :
  (Z.to_nat ks <= length kb)%nat -> length (take (Z.to_nat ks) kb) = Z.to_nat ks.
Proof. intros. rewrite length_take. lia. Qed.

(** C9: the return code of [crypt_alloc_context] on every branch.  A
    context is stored exactly when the code is [CRYPT_ERROR_OK] (no
    partial context), the parameter checks give
    [CRYPT_ERROR_PARAMETER], and a failed allocation gives
    [CRYPT_ERROR_NO_MEMORY]. *)
Theorem crypt_alloc_context_result out kb ks heap e r :
  crypt_alloc_context out kb ks heap = (e, r) ->
  (e = CRYPT_ERROR_OK <-> r <> None) /\
  (e = CRYPT_ERROR_PARAMETER <-> out = false \/ kb = None \/ CRYPT_MAX_KEY_LEN <= ks) /\
  (e = CRYPT_ERROR_NO_MEMORY <->
     out = true /\ kb <> None /\ ks < CRYPT_MAX_KEY_LEN /\
     (calloc_ok heap = false \/ malloc_ok heap = false)).
Proof.
  unfold crypt_alloc_context. intros H.
  destruct kb as [kb|]; [|injection H as <- <-; intuition congruence].
  destruct out; simpl in H; [|injection H as <- <-; intuition congruence].
  destruct (Z.leb_spec CRYPT_MAX_KEY_LEN ks); [injection H as <- <-; intuition (congruence || lia)|].
  destruct (calloc_ok heap), (malloc_ok heap); simpl in H; injection H as <- <-;
    intuition (congruence || lia).
Qed.

(** A call with valid arguments whose allocations succeed. *)
Lemma crypt_alloc_context_success (kb : list Z) ks :
  ks < CRYPT_MAX_KEY_LEN ->
  crypt_alloc_context true (Some kb) ks alloc_succeeds =
  (CRYPT_ERROR_OK, Some {| version := crypt_get_version_long;
                           version_string := Some crypt_get_version_string;
                           key := Some (take (Z.to_nat ks) kb); key_size := ks; key_state := 0 |}).
Proof.
  intros Hks. unfold crypt_alloc_context. simpl.
  by destruct (Z.leb_spec CRYPT_MAX_KEY_LEN ks); [lia|].
Qed.

(** C10: a successful allocation copies the first [key_size] bytes of the
    caller's key and starts the cursor at 0; the context is well-formed
    exactly when [key_size > 0].  [key_size = 0] passes the parameter
    check of the code, so the code can hand out a context that violates
    the invariant. *)
Theorem crypt_alloc_context_ok (kb : list Z) ks c :
  0 <= ks -> (Z.to_nat ks <= length kb)%nat -> bytes_ok kb = true ->
  crypt_alloc_context true (Some kb) ks alloc_succeeds = (CRYPT_ERROR_OK, Some c) ->
  key c = Some (take (Z.to_nat ks) kb) /\ key_size c = ks /\ key_state c = 0 /\
  (ctx_wf c <-> 0 < ks).
Proof.
  intros Hks Hlen Hok H.
  destruct (Z.ltb_spec ks CRYPT_MAX_KEY_LEN) as [Hlt|Hge].
  2: { unfold crypt_alloc_context in H. simpl in H.
       destruct (Z.leb_spec CRYPT_MAX_KEY_LEN ks); [discriminate|lia]. }
  rewrite crypt_alloc_context_success in H by done. injection H as <-. simpl.
  repeat split; auto.
  - intros (k & _ & _ & Hpos & _). simpl in Hpos. lia.
  - intros Hpos. exists (take (Z.to_nat ks) kb). simpl.
    rewrite length_take_key by done. repeat split; auto; try lia.
    rewrite <-(take_drop (Z.to_nat ks) kb), bytes_ok_app, andb_true_iff in Hok. tauto.
Qed.

(** C11: [crypt_alloc_context] accepts a key of length 0 (the
    specification requires [0 < key_length]); the context it returns is
    not well-formed. *)
Theorem crypt_alloc_context_empty_key kb :
  exists c, crypt_alloc_context true (Some kb) 0 alloc_succeeds = (CRYPT_ERROR_OK, Some c) /\
            key_size c = 0 /\ ~ ctx_wf c.
Proof.
  eexists. split; [reflexivity|]. split; [done|].
  intros (k & _ & _ & Hks & _). simpl in Hks. lia.
Qed.

(** [memset] over the whole buffer leaves only zeros. *)
Lemma memset_zero_all b n : n = length b -> memset_zero b n = replicate n 0.
Proof. intros ->. unfold memset_zero. by rewrite Nat.min_id, drop_all, app_nil_r. Qed.

(** C12: releasing a well-formed context overwrites every byte of its
    key with zero before the key buffer is freed, and zeroes the context
    before it is freed. *)
Theorem crypt_free_context_zeroes c :
  ctx_wf c ->
  exists k, key c = Some k /\
    crypt_free_context (Some c) =
    Some {| freed_key := Some (replicate (length k) 0); freed_ctx := zeroed_context |}.
Proof.
  intros (k & Hk & Hlen & _). exists k. split; [done|].
  simpl. rewrite Hk. simpl. unfold memset_zero.
  rewrite <-Hlen, Nat.min_id, drop_all, app_nil_r. done.
Qed.

(** ** Witnesses *)

Abbreviation ctx_AB :=
  {| version := 1; version_string := Some "v0.1"; key := Some [65; 66]; key_size := 2; key_state := 0 |}.

Lemma crypt_alloc_context_result_witness :
  (CRYPT_ERROR_PARAMETER = CRYPT_ERROR_OK <-> @None crypt_context <> None) /\
  (CRYPT_ERROR_PARAMETER = CRYPT_ERROR_PARAMETER <-> true = false \/ @None (list Z) = None \/ CRYPT_MAX_KEY_LEN <= 2) /\
  (CRYPT_ERROR_PARAMETER = CRYPT_ERROR_NO_MEMORY <->
     true = true /\ @None (list Z) <> None /\ 2 < CRYPT_MAX_KEY_LEN /\
     (calloc_ok alloc_succeeds = false \/ malloc_ok alloc_succeeds = false)).
Proof. apply (crypt_alloc_context_result true None 2 alloc_succeeds); reflexivity. Defined.

Lemma crypt_alloc_context_ok_witness :
  key ctx_AB = Some (take (Z.to_nat 2) [65; 66; 67]) /\ key_size ctx_AB = 2 /\ key_state ctx_AB = 0 /\
  (ctx_wf ctx_AB <-> 0 < 2).
Proof.
  apply (crypt_alloc_context_ok [65; 66; 67] 2 ctx_AB); [lia | simpl; lia | reflexivity | reflexivity].
Defined.

Lemma crypt_free_context_zeroes_witness :
  exists k, key ctx_AB = Some k /\
    crypt_free_context (Some ctx_AB) =
    Some {| freed_key := Some (replicate (length k) 0); freed_ctx := zeroed_context |}.
Proof. apply crypt_free_context_zeroes. apply ctx_wfb_spec. reflexivity. Defined.
