(* ===== verification/CryptBuffer.v ===== *)
(** * The cipher loop of libcryptprov: [crypt_buffer]

    [crypt_loop] is the [for] loop of libcryptprov.c:74-78, one equation
    per iteration: the key byte under the cursor is rewritten in place,
    the input byte is XORed with the new key byte, and the [uint8_t]
    cursor advances modulo the key size.  [crypt_buffer] adds the guards
    of libcryptprov.c:60-66 and threads the context.

    The theorems cover each branch of [crypt_buffer], the preservation of
    the context invariant, chunk invariance, the decomposition of the
    output into [input XOR keystream] and the involution. *)

From S2P Require Import Prelude CryptContext.

(** ** The loop *)

(** One key-schedule update, [key_ptr[i] = (key_ptr[i] + i) % 256]
    (libcryptprov.c:75): the byte is stored back into a [uint8_t]. *)
Definition key_update (key_ptr : list Z) (i : Z) : list Z :=
  <[Z.to_nat i := u8 ((key_ptr !!! Z.to_nat i + i) mod 256)]> key_ptr.

(** The loop of libcryptprov.c:74-78 over the bytes [input[0 .. inputLen)].
    It returns the key buffer and the cursor after the loop and the bytes
    written to [output[0 .. inputLen)].  Line 76 reads the key byte after
    the update of line 75, and stores the XOR into a [uint8_t]; line 77
    stores [(i + 1) % key_size] into the [uint8_t] [i]. *)
Fixpoint crypt_loop (key_ptr : list Z) (key_sz i : Z) (input : list Z)
    : list Z * Z * list Z :=
  match input with
  | [] => (key_ptr, i, [])
  | b :: rest =>
      let key_ptr' := key_update key_ptr i in
      let o := u8 (b ⊕ key_ptr' !!! Z.to_nat i) in
      let '(kf, i_f, os) := crypt_loop key_ptr' key_sz (u8 ((i + 1) mod key_sz)) rest in
      (kf, i_f, o :: os)
  end.

(** ** [crypt_buffer] (libcryptprov.c:53-83) *)

(** What a call returns and leaves behind: the [uint32_t] return value,
    the context and the output buffer after the call. *)
Record crypt_result := {
  cr_ret : Z;
  cr_ctx : option crypt_context;
  cr_output : option (list Z)
}.

(** The context after the loop: the key bytes were rewritten in place
    and [ctx->key_state = i] (libcryptprov.c:80). *)
Definition ctx_after (c : crypt_context) (k : list Z) (i : Z) : crypt_context :=
  {| version := version c; version_string := version_string c;
     key := Some k; key_size := key_size c; key_state := i |}.

(** [ctx], [output] and [input] are the three pointers ([None] is NULL,
    otherwise the contents of the buffer); [inputLen] is the [uint32_t]
    length.  On an error the code is returned as a [uint32_t] and nothing
    is written.  On success the first [inputLen] bytes of [output] are
    overwritten. *)
Definition crypt_buffer (ctx : option crypt_context) (output input : option (list Z))
    (inputLen : Z) : crypt_result :=
  let fail e := {| cr_ret := crypt_error_code e; cr_ctx := ctx; cr_output := output |} in
  match ctx, output, input with
  | Some c, Some out, Some inp =>
      match key c with
      | Some k =>
          if (inputLen =? 0) || (key_size c =? 0) then fail CRYPT_ERROR_PARAMETER
          else if (CRYPT_MAX_BUFFER_SIZE <? inputLen) || (CRYPT_MAX_KEY_LEN <=? key_size c)
          then fail CRYPT_ERROR_NO_MEMORY
          else
            (* const uint8_t key_size = ctx->key_size; *)
            let ks := u8 (key_size c) in
            let '(k', i', os) := crypt_loop k ks (key_state c) (take (Z.to_nat inputLen) inp) in
            {| cr_ret := inputLen;
               cr_ctx := Some (ctx_after c k' i');
               cr_output := Some (os ++ drop (length os) out) |}
      | None => fail CRYPT_ERROR_PARAMETER
      end
  | _, _, _ => fail CRYPT_ERROR_PARAMETER
  end.

(** ** The keystream

    The key bytes the loop XORs into the input, produced by the same
    schedule without any input. *)
Fixpoint keystream (key_ptr : list Z) (key_sz i : Z) (n : nat) : list Z :=
  match n with
  | O => []
  | S n' =>
      let key_ptr' := key_update key_ptr i in
      key_ptr' !!! Z.to_nat i :: keystream key_ptr' key_sz (u8 ((i + 1) mod key_sz)) n'
  end.

(** The key schedule alone: the key buffer and cursor after [n] bytes. *)
Fixpoint schedule (key_ptr : list Z) (key_sz i : Z) (n : nat) : list Z * Z :=
  match n with
  | O => (key_ptr, i)
  | S n' => schedule (key_update key_ptr i) key_sz (u8 ((i + 1) mod key_sz)) n'
  end.

(** ** Lemmas on the loop *)

Lemma key_update_length k i : length (key_update k i) = length k.
Proof. apply length_insert. Qed.

(** The byte the loop XORs in is always a [uint8_t] value: the updated
    byte when the cursor is in range, the default 0 otherwise. *)
Lemma key_update_byte_range k i : 0 <= key_update k i !!! Z.to_nat i < 256.
Proof.
  unfold key_update. rewrite list_lookup_total_insert.
  case_decide; [apply u8_range|].
  destruct (decide (Z.to_nat i < length k)%nat) as [Hlt|Hge]; [tauto|].
  rewrite list_lookup_total_alt, lookup_ge_None_2 by lia. simpl. lia.
Qed.

Lemma key_update_bytes_ok k i : bytes_ok k = true -> bytes_ok (key_update k i) = true.
Proof. intros. apply bytes_ok_insert; auto with minicrypt. Qed.

Lemma key_update_in_range k i :
  (Z.to_nat i < length k)%nat ->
  key_update k i !!! Z.to_nat i = u8 ((k !!! Z.to_nat i + i) mod 256).
Proof. intros. by apply list_lookup_total_insert_eq. Qed.

#[export] Hint Resolve key_update_byte_range key_update_bytes_ok : minicrypt.
#[export] Hint Rewrite key_update_length : minicrypt.

(** The loop over a concatenation is the loop over the first part
    followed by the loop over the second part from the state it left. *)
Lemma crypt_loop_app k ks i a b :
  crypt_loop k ks i (a ++ b) =
  let '(k1, i1, o1) := crypt_loop k ks i a in
  let '(k2, i2, o2) := crypt_loop k1 ks i1 b in
  (k2, i2, o1 ++ o2).
Proof.
  revert k i. induction a as [|x a IH]; intros k i; simpl.
  - by destruct (crypt_loop k ks i b) as [[??]?].
  - rewrite IH. destruct (crypt_loop _ ks _ a) as [[k1 i1] o1].
    by destruct (crypt_loop k1 ks i1 b) as [[??]?].
Qed.

(** The key and cursor after the loop depend on the number of bytes
    only. *)
Lemma crypt_loop_state k ks i inp : (crypt_loop k ks i inp).1 = schedule k ks i (length inp).
Proof.
  revert k i. induction inp as [|b inp IH]; intros k i; [done|]. simpl.
  rewrite <-IH. by destruct (crypt_loop _ ks _ inp) as [[??]?].
Qed.

(** The loop is the key schedule on the key and cursor, and XOR with the
    keystream on the bytes. *)
Lemma crypt_loop_decompose k ks i inp :
  bytes_ok inp = true ->
  crypt_loop k ks i inp =
  (schedule k ks i (length inp), zip_with Z.lxor inp (keystream k ks i (length inp))).
Proof.
  revert k i. induction inp as [|b inp IH]; intros k i Hb; [done|].
  rewrite bytes_ok_cons, andb_true_iff, is_u8_spec in Hb. destruct Hb as [Hb Hinp].
  simpl. rewrite IH by done. destruct (schedule _ ks _ _) as [k' i'].
  rewrite u8_small; [done|]. apply lxor_byte_range; auto with minicrypt.
Qed.

Lemma length_keystream k ks i n : length (keystream k ks i n) = n.
Proof. revert k i. induction n; intros; simpl; auto. Qed.

Lemma crypt_loop_length k ks i inp : length (crypt_loop k ks i inp).2 = length inp.
Proof.
  revert k i. induction inp as [|b inp IH]; intros k i; [done|]. simpl.
  match goal with |- context [crypt_loop ?k' ks ?i' inp] =>
    specialize (IH k' i'); destruct (crypt_loop k' ks i' inp) as [[??]?] end.
  simpl in *. lia.
Qed.

(** The cursor stays below the key size and the key keeps its length and
    its byte bounds: the loop part of the context invariant. *)
Lemma schedule_wf k ks i n :
  0 < ks < 256 -> 0 <= i < ks -> bytes_ok k = true ->
  let '(k', i') := schedule k ks i n in
  length k' = length k /\ 0 <= i' < ks /\ bytes_ok k' = true.
Proof.
  revert k i. induction n as [|n IH]; intros k i Hks Hi Hk; simpl; [done|].
  assert (0 <= (i + 1) mod ks < ks) by (apply Z.mod_pos_bound; lia).
  specialize (IH (key_update k i) (u8 ((i + 1) mod ks)) Hks).
  rewrite u8_small in * by lia.
  destruct (schedule _ ks _ n) as [k' i'].
  rewrite key_update_length in IH. apply IH; auto with minicrypt.
Qed.

Lemma zip_with_lxor_cancel (p ks : list Z) :
  length p = length ks -> zip_with Z.lxor (zip_with Z.lxor p ks) ks = p.
Proof.
  revert ks. induction p as [|x p IH]; intros [|y ks] H; simpl in *; try done.
  rewrite lxor_cancel_r, IH; auto.
Qed.

Lemma bytes_ok_zip_with_lxor (p ks : list Z) :
  bytes_ok p = true -> bytes_ok ks = true -> bytes_ok (zip_with Z.lxor p ks) = true.
Proof.
  revert ks. induction p as [|x p IH]; intros [|y ks] Hp Hks; cbn [zip_with]; try done.
  rewrite bytes_ok_cons, andb_true_iff in *. rewrite is_u8_spec in *.
  destruct Hp, Hks. split; [apply lxor_byte_range|apply IH]; auto; by apply is_u8_spec.
Qed.

Lemma bytes_ok_keystream k ks i n : bytes_ok (keystream k ks i n) = true.
Proof.
  revert k i. induction n; intros; cbn [keystream]; [done|].
  rewrite bytes_ok_cons, IHn, andb_true_r. apply is_u8_spec; auto with minicrypt.
Qed.

Lemma bytes_ok_take l n : bytes_ok l = true -> bytes_ok (take n l) = true.
Proof.
  rewrite <-(take_drop n l) at 1. rewrite bytes_ok_app, andb_true_iff. tauto.
Qed.

#[export] Hint Resolve bytes_ok_zip_with_lxor bytes_ok_keystream bytes_ok_take : minicrypt.

(** ** [crypt_buffer] on a well-formed context *)

Section WellFormed.
Context (c : crypt_context) (k : list Z).
Hypothesis Hwf : ctx_wf c.
Hypothesis Hkey : key c = Some k.

Lemma wf_key_size : 0 < key_size c < 255 /\ u8 (key_size c) = key_size c.
Proof.
  destruct Hwf as (k' & _ & _ & Hks & _). unfold CRYPT_MAX_KEY_LEN in Hks.
  split; [lia|]. apply u8_small. lia.
Qed.

(** The success branch, unfolded to the loop. *)
Lemma crypt_buffer_run out inp n :
  0 < n <= CRYPT_MAX_BUFFER_SIZE ->
  crypt_buffer (Some c) (Some out) (Some inp) n =
  let '(k', i', os) := crypt_loop k (key_size c) (key_state c) (take (Z.to_nat n) inp) in
  {| cr_ret := n; cr_ctx := Some (ctx_after c k' i');
     cr_output := Some (os ++ drop (length os) out) |}.
Proof.
  intros Hn. destruct wf_key_size as [Hks Hu8].
  unfold crypt_buffer. rewrite Hkey, Hu8.
  unfold CRYPT_MAX_BUFFER_SIZE, CRYPT_MAX_KEY_LEN in *.
  destruct (Z.eqb_spec n 0); [lia|]. destruct (Z.eqb_spec (key_size c) 0); [lia|].
  destruct (Z.ltb_spec 65535 n); [lia|]. destruct (Z.leb_spec 255 (key_size c)); [lia|].
  done.
Qed.

(** A call over a whole buffer of [0 < length inp <= 65535] bytes. *)
Lemma crypt_buffer_run_all out inp :
  (0 < length inp)%nat -> Z.of_nat (length inp) <= CRYPT_MAX_BUFFER_SIZE ->
  crypt_buffer (Some c) (Some out) (Some inp) (Z.of_nat (length inp)) =
  let '(k', i', os) := crypt_loop k (key_size c) (key_state c) inp in
  {| cr_ret := Z.of_nat (length inp); cr_ctx := Some (ctx_after c k' i');
     cr_output := Some (os ++ drop (length inp) out) |}.
Proof.
  intros H0 Hmax. rewrite crypt_buffer_run by lia. rewrite Nat2Z.id, take_ge by lia.
  pose proof (crypt_loop_length k (key_size c) (key_state c) inp) as L.
  destruct (crypt_loop _ _ _ inp) as [[??]?]. simpl in L. by rewrite L.
Qed.

Lemma ctx_after_wf m :
  ctx_wf (ctx_after c (schedule k (key_size c) (key_state c) m).1
                      (schedule k (key_size c) (key_state c) m).2).
Proof.
  destruct Hwf as (k0 & Hk0 & Hlen & Hks & Hi & Hok). rewrite Hkey in Hk0. injection Hk0 as <-.
  unfold CRYPT_MAX_KEY_LEN in Hks. assert (0 < key_size c < 256) as Hks' by lia.
  pose proof (schedule_wf k (key_size c) (key_state c) m Hks' Hi Hok) as Hs.
  destruct (schedule _ _ _ m) as [k' i']. destruct Hs as (? & ? & ?).
  exists k'. simpl. repeat split; auto; crypt_lia.
Qed.

(** The loop from a well-formed context ends in a well-formed one. *)
Lemma crypt_loop_wf inp k' i' os :
  crypt_loop k (key_size c) (key_state c) inp = (k', i', os) -> ctx_wf (ctx_after c k' i').
Proof.
  intros E. pose proof (crypt_loop_state k (key_size c) (key_state c) inp) as S.
  rewrite E in S. simpl in S. pose proof (ctx_after_wf (length inp)) as W.
  by rewrite <-S in W.
Qed.

(** Whatever the arguments, a call on [c] leaves [c] unchanged (an
    error) or leaves the context after the loop over some bytes. *)
Lemma crypt_buffer_ctx_cases out inp n :
  cr_ctx (crypt_buffer (Some c) out inp n) = Some c \/
  exists bs k' i' os, crypt_loop k (key_size c) (key_state c) bs = (k', i', os) /\
                      cr_ctx (crypt_buffer (Some c) out inp n) = Some (ctx_after c k' i').
Proof.
  destruct wf_key_size as [_ Hu8].
  unfold crypt_buffer. destruct out, inp; auto. rewrite Hkey, Hu8.
  case_match; [by left|]. case_match; [by left|]. right.
  destruct (crypt_loop _ _ _ _) as [[k' i'] os] eqn:E.
  exists (take (Z.to_nat n) l0), k', i', os. split; [exact E|reflexivity].
Qed.
End WellFormed.

(** A call with [inputLen == 0] fails with [CRYPT_ERROR_PARAMETER]
    whatever the other arguments are. *)
Lemma crypt_buffer_inputLen_0 ctx out inp :
  crypt_buffer ctx out inp 0 =
  {| cr_ret := crypt_error_code CRYPT_ERROR_PARAMETER; cr_ctx := ctx; cr_output := out |}.
Proof. unfold crypt_buffer. by destruct ctx as [[? ? [?|] ? ?]|], out, inp. Qed.

Lemma crypt_buffer_key_size_0 c out inp n :
  key_size c = 0 ->
  crypt_buffer (Some c) out inp n =
  {| cr_ret := crypt_error_code CRYPT_ERROR_PARAMETER; cr_ctx := Some c; cr_output := out |}.
Proof.
  intros H. unfold crypt_buffer. destruct c as [? ? [?|] ? ?]; cbn in H; subst;
    rewrite ?orb_true_r; by destruct out, inp.
Qed.

Lemma ctx_after_after c k1 i1 k2 i2 : ctx_after (ctx_after c k1 i1) k2 i2 = ctx_after c k2 i2.
Proof. reflexivity. Qed.

(** ** Functional behaviour of [crypt_buffer] *)

(** C5: on a well-formed context with [0 < inputLen <= 65535], a call
    returns [inputLen], overwrites the first [inputLen] bytes of the output
    with the input XORed with the keystream, and leaves the key and cursor
    of the schedule after [inputLen] bytes. *)
Theorem crypt_buffer_success c k out inp n :
  ctx_wf c -> key c = Some k -> 0 < n <= CRYPT_MAX_BUFFER_SIZE ->
  (Z.to_nat n <= length inp)%nat -> bytes_ok (take (Z.to_nat n) inp) = true ->
  crypt_buffer (Some c) (Some out) (Some inp) n =
  {| cr_ret := n;
     cr_ctx := Some (ctx_after c (schedule k (key_size c) (key_state c) (Z.to_nat n)).1
                                 (schedule k (key_size c) (key_state c) (Z.to_nat n)).2);
     cr_output := Some (zip_with Z.lxor (take (Z.to_nat n) inp)
                          (keystream k (key_size c) (key_state c) (Z.to_nat n))
                        ++ drop (Z.to_nat n) out) |}.
Proof.
  intros Hwf Hkey Hn Hlen Hok. rewrite (crypt_buffer_run c k) by done.
  rewrite crypt_loop_decompose by done.
  rewrite length_take_le by lia.
  destruct (schedule _ _ _ _) as [k' i']. simpl.
  rewrite length_zip_with, length_take_le, length_keystream by lia.
  by rewrite Nat.min_id.
Qed.

(** C4: every call, on every branch, leaves a well-formed context
    well-formed. *)
Theorem crypt_buffer_preserves_wf c out inp n c' :
  ctx_wf c -> cr_ctx (crypt_buffer (Some c) out inp n) = Some c' -> ctx_wf c'.
Proof.
  intros Hwf Hc'. pose proof Hwf as (k & Hkey & _).
  destruct (crypt_buffer_ctx_cases c k Hwf Hkey out inp n) as [H|(bs & k' & i' & os & E & H)];
    rewrite H in Hc'; injection Hc' as <-; [done|].
  by apply (crypt_loop_wf c k Hwf Hkey bs k' i' os).
Qed.

(** C1: chunk invariance.  Two successive calls through one context
    over [a] then [b] leave the same context and write the same bytes as
    one call over [a ++ b] (when that call is within the size limit). *)
Theorem crypt_buffer_chunk_invariance c a b oa ob o c1 o1 c2 o2 r1 r2 :
  ctx_wf c -> (0 < length a)%nat -> (0 < length b)%nat ->
  Z.of_nat (length a + length b) <= CRYPT_MAX_BUFFER_SIZE ->
  length oa = length a -> length ob = length b -> length o = (length a + length b)%nat ->
  crypt_buffer (Some c) (Some oa) (Some a) (Z.of_nat (length a)) =
    {| cr_ret := r1; cr_ctx := Some c1; cr_output := Some o1 |} ->
  crypt_buffer (Some c1) (Some ob) (Some b) (Z.of_nat (length b)) =
    {| cr_ret := r2; cr_ctx := Some c2; cr_output := Some o2 |} ->
  crypt_buffer (Some c) (Some o) (Some (a ++ b)) (Z.of_nat (length (a ++ b))) =
    {| cr_ret := Z.of_nat (length (a ++ b)); cr_ctx := Some c2; cr_output := Some (o1 ++ o2) |}.
Proof.
  intros Hwf Ha Hb Hab Hoa Hob Ho H1 H2.
  pose proof Hwf as (k & Hkey & _).
  rewrite (crypt_buffer_run_all c k) in H1 by (auto; lia).
  rewrite (crypt_buffer_run_all c k) by (rewrite ?length_app; auto; lia).
  rewrite crypt_loop_app.
  destruct (crypt_loop k _ _ a) as [[k1 i1] os1] eqn:E1.
  injection H1 as <- <- <-.
  pose proof (crypt_loop_wf c k Hwf Hkey a k1 i1 os1 E1) as Hwf1.
  rewrite (crypt_buffer_run_all _ k1) in H2 by (auto; lia). simpl in H2.
  destruct (crypt_loop k1 _ _ b) as [[k2 i2] os2] eqn:E2.
  injection H2 as <- <- <-.
  rewrite !drop_ge by (rewrite ?length_app; lia). by rewrite !app_nil_r.
Qed.

(** C3: the involution.  Transforming the output of a call again, from
    the same context state (for instance a second context created from
    the same key), gives back the input. *)
Theorem crypt_buffer_involution c P out1 out2 :
  ctx_wf c -> bytes_ok P = true -> (0 < length P)%nat ->
  Z.of_nat (length P) <= CRYPT_MAX_BUFFER_SIZE ->
  exists C, cr_output (crypt_buffer (Some c) (Some out1) (Some P) (Z.of_nat (length P))) = Some C /\
            cr_output (crypt_buffer (Some c) (Some out2) (Some C) (Z.of_nat (length P))) =
            Some (P ++ drop (length P) out2).
Proof.
  intros Hwf Hok H0 Hmax. pose proof Hwf as (k & Hkey & _).
  assert (0 < Z.of_nat (length P) <= CRYPT_MAX_BUFFER_SIZE) as Hn by crypt_lia.
  rewrite (crypt_buffer_run c k) by done. rewrite Nat2Z.id, (take_ge P) by lia.
  rewrite crypt_loop_decompose by done.
  set (ks := keystream k (key_size c) (key_state c) (length P)).
  destruct (schedule _ _ _ _) as [k' i'].
  eexists; split; [reflexivity|].
  assert (length (zip_with Z.lxor P ks) = length P) as Lz
    by (unfold ks; rewrite length_zip_with, length_keystream; lia).
  rewrite (crypt_buffer_run c k) by done. rewrite Nat2Z.id, Lz, take_app_length' by done.
  rewrite crypt_loop_decompose by (unfold ks; auto with minicrypt).
  rewrite Lz. fold ks. rewrite zip_with_lxor_cancel by (unfold ks; by rewrite length_keystream).
  destruct (schedule _ _ _ _). done.
Qed.

(** ** Error paths of [crypt_buffer] *)

(** C7: a NULL pointer, [inputLen == 0], a NULL key or [key_size == 0]
    fail with [CRYPT_ERROR_PARAMETER], returned as a [uint32_t]; the
    context and the output are left as they were. *)
Theorem crypt_buffer_parameter_error ctx out inp n :
  (ctx = None \/ out = None \/ inp = None \/ n = 0 \/
   exists c, ctx = Some c /\ (key c = None \/ key_size c = 0)) ->
  crypt_buffer ctx out inp n =
  {| cr_ret := crypt_error_code CRYPT_ERROR_PARAMETER; cr_ctx := ctx; cr_output := out |}.
Proof.
  intros H. unfold crypt_buffer.
  destruct ctx as [c|], out, inp; try done.
  destruct (key c) as [k|] eqn:Ek; [|done].
  assert ((n =? 0) || (key_size c =? 0) = true) as ->; [|done].
  destruct H as [H|[H|[H|[H|(c' & Hc & Hk)]]]]; try discriminate.
  - subst n. done.
  - injection Hc as <-. destruct Hk as [Hk|Hk]; [congruence|]. rewrite Hk. apply orb_true_r.
Qed.

(** C8: on a well-formed context, a span longer than
    [CRYPT_MAX_BUFFER_SIZE] = 65535 bytes fails with
    [CRYPT_ERROR_NO_MEMORY] (the code has no "buffer too large" error)
    and changes nothing. *)
Theorem crypt_buffer_too_large c out inp n :
  ctx_wf c -> CRYPT_MAX_BUFFER_SIZE < n ->
  crypt_buffer (Some c) (Some out) (Some inp) n =
  {| cr_ret := crypt_error_code CRYPT_ERROR_NO_MEMORY; cr_ctx := Some c; cr_output := Some out |}.
Proof.
  intros (k & Hk & _ & Hks & _) Hn. unfold crypt_buffer. rewrite Hk.
  destruct (Z.eqb_spec n 0); [crypt_lia|]. destruct (Z.eqb_spec (key_size c) 0); [crypt_lia|].
  destruct (Z.ltb_spec CRYPT_MAX_BUFFER_SIZE n); [done|crypt_lia].
Qed.

(** ** Witnesses *)

Ltac wf_by_eval := apply ctx_wfb_spec; reflexivity.

Lemma crypt_buffer_chunk_invariance_witness :
  crypt_buffer (Some ctx_AB) (Some [0; 0; 0]) (Some ([1; 2] ++ [3]))
               (Z.of_nat (length ([1; 2] ++ [3]))) =
  {| cr_ret := Z.of_nat (length ([1; 2] ++ [3])); cr_ctx := Some (ctx_after ctx_AB [65; 67] 1);
     cr_output := Some ([64; 65] ++ [66]) |}.
Proof.
  apply (crypt_buffer_chunk_invariance ctx_AB [1; 2] [3] [0; 0] [0] [0; 0; 0]
           (ctx_after ctx_AB [65; 67] 0) [64; 65] (ctx_after ctx_AB [65; 67] 1) [66] 2 1);
    [wf_by_eval | simpl; lia | simpl; lia | simpl; crypt_lia | reflexivity.. ].
Defined.

Lemma crypt_buffer_involution_witness :
  exists C, cr_output (crypt_buffer (Some ctx_AB) (Some [0; 0; 0]) (Some [1; 2; 3])
                                    (Z.of_nat (length [1; 2; 3]))) = Some C /\
            cr_output (crypt_buffer (Some ctx_AB) (Some [9; 9; 9; 9]) (Some C)
                                    (Z.of_nat (length [1; 2; 3]))) =
            Some ([1; 2; 3] ++ drop (length [1; 2; 3]) [9; 9; 9; 9]).
Proof.
  apply crypt_buffer_involution; [wf_by_eval | reflexivity | simpl; lia | simpl; crypt_lia].
Defined.

Lemma crypt_buffer_preserves_wf_witness : ctx_wf (ctx_after ctx_AB [65; 67] 1).
Proof.
  apply (crypt_buffer_preserves_wf ctx_AB (Some [0; 0; 0]) (Some [0; 0; 0]) 3);
    [wf_by_eval | reflexivity].
Defined.

Lemma crypt_buffer_success_witness :
  crypt_buffer (Some ctx_AB) (Some [0; 0; 0; 7]) (Some [1; 2; 3]) 3 =
  {| cr_ret := 3; cr_ctx := Some (ctx_after ctx_AB [65; 67] 1); cr_output := Some [64; 65; 66; 7] |}.
Proof.
  rewrite (crypt_buffer_success ctx_AB [65; 66]) by (try wf_by_eval; try reflexivity; simpl; crypt_lia).
  reflexivity.
Defined.

Lemma crypt_buffer_parameter_error_witness :
  crypt_buffer (Some ctx_AB) (Some [0]) (Some [1]) 0 =
  {| cr_ret := crypt_error_code CRYPT_ERROR_PARAMETER; cr_ctx := Some ctx_AB; cr_output := Some [0] |}.
Proof. apply crypt_buffer_parameter_error. right; right; right; left; reflexivity. Defined.

Lemma crypt_buffer_too_large_witness :
  crypt_buffer (Some ctx_AB) (Some []) (Some []) 65536 =
  {| cr_ret := crypt_error_code CRYPT_ERROR_NO_MEMORY; cr_ctx := Some ctx_AB; cr_output := Some [] |}.
Proof. apply crypt_buffer_too_large; [wf_by_eval | crypt_lia]. Defined.

