(* ===== verification/Keystream.v ===== *)
(** * The abstract keystream of libcryptprov

    The specification of what [crypt_buffer] computes, stated without the
    loop: after [m] bytes have gone through a context created from the
    key [K] of length [L], key byte [j] has been visited
    [visits L m j = m / L + (j < m mod L ? 1 : 0)] times and holds
    [K[j] + visits L m j * j] modulo 256 ([sched_key K m]), the cursor is
    [m mod L], and the n-th keystream byte is [ks_byte K n].

    The refinement theorem shows that [crypt_loop] started in the state
    of [m] bytes ends in the state of [m + n] bytes and XORs the input with
    the keystream bytes [m .. m+n-1].  Lifted to [crypt_buffer] through the
    abstraction relation [ctx_models], it says that a context is the
    abstract state "key [K], [m] bytes consumed", and that each call is
    the abstract step that adds the length of the span to [m]; [feed], a
    client that passes a stream through one context in spans of any
    sizes, outputs the keystream XOR of the whole stream. *)

From S2P Require Import Prelude CryptContext CryptBuffer.

(** ** The closed form *)

(** How often the loop has updated key byte [j] after [m] bytes. *)
Definition visits (L m j : nat) : nat :=
  m / L + (if bool_decide (j < m mod L)%nat then 1 else 0).

(** The key buffer after [m] bytes. *)
Definition sched_key (K : list Z) (m : nat) : list Z :=
  imap (fun j kj => (kj + Z.of_nat (visits (length K) m j * j)) mod 256) K.

(** The keystream byte XORed into the n-th byte of the stream. *)
Definition ks_byte (K : list Z) (n : nat) : Z :=
  let L := length K in
  let j := (n mod L)%nat in
  (K !!! j + Z.of_nat ((n / L + 1) * j)) mod 256.

(** A context represents the abstract state "key [K], [m] bytes
    consumed". *)
Definition ctx_models (K : list Z) (m : nat) (c : crypt_context) : Prop :=
  key c = Some (sched_key K m) /\ key_size c = Z.of_nat (length K) /\
  key_state c = Z.of_nat (m mod length K).

(** A client that passes the spans [chunks], in order, through one
    context, each into an output buffer of its own size, and checks each
    return value against the span length (the stream supplier of the
    specification).  The result is the context and the concatenated
    outputs; [None] at the first call whose return value is not the span
    length. *)
Fixpoint feed (ctx : option crypt_context) (chunks : list (list Z))
    : option (option crypt_context * list Z) :=
  match chunks with
  | [] => Some (ctx, [])
  | ch :: rest =>
      let r := crypt_buffer ctx (Some (replicate (length ch) 0)) (Some ch) (Z.of_nat (length ch)) in
      if cr_ret r =? Z.of_nat (length ch) then
        match feed (cr_ctx r) rest with
        | Some (c', os) => Some (c', default [] (cr_output r) ++ os)
        | None => None
        end
      else None
  end.

(** The bytes [s] XORed with the keystream from byte [m] on. *)
Definition ks_xor (K : list Z) (m : nat) (s : list Z) : list Z :=
  zip_with Z.lxor s (map (ks_byte K) (seq m (length s))).

(** ** Arithmetic of the cursor *)

Section NatArith.
Local Open Scope nat_scope.

Lemma succ_div_mod L m :
(0 < L)%nat ->
((m mod L + 1 < L -> S m / L = m / L /\ S m mod L = m mod L + 1) /\
 (m mod L + 1 = L -> S m / L = S (m / L) /\ S m mod L = 0))%nat.
Proof.
intros HL. pose proof (Nat.div_mod_eq m L). pose proof (Nat.mod_bound_pos m L ltac:(lia) HL).
split; intros Hr; split; symmetry.
- apply Nat.div_unique with (r := (m mod L + 1)%nat); lia.
- apply Nat.mod_unique with (q := m / L); lia.
- apply Nat.div_unique with (r := 0%nat); nia.
- apply Nat.mod_unique with (q := S (m / L)); nia.
Qed.

Lemma visits_succ L m j :
(0 < L)%nat -> (j < L)%nat ->
visits L (S m) j = (visits L m j + if bool_decide (j = m mod L) then 1 else 0)%nat.
Proof.
intros HL Hj. unfold visits. pose proof (Nat.mod_bound_pos m L ltac:(lia) HL).
destruct (succ_div_mod L m HL) as [H1 H2].
destruct (decide (m mod L + 1 < L)%nat) as [Hlt|Hge].
- destruct (H1 Hlt) as [-> ->]. repeat case_bool_decide; lia.
- destruct (H2 ltac:(lia)) as [-> ->]. repeat case_bool_decide; lia.
Qed.

End NatArith.

Lemma cursor_succ L m :
  (0 < L < 256)%nat ->
  u8 ((Z.of_nat (m mod L) + 1) mod Z.of_nat L) = Z.of_nat (S m mod L).
Proof.
  intros HL. replace (Z.of_nat (m mod L) + 1) with (Z.of_nat (S (m mod L))) by lia.
  rewrite <-Nat2Z.inj_mod, u8_small.
  - f_equal. rewrite <-Nat.add_1_r, Nat.Div0.add_mod_idemp_l. f_equal. lia.
  - pose proof (Nat.mod_bound_pos (S (m mod L)) L ltac:(lia) ltac:(lia)). lia.
Qed.

(** ** The schedule step *)

Section Step.
Context (K : list Z).
Hypothesis HL : (0 < length K < 255)%nat.

Lemma sched_key_lookup m j :
  (j < length K)%nat ->
  sched_key K m !! j = Some ((K !!! j + Z.of_nat (visits (length K) m j * j)) mod 256).
Proof.
  intros Hj. unfold sched_key. rewrite list_lookup_imap.
  destruct (lookup_lt_is_Some_2 K j Hj) as [x Hx].
  rewrite Hx, (list_lookup_total_correct K j x Hx). done.
Qed.

Lemma sched_key_length m : length (sched_key K m) = length K.
Proof. apply length_imap. Qed.

(** One iteration of the loop takes the state of [m] bytes to the state
    of [m + 1] bytes. *)
Lemma key_update_sched m :
  key_update (sched_key K m) (Z.of_nat (m mod length K)) = sched_key K (S m).
Proof.
  pose proof (Nat.mod_bound_pos m (length K) ltac:(lia) ltac:(lia)) as Hr.
  unfold key_update. rewrite Nat2Z.id. apply list_eq. intros j.
  destruct (decide (j < length K)%nat) as [Hj|Hj];
    [|rewrite !lookup_ge_None_2 by (rewrite ?length_insert, ?sched_key_length; lia); done].
  rewrite sched_key_lookup by done.
  destruct (decide (j = m mod length K)%nat) as [->|Hne].
  - rewrite list_lookup_insert_eq by (rewrite sched_key_length; lia).
    rewrite list_lookup_total_alt, sched_key_lookup by lia. simpl. f_equal.
    rewrite visits_succ, bool_decide_true by (auto; lia). unfold u8.
    rewrite Z.mod_mod, Zplus_mod_idemp_l by lia. f_equal. lia.
  - rewrite list_lookup_insert_ne by lia. rewrite sched_key_lookup by done.
    rewrite visits_succ, bool_decide_false by (auto; lia). do 3 f_equal. lia.
Qed.

Lemma key_update_sched_byte m :
  key_update (sched_key K m) (Z.of_nat (m mod length K)) !!! Z.to_nat (Z.of_nat (m mod length K))
  = ks_byte K m.
Proof.
  pose proof (Nat.mod_bound_pos m (length K) ltac:(lia) ltac:(lia)) as Hr.
  rewrite key_update_sched, Nat2Z.id, list_lookup_total_alt, sched_key_lookup by lia.
  simpl. unfold ks_byte. rewrite visits_succ, bool_decide_true by (auto; lia).
  unfold visits. rewrite bool_decide_false by lia. do 3 f_equal. lia.
Qed.

Lemma schedule_sched m n :
  schedule (sched_key K m) (Z.of_nat (length K)) (Z.of_nat (m mod length K)) n =
  (sched_key K (m + n), Z.of_nat ((m + n) mod length K)).
Proof.
  revert m. induction n as [|n IH]; intros m; simpl; [by rewrite Nat.add_0_r|].
  rewrite key_update_sched, cursor_succ, IH by lia. by rewrite Nat.add_succ_r.
Qed.

Lemma keystream_sched m n :
  keystream (sched_key K m) (Z.of_nat (length K)) (Z.of_nat (m mod length K)) n =
  map (ks_byte K) (seq m n).
Proof.
  revert m. induction n as [|n IH]; intros m; [done|]. cbn [keystream seq map].
  rewrite key_update_sched_byte. f_equal.
  rewrite key_update_sched, cursor_succ, IH by lia. done.
Qed.
End Step.

Lemma sched_key_0 (K : list Z) : bytes_ok K = true -> sched_key K 0 = K.
Proof.
  intros Hok. apply list_eq. intros j. unfold sched_key.
  destruct (decide (j < length K)%nat) as [Hj|Hj];
    [|rewrite !lookup_ge_None_2 by (rewrite ?length_imap; lia); done].
  rewrite list_lookup_imap.
  destruct (K !! j) as [x|] eqn:Hx; [|done]. simpl. f_equal.
  unfold visits. rewrite Nat.Div0.div_0_l, Nat.Div0.mod_0_l, bool_decide_false by lia.
  rewrite Z.add_0_r. apply Z.mod_small.
  apply bytes_ok_Forall in Hok. eapply Forall_lookup_1 in Hok; [|exact Hx]. exact Hok.
Qed.

Lemma sched_key_bytes_ok K m : bytes_ok (sched_key K m) = true.
Proof.
  apply bytes_ok_Forall, Forall_lookup. intros j x Hx.
  unfold sched_key in Hx. rewrite list_lookup_imap in Hx.
  destruct (K !! j); simplify_eq/=. apply Z.mod_pos_bound. lia.
Qed.

(** A context that represents an abstract state is well-formed. *)
Lemma length_ks_xor K m s : length (ks_xor K m s) = length s.
Proof. unfold ks_xor. rewrite length_zip_with, length_map, length_seq. lia. Qed.

(** XOR with the keystream from byte [m] splits at a concatenation. *)
Lemma ks_xor_app K m a b : ks_xor K m (a ++ b) = ks_xor K m a ++ ks_xor K (m + length a) b.
Proof.
  unfold ks_xor. rewrite length_app, seq_app, map_app, zip_with_app; [done|].
  by rewrite length_map, length_seq.
Qed.

(** Releasing a context that represents [K] frees a key buffer of
    [length K] zeros. *)
Lemma crypt_free_context_models K m c :
  ctx_models K m c ->
  crypt_free_context (Some c) =
  Some {| freed_key := Some (replicate (length K) 0); freed_ctx := zeroed_context |}.
Proof.
  intros (Hk & Hks & _). cbn [crypt_free_context]. rewrite Hk, Hks, Nat2Z.id.
  cbn [fmap option_fmap option_map]. by rewrite memset_zero_all by (by rewrite sched_key_length).
Qed.

Lemma ctx_models_wf K m c :
  (0 < length K < 255)%nat -> ctx_models K m c -> ctx_wf c.
Proof.
  intros HL (Hk & Hks & Hi). exists (sched_key K m).
  pose proof (Nat.mod_bound_pos m (length K) ltac:(lia) ltac:(lia)).
  rewrite Hk, Hks, Hi, sched_key_length. unfold CRYPT_MAX_KEY_LEN.
  repeat split; auto using sched_key_bytes_ok; lia.
Qed.

(** ** Refinement *)

(** C2: the loop refines the keystream specification.  Started in the
    state of [m] bytes, the loop over [inp] ends in the state of
    [m + length inp] bytes and outputs [inp[p] XOR ks_byte K (m + p)]. *)
Theorem crypt_loop_refines K m inp :
  (0 < length K < 255)%nat -> bytes_ok inp = true ->
  crypt_loop (sched_key K m) (Z.of_nat (length K)) (Z.of_nat (m mod length K)) inp =
  (sched_key K (m + length inp), Z.of_nat ((m + length inp) mod length K),
   zip_with Z.lxor inp (map (ks_byte K) (seq m (length inp)))).
Proof.
  intros HL Hok. rewrite crypt_loop_decompose by done.
  by rewrite schedule_sched, keystream_sched.
Qed.

(** The simulation of one [crypt_buffer] call.  A context that represents
    "key [K], [m] bytes consumed" is taken by a call over the first [n]
    bytes of [inp] to a context that represents [m + n] bytes, and the
    output buffer starts with those bytes XORed with keystream bytes
    [m .. m + n - 1]. *)
Lemma crypt_buffer_models K m c out inp n :
  (0 < length K < 255)%nat -> ctx_models K m c -> 0 < n <= CRYPT_MAX_BUFFER_SIZE ->
  (Z.to_nat n <= length inp)%nat -> bytes_ok (take (Z.to_nat n) inp) = true ->
  exists c',
    crypt_buffer (Some c) (Some out) (Some inp) n =
    {| cr_ret := n; cr_ctx := Some c';
       cr_output := Some (zip_with Z.lxor (take (Z.to_nat n) inp) (map (ks_byte K) (seq m (Z.to_nat n)))
                          ++ drop (Z.to_nat n) out) |} /\
    ctx_models K (m + Z.to_nat n) c'.
Proof.
  intros HL Hm Hn Hlen Hok. pose proof (ctx_models_wf K m c HL Hm) as Hwf.
  destruct Hm as (Hk & Hks & Hi).
  rewrite (crypt_buffer_run c (sched_key K m)) by done.
  rewrite Hks, Hi, crypt_loop_decompose by done. rewrite schedule_sched, keystream_sched by done.
  rewrite length_take_le by done.
  eexists. split.
  - rewrite length_zip_with, length_map, length_seq, length_take_le, Nat.min_id by done.
    reflexivity.
  - repeat split; simpl; auto.
Qed.

(** A freshly allocated context represents "key [K], 0 bytes". *)
Lemma fresh_ctx_models (kb : list Z) ks :
  0 < ks < CRYPT_MAX_KEY_LEN -> (Z.to_nat ks <= length kb)%nat -> bytes_ok kb = true ->
  ctx_models (take (Z.to_nat ks) kb) 0
    {| version := crypt_get_version_long; version_string := Some crypt_get_version_string;
       key := Some (take (Z.to_nat ks) kb); key_size := ks; key_state := 0 |}.
Proof.
  intros Hks Hlen Hok.
  assert (bytes_ok (take (Z.to_nat ks) kb) = true) by auto with minicrypt.
  split; [by rewrite sched_key_0|]. rewrite length_take_key by done.
  split; [simpl; lia|]. by rewrite Nat.Div0.mod_0_l.
Qed.

(** C6: the key schedule is a function of the cumulative byte count.
    Feeding any sequence of non-empty spans (each at most 65535 bytes)
    through a context that represents "key [K], [m] bytes" succeeds on
    every call, outputs the concatenated spans XORed with keystream bytes
    [m ..], and leaves a context that represents [m] plus the total
    length: the output does not depend on where the stream is split. *)
Theorem feed_refines K chunks : forall m c,
  (0 < length K < 255)%nat -> ctx_models K m c ->
  Forall (fun ch : list Z => (0 < length ch)%nat /\ Z.of_nat (length ch) <= CRYPT_MAX_BUFFER_SIZE
                           /\ bytes_ok ch = true) chunks ->
  exists c',
    feed (Some c) chunks =
      Some (Some c', zip_with Z.lxor (concat chunks)
                       (map (ks_byte K) (seq m (length (concat chunks))))) /\
    ctx_models K (m + length (concat chunks)) c'.
Proof.
  induction chunks as [|ch chunks IH]; intros m c HL Hm Hch.
  - exists c. simpl. by rewrite Nat.add_0_r.
  - apply Forall_cons in Hch as [(H0 & Hmax & Hok) Hch].
    destruct (crypt_buffer_models K m c (replicate (length ch) 0) ch (Z.of_nat (length ch)))
      as (c1 & Hcall & Hm1); rewrite ?Nat2Z.id, ?take_ge by lia; auto; [lia|].
    cbn [feed]. rewrite Hcall, Z.eqb_refl. cbn [cr_ctx cr_output default].
    rewrite Nat2Z.id, take_ge, drop_ge in * by (rewrite ?length_replicate; lia).
    destruct (IH (m + length ch)%nat c1 HL Hm1 Hch) as (c2 & Hfeed & Hm2).
    rewrite Hfeed. exists c2. split.
    + cbn [concat]. rewrite length_app, seq_app, map_app, zip_with_app
        by (rewrite length_map, length_seq; done).
      by rewrite app_nil_r.
    + cbn [concat]. by rewrite length_app, Nat.add_assoc.
Qed.

(** ** Witnesses *)

Lemma crypt_loop_refines_witness :
  crypt_loop (sched_key [65; 66] 1) (Z.of_nat (length [65; 66])) (Z.of_nat (1 mod length [65; 66]))
             [1; 2; 3] =
  (sched_key [65; 66] (1 + length [1; 2; 3]), Z.of_nat ((1 + length [1; 2; 3]) mod length [65; 66]),
   zip_with Z.lxor [1; 2; 3] (map (ks_byte [65; 66]) (seq 1 (length [1; 2; 3])))).
Proof. apply crypt_loop_refines; [simpl; lia | reflexivity]. Defined.

Lemma feed_refines_witness :
  exists c',
    feed (Some ctx_AB) [[1; 2; 3]; [4]] =
      Some (Some c', zip_with Z.lxor (concat [[1; 2; 3]; [4]])
                       (map (ks_byte [65; 66]) (seq 0 (length (concat [[1; 2; 3]; [4]]))))) /\
    ctx_models [65; 66] (0 + length (concat [[1; 2; 3]; [4]])) c'.
Proof.
  apply (feed_refines [65; 66] [[1; 2; 3]; [4]]); [simpl; lia | repeat split; reflexivity |].
  repeat apply List.Forall_cons; try apply List.Forall_nil;
    (split; [simpl; lia|split; [simpl; crypt_lia|reflexivity]]).
Defined.

