(* ===== verification/Session.v ===== *)
(** * The engine behind its interface, and the lifecycle of a session

    libcryptprov.h (31-46) is the interface between the engine and its
    callers: allocate a context from a key, transform spans through it,
    release it.  [StreamEngine] is that interface as a class, with a
    caller that passes a zero-filled output buffer of the span's size (as
    [mode_input_file] does); [StreamEngineSpec] states what the engine
    promises through it, in terms of the abstract keystream of
    [Keystream]; [minicrypt_engine] is the code, and its [Instance] of
    [StreamEngineSpec] discharges the promises with the theorems of
    [CryptBuffer] and [Keystream].

    A session (specification, section 2) is one allocation, any number of
    transform calls and one release.  [cstep] is the step relation of a
    session over any engine, labelled with what the caller sees;
    [astep] is the abstract session of the specification.  The
    refinement theorem shows, against the interface only, that every run
    of the engine on valid requests is a run of the abstract session; the
    invariant of the code's contexts follows for the instance.  The
    allocations are taken to succeed here ([alloc_succeeds]); their
    failures are the subject of [CryptContext]. *)

From S2P Require Import Prelude CryptContext CryptBuffer Keystream.

(** ** The interface (libcryptprov.h:31-46) *)

Class StreamEngine (St : Type) := {
  (** [crypt_alloc_context(&ctx, key, key_size)]: the code and the context. *)
  eng_alloc : list Z -> Z -> crypt_error * option St;
  (** [crypt_buffer(ctx, out, in, length in)] with a zero-filled [out]:
      the return value, [out] after the call and the context. *)
  eng_crypt : St -> list Z -> Z * list Z * St;
  (** [crypt_free_context(ctx)]: the key bytes as they are freed. *)
  eng_free : St -> option (list Z)
}.

(** The code behind the interface. *)
#[export] Instance minicrypt_engine : StreamEngine crypt_context := {|
  eng_alloc kb ks := crypt_alloc_context true (Some kb) ks alloc_succeeds;
  eng_crypt c inp :=
    let r := crypt_buffer (Some c) (Some (replicate (length inp) 0)) (Some inp)
                          (Z.of_nat (length inp)) in
    (cr_ret r, default [] (cr_output r), default c (cr_ctx r));
  eng_free c := match crypt_free_context (Some c) with Some fb => freed_key fb | None => None end
|}.

(** What the engine promises: a context represents "key [K], [m] bytes
    consumed" ([eng_models]); allocation starts it at 0, a call over a
    span of [1 .. 65535] bytes outputs the span XORed with the keystream
    and moves to [m + length], the two error cases change nothing, and
    release zeroes the key. *)
Class StreamEngineSpec (St : Type) `{!StreamEngine St} := {
  eng_models : list Z -> nat -> St -> Prop;
  eng_alloc_spec kb ks :
    0 < ks < CRYPT_MAX_KEY_LEN -> (Z.to_nat ks <= length kb)%nat -> bytes_ok kb = true ->
    exists st, eng_alloc kb ks = (CRYPT_ERROR_OK, Some st) /\ eng_models (take (Z.to_nat ks) kb) 0 st;
  eng_alloc_large kb ks :
    CRYPT_MAX_KEY_LEN <= ks -> eng_alloc kb ks = (CRYPT_ERROR_PARAMETER, None);
  eng_crypt_spec K m st inp :
    eng_models K m st -> (0 < length inp)%nat -> Z.of_nat (length inp) <= CRYPT_MAX_BUFFER_SIZE ->
    bytes_ok inp = true ->
    exists st', eng_crypt st inp = (Z.of_nat (length inp), ks_xor K m inp, st') /\
                eng_models K (m + length inp) st';
  eng_crypt_empty K m st :
    eng_models K m st -> eng_crypt st [] = (crypt_error_code CRYPT_ERROR_PARAMETER, [], st);
  eng_crypt_large K m st inp :
    eng_models K m st -> CRYPT_MAX_BUFFER_SIZE < Z.of_nat (length inp) ->
    eng_crypt st inp = (crypt_error_code CRYPT_ERROR_NO_MEMORY, replicate (length inp) 0, st);
  eng_free_spec K m st :
    eng_models K m st -> eng_free st = Some (replicate (length K) 0)
}.

(** ** Sessions *)

(** What the caller sees of one operation. *)
Inductive event :=
  | EAlloc (kb : list Z) (ks : Z) (res : crypt_error)
  | ECrypt (inp : list Z) (ret : Z) (outp : list Z)
  | EFree.

(** A request a caller may make: a key of [1 .. 254] bytes or a size the
    code refuses, spans of bytes. *)
Definition caller_ok (e : event) : Prop :=
  match e with
  | EAlloc kb ks _ =>
      (0 < ks < CRYPT_MAX_KEY_LEN /\ (Z.to_nat ks <= length kb)%nat /\ bytes_ok kb = true)
      \/ CRYPT_MAX_KEY_LEN <= ks
  | ECrypt inp _ _ => bytes_ok inp = true
  | EFree => True
  end.

Inductive session (St : Type) := SIdle | SLive (st : St) | SFreed (k : option (list Z)).
Arguments SIdle {St}.
Arguments SLive {St} st.
Arguments SFreed {St} k.

(** The abstract session of the specification: no context yet, a
    context for key [K] after [m] bytes, or a released context whose key
    of [n] bytes was zeroed. *)
Inductive astate := AIdle | ALive (K : list Z) (m : nat) | AFreed (n : nat).

Inductive astep : astate -> event -> astate -> Prop :=
  | as_alloc kb ks :
      0 < ks < CRYPT_MAX_KEY_LEN -> (Z.to_nat ks <= length kb)%nat ->
      astep AIdle (EAlloc kb ks CRYPT_ERROR_OK) (ALive (take (Z.to_nat ks) kb) 0)
  | as_alloc_refused kb ks :
      CRYPT_MAX_KEY_LEN <= ks -> astep AIdle (EAlloc kb ks CRYPT_ERROR_PARAMETER) AIdle
  | as_crypt K m inp :
      (0 < length inp)%nat -> Z.of_nat (length inp) <= CRYPT_MAX_BUFFER_SIZE ->
      astep (ALive K m) (ECrypt inp (Z.of_nat (length inp)) (ks_xor K m inp)) (ALive K (m + length inp))
  | as_crypt_empty K m :
      astep (ALive K m) (ECrypt [] (crypt_error_code CRYPT_ERROR_PARAMETER) []) (ALive K m)
  | as_crypt_large K m inp :
      CRYPT_MAX_BUFFER_SIZE < Z.of_nat (length inp) ->
      astep (ALive K m) (ECrypt inp (crypt_error_code CRYPT_ERROR_NO_MEMORY) (replicate (length inp) 0))
            (ALive K m)
  | as_free K m : astep (ALive K m) EFree (AFreed (length K)).

(** The spans a session served (those of [1 .. 65535] bytes) and what it
    output for them, in order. *)
Definition served (inp : list Z) : bool :=
  bool_decide (0 < length inp)%nat && (Z.of_nat (length inp) <=? CRYPT_MAX_BUFFER_SIZE).

Fixpoint served_in (evs : list event) : list Z :=
  match evs with
  | [] => []
  | ECrypt inp _ _ :: rest => (if served inp then inp else []) ++ served_in rest
  | _ :: rest => served_in rest
  end.

Fixpoint served_out (evs : list event) : list Z :=
  match evs with
  | [] => []
  | ECrypt inp _ outp :: rest => (if served inp then outp else []) ++ served_out rest
  | _ :: rest => served_out rest
  end.

(** Runs of a labelled step relation. *)
Section Runs.
Context {S E : Type} (step : S -> E -> S -> Prop).

Inductive run : S -> list E -> S -> Prop :=
  | run_nil s : run s [] s
  | run_cons s e s' evs s'' : step s e s' -> run s' evs s'' -> run s (e :: evs) s''.
End Runs.

Section Engine.
Context `{StreamEngine St}.

(** The session over the engine: each request is one call. *)
Inductive cstep : session St -> event -> session St -> Prop :=
  | cs_alloc kb ks e st :
      eng_alloc kb ks = (e, Some st) -> cstep SIdle (EAlloc kb ks e) (SLive st)
  | cs_alloc_fail kb ks e :
      eng_alloc kb ks = (e, None) -> cstep SIdle (EAlloc kb ks e) SIdle
  | cs_crypt st inp r outp st' :
      eng_crypt st inp = (r, outp, st') -> cstep (SLive st) (ECrypt inp r outp) (SLive st')
  | cs_free st : cstep (SLive st) EFree (SFreed (eng_free st)).
End Engine.

(** ** The refinement, against the interface *)

Section Refinement.
Context `{StreamEngineSpec St}.

(** The simulation relation between the engine's sessions and the
    abstract ones. *)
Definition sim (s : session St) (a : astate) : Prop :=
  match s, a with
  | SIdle, AIdle => True
  | SLive st, ALive K m => eng_models K m st /\ (0 < length K < 255)%nat
  | SFreed k, AFreed n => k = Some (replicate n 0)
  | _, _ => False
  end.

Lemma sim_step s a e s' :
  sim s a -> caller_ok e -> cstep s e s' -> exists a', astep a e a' /\ sim s' a'.
Proof.
  intros Hsim Hok Hstep. destruct Hstep as [kb ks e st0 Ha|kb ks e Ha|st inp r outp st' Hc|st].
  - destruct a; try contradiction. destruct Hok as [(Hks & Hlen & Hb)|Hks].
    + destruct (eng_alloc_spec kb ks Hks Hlen Hb) as (st & Ha' & Hm).
      rewrite Ha' in Ha. injection Ha as <- <-.
      eexists. split; [by constructor|]. split; [done|].
      rewrite length_take. unfold CRYPT_MAX_KEY_LEN in Hks. lia.
    + by rewrite eng_alloc_large in Ha.
  - destruct a; try contradiction. destruct Hok as [(Hks & Hlen & Hb)|Hks].
    + destruct (eng_alloc_spec kb ks Hks Hlen Hb) as (st & Ha' & _). congruence.
    + rewrite eng_alloc_large in Ha by done. injection Ha as <-.
      eexists. split; [by constructor|done].
  - destruct a as [|K m|]; try contradiction. destruct Hsim as [Hm HL]. simpl in Hok.
    destruct (decide (length inp = 0%nat)) as [L0|L0].
    + destruct inp; [|done]. rewrite (eng_crypt_empty K m st Hm) in Hc.
      injection Hc as <- <- <-. eexists. split; [constructor|done].
    + destruct (Z.le_gt_cases (Z.of_nat (length inp)) CRYPT_MAX_BUFFER_SIZE) as [Hle|Hgt].
      * destruct (eng_crypt_spec K m st inp Hm ltac:(lia) Hle Hok) as (st'' & Hc' & Hm').
        rewrite Hc' in Hc. injection Hc as <- <- <-.
        eexists. split; [constructor; lia|done].
      * rewrite (eng_crypt_large K m st inp Hm Hgt) in Hc. injection Hc as <- <- <-.
        eexists. split; [by constructor|done].
  - destruct a as [|K m|]; try contradiction. destruct Hsim as [Hm _].
    eexists. split; [constructor|]. simpl. by apply (eng_free_spec K m).
Qed.

Lemma sim_run s a evs s' :
  sim s a -> Forall caller_ok evs -> run cstep s evs s' ->
  exists a', run astep a evs a' /\ sim s' a'.
Proof.
  intros Hsim Hok Hrun. revert a Hsim Hok.
  induction Hrun as [s|s e s1 evs s2 Hstep Hrun IH]; intros a Hsim Hok.
  - exists a. split; [constructor|done].
  - apply Forall_cons in Hok as [He Hok].
    destruct (sim_step s a e s1 Hsim He Hstep) as (a1 & Ha1 & Hsim1).
    destruct (IH a1 Hsim1 Hok) as (a2 & Ha2 & Hsim2).
    exists a2. split; [by econstructor|done].
Qed.
End Refinement.

(** The abstract session outputs, over the spans it serves, their
    concatenation XORed with the keystream: the calls that fail do not
    move the stream. *)
Lemma arun_served K m evs a :
  run astep (ALive K m) evs a -> served_out evs = ks_xor K m (served_in evs).
Proof.
  remember (ALive K m) as s eqn:Es. intros Hrun. revert K m Es.
  induction Hrun as [s|s e s1 evs s2 Hstep Hrun IH]; intros K m ->; [done|].
  inversion Hstep; subst; cbn [served_in served_out].
  - unfold served. rewrite bool_decide_true by lia. rewrite (proj2 (Z.leb_le _ _)) by done.
    cbn [andb]. rewrite (IH K (m + length inp)%nat eq_refl), ks_xor_app. done.
  - unfold served. cbn. by apply IH.
  - unfold served. rewrite (proj2 (Z.leb_gt _ _)) by done. rewrite andb_false_r. by apply IH.
  - inversion Hrun; subst; [done|]. match goal with H : astep (AFreed _) _ _ |- _ => inversion H end.
Qed.

(** ** The code meets the interface *)

(** [crypt_buffer] on a span longer than [CRYPT_MAX_BUFFER_SIZE] through
    a well-formed context. *)
Lemma crypt_buffer_over_max c out inp n :
  ctx_wf c -> CRYPT_MAX_BUFFER_SIZE < n ->
  crypt_buffer (Some c) (Some out) (Some inp) n =
  {| cr_ret := crypt_error_code CRYPT_ERROR_NO_MEMORY; cr_ctx := Some c; cr_output := Some out |}.
Proof.
  intros (k & Hk & _ & Hks & _) Hn. unfold crypt_buffer. rewrite Hk.
  rewrite (proj2 (Z.eqb_neq n 0)), (proj2 (Z.eqb_neq (key_size c) 0)) by crypt_lia.
  by rewrite (proj2 (Z.ltb_lt _ _)) by done.
Qed.

#[export] Instance minicrypt_engine_spec : StreamEngineSpec crypt_context.
Proof.
  refine {| eng_models K m c := ctx_models K m c /\ (0 < length K < 255)%nat |}.
  - intros kb ks Hks Hlen Hb. cbn [eng_alloc eng_crypt eng_free minicrypt_engine]. rewrite crypt_alloc_context_success by lia.
    eexists. split; [reflexivity|]. split; [by apply fresh_ctx_models|].
    rewrite length_take. unfold CRYPT_MAX_KEY_LEN in Hks. lia.
  - intros kb ks Hks. cbn [eng_alloc eng_crypt eng_free minicrypt_engine]. unfold crypt_alloc_context. cbn [negb orb].
    by rewrite (proj2 (Z.leb_le _ _)) by done.
  - intros K m c inp [Hm HL] H0 Hmax Hb. cbn [eng_alloc eng_crypt eng_free minicrypt_engine].
    destruct (crypt_buffer_models K m c (replicate (length inp) 0) inp (Z.of_nat (length inp)))
      as (c' & Hcall & Hm');
      [done | done | crypt_lia | rewrite Nat2Z.id; lia | rewrite Nat2Z.id, take_ge by lia; done |].
    rewrite Hcall. rewrite Nat2Z.id, take_ge in * by lia.
    exists c'. split; [|done]. cbn [cr_ret cr_output cr_ctx default from_option id].
    rewrite drop_ge by (rewrite length_replicate; lia). by rewrite app_nil_r.
  - intros K m c [Hm HL]. cbn [eng_alloc eng_crypt eng_free minicrypt_engine]. by rewrite crypt_buffer_inputLen_0.
  - intros K m c inp [Hm HL] Hgt. cbn [eng_alloc eng_crypt eng_free minicrypt_engine].
    by rewrite crypt_buffer_over_max by (done || by apply (ctx_models_wf K m)).
  - intros K m c [Hm HL]. cbn [eng_free minicrypt_engine]. by rewrite (crypt_free_context_models K m c Hm).
Defined.

(** ** Theorems *)

(** C32: the sessions of the minicrypt engine refine the abstract
    session of the specification.  For requests a caller may make, every
    run of the code's step relation from "no context" is a run of the
    abstract session with the same observations (return values and
    output bytes), and the final states correspond. *)
Theorem minicrypt_session_refines evs (s : session crypt_context) :
  run cstep SIdle evs s -> Forall caller_ok evs ->
  exists a, run astep AIdle evs a /\ sim s a.
Proof. intros Hrun Hok. by apply (sim_run SIdle AIdle evs s). Qed.

(** C33: every context reachable in a session of the minicrypt engine,
    through any sequence of valid requests (failed calls included), is
    well-formed: the key is set, [key_size] is in [1 .. 254], the cursor
    indexes the key and the key holds bytes. *)
Theorem minicrypt_session_wf evs c :
  run cstep SIdle evs (SLive c) -> Forall caller_ok evs -> ctx_wf c.
Proof.
  intros Hrun Hok. destruct (sim_run SIdle AIdle evs (SLive c) I Hok Hrun) as (a & _ & Hs).
  destruct a as [|K m|]; try contradiction. destruct Hs as [[Hm HL] _].
  by apply (ctx_models_wf K m).
Qed.

(** C34: in a session of the minicrypt engine that allocated the key
    [kb] of [ks] bytes, the bytes output for the served spans are the
    served spans, concatenated, XORed with the keystream of
    [take ks kb]: the failed calls in between do not disturb the stream. *)
Theorem minicrypt_session_stream kb ks evs (s : session crypt_context) :
  run cstep SIdle (EAlloc kb ks CRYPT_ERROR_OK :: evs) s ->
  Forall caller_ok (EAlloc kb ks CRYPT_ERROR_OK :: evs) ->
  served_out evs = ks_xor (take (Z.to_nat ks) kb) 0 (served_in evs).
Proof.
  intros Hrun Hok. destruct (sim_run SIdle AIdle _ s I Hok Hrun) as (a & Ha & _).
  inversion Ha as [|s0 e a1 evs' a2 Hstep Hrest]; subst.
  inversion Hstep; subst. by apply (arun_served _ _ _ a).
Qed.

(** ** Witnesses *)

Abbreviation demo_out := (eng_crypt ctx_AB [1; 2; 3]).
Abbreviation demo_evs :=
  [EAlloc [65; 66] 2 CRYPT_ERROR_OK; ECrypt [1; 2; 3] demo_out.1.1 demo_out.1.2;
   ECrypt [] 2 []; EFree].
Abbreviation demo_final := (SFreed (eng_free demo_out.2)).

Ltac demo_run :=
  repeat (eapply run_cons; [first [eapply cs_alloc | eapply cs_crypt | eapply cs_free]; reflexivity|]);
  apply run_nil.

Ltac demo_ok :=
  repeat apply List.Forall_cons; try apply List.Forall_nil; cbn [caller_ok];
  try (left; split; [crypt_lia | split; [simpl; lia | reflexivity]]); try reflexivity; try exact I.

Lemma minicrypt_session_refines_witness :
  exists a, run astep AIdle demo_evs a /\ sim demo_final a.
Proof. apply minicrypt_session_refines; [demo_run | demo_ok]. Defined.

Lemma minicrypt_session_wf_witness :
  ctx_wf demo_out.2.
Proof.
  apply (minicrypt_session_wf [EAlloc [65; 66] 2 CRYPT_ERROR_OK; ECrypt [1; 2; 3] demo_out.1.1 demo_out.1.2]);
    [demo_run | demo_ok].
Defined.

Lemma minicrypt_session_stream_witness :
  served_out (tail demo_evs) = ks_xor (take (Z.to_nat 2) [65; 66]) 0 (served_in (tail demo_evs)).
Proof. apply (minicrypt_session_stream _ _ _ demo_final); [demo_run | demo_ok]. Defined.
