(* ===== verification/Util.v ===== *)
(** * The I/O helpers of util.c

    The functions take and return the environment [world] of [World]:
    the file system, the bytes still to be read on stdin, the stdout
    trace, on which their [DEBUG_INFO] and [DEBUG_ERR] lines appear, and
    the heap trace, on which the buffers of [read_file_into_memory] and
    [get_stdin_user] are allocated (and the latter's freed).  C
    strings are lists of bytes; a [char *] argument is the memory it
    points to, the string's bytes followed by its NUL ([cstr_mem]).

    Modelled: [strnlen] (util.c:95-108), [is_path_valid] (32-45),
    [read_file_into_memory] (47-92), [write_to_file] (144-159),
    [read_from_stdin] (161-187) and [get_stdin_user] (110-142).  [fgetc]
    and [getc] return a byte (0 .. 255) or [EOF] (-1); the code stores the
    result in an [int8_t] or a [char], written out as [s8].  I/O errors
    ([ferror]) and failures of [fopen] for writing are not modelled. *)

From stdpp Require Import gmap.
From S2P Require Import Prelude World.

(** ** Constants (util.h) *)

Definition MAX_FILE_BUF_SIZE : Z := 65535.
Definition MAX_FILE_PATH : Z := 255.
Definition EOF : Z := -1.

(** Storing an [int] into an [int8_t] or a (signed) [char]. *)
Definition s8 (z : Z) : Z := if 128 <=? u8 z then u8 z - 256 else u8 z.

(** ** [strnlen] (util.c:95-108) *)

Fixpoint strnlen_loop (s : list Z) (i n : Z) : Z :=
  match s with
  | [] => i
  | ch :: rest => if (i <? n) && negb (ch =? 0) then strnlen_loop rest (i + 1) n else i
  end.

Definition strnlen (s : option (list Z)) (n : Z) : Z :=
  match s with
  | None => 0
  | Some m => strnlen_loop m 0 n
  end.

(** ** [is_path_valid] (util.c:32-45)

    [stat] succeeds when the path names a file of the file system. *)
Definition is_path_valid (fs : gmap (list Z) (list Z)) (p : option (list Z)) : bool :=
  match p with
  | None => false
  | Some s =>
      match s with
      | [] => false                                   (* p[0] == '\0' *)
      | c :: _ =>
          if (c =? 45) || (MAX_FILE_PATH <=? strnlen (Some (cstr_mem s)) MAX_FILE_PATH)
          then false
          else bool_decide (is_Some (fs !! s))
      end
  end.

(** ** [read_file_into_memory] (util.c:47-92)

    Returns the [uint32_t] result, what is stored through [out] and the
    environment after the call.  [ftell] gives the file size as a [long];
    the code stores it in a [uint32_t].  [malloc_ok] is the outcome of
    the allocation.  [fread] reads [file_size] bytes, which the file
    always holds ([file_size] is at most its length), so the short-read
    branch (util.c:79-84) is not reachable here. *)
Definition READ_OK_MSG : string := "read_file: Successfully read file %s size: %d".

Definition read_file_into_memory (path : option (list Z)) (malloc_ok : bool) (w : world)
    : Z * option (list Z) * world :=
  match path with
  | None => (0, None, w)
  | Some p =>
      match w_fs w !! p with
      | None => (0, None, DEBUG_ERR "read_file: Failed to open file: %s" [LPtr (cstr_mem p)] w)
      | Some contents =>
          let file_size := u32 (Z.of_nat (length contents)) in
          if MAX_FILE_BUF_SIZE <=? file_size then
            (0, None, DEBUG_ERR "read_file: File exceeds max size: %d" [LInt file_size] w)
          else if negb malloc_ok then
            (0, None, DEBUG_ERR "read_file: Failed to allocate memory (size: %d)" [LInt file_size] w)
          else
            (file_size, Some (take (Z.to_nat file_size) contents),
             DEBUG_INFO READ_OK_MSG [LPtr (cstr_mem p); LInt file_size] (heap_alloc SFileBuf w))
      end
  end.

(** ** [write_to_file] (util.c:144-159)

    Opens the file in append mode (creating it) and writes [buf_size]
    bytes of [buf]. *)
Definition write_to_file (fs : gmap (list Z) (list Z)) (filename : option (list Z))
    (buf : option (list Z)) (buf_size : Z) : Z * gmap (list Z) (list Z) :=
  match filename, buf with
  | Some f, Some b =>
      if buf_size =? 0 then (0, fs)
      else (buf_size, <[f := default [] (fs !! f) ++ take (Z.to_nat buf_size) b]> fs)
  | _, _ => (0, fs)
  end.

(** ** [read_from_stdin] (util.c:161-187) *)

(** One [fgetc] per iteration; [ch] is an [int8_t], so a 0xFF byte
    compares equal to [EOF].  The result is the bytes stored into [buf],
    what is left on stdin, and whether the loop stopped on [EOF] (rather
    than on a full buffer). *)
Fixpoint read_from_stdin_loop (fuel : nat) (stdin : list Z) : list Z * list Z * bool :=
  match fuel with
  | O => ([], stdin, false)
  | S f =>
      match stdin with
      | [] => ([], [], true)
      | b :: rest =>
          let ch := s8 b in
          if ch =? EOF then ([], rest, true)
          else let '(bs, r, eof) := read_from_stdin_loop f rest in (u8 ch :: bs, r, eof)
      end
  end.

Definition EOF_MSG : string := "read_from_stdin: Received EOF".
Definition log_eof : world -> world := DEBUG_INFO EOF_MSG [].

(** Returns the count, the buffer after the call and the environment. *)
Definition read_from_stdin (buf : option (list Z)) (buf_max_size : Z) (w : world)
    : Z * option (list Z) * world :=
  match buf with
  | Some b =>
      if buf_max_size =? 0 then (0, buf, w)
      else
        let '(bs, rest, eof) := read_from_stdin_loop (Z.to_nat buf_max_size) (w_stdin w) in
        let w1 := set_stdin w rest in
        (Z.of_nat (length bs), Some (bs ++ drop (length bs) b), if eof then log_eof w1 else w1)
  | None => (0, buf, w)
  end.

(** ** [get_stdin_user] (util.c:110-142)

    [off] is [buf_ptr - buf].  The loop stores each character at
    [buf_ptr] and checks [buf_ptr - buf] against [max_size], but nothing
    in the loop advances [buf_ptr].  One iteration per character of
    stdin.  The result is the buffer, the value stored into [*out_size]
    and the rest of stdin; the buffer is [inl] when it is returned and
    [inr] when the size check sends it to [free]. *)
Fixpoint get_stdin_user_loop (stdin : list Z) (buf : list Z) (off : nat) (max_size : Z)
    : (list Z + list Z) * Z * list Z :=
  match stdin with
  | [] => (inl (<[off := 0]> buf), Z.of_nat off, [])
  | b :: rest =>
      let c := s8 b in
      if (c =? EOF) || (c =? 10) then (inl (<[off := 0]> buf), Z.of_nat off, rest)
      else
        let buf' := <[off := u8 c]> buf in
        if max_size <=? Z.of_nat off then (inr buf', 0, rest)
        else get_stdin_user_loop rest buf' off max_size
  end.

(** [calloc_ok] is the outcome of the allocation; [*out_size] is set to 0
    before it.  The result is the returned buffer ([None]: NULL),
    [*out_size] and the environment. *)
Definition get_stdin_user (max_size : Z) (calloc_ok : bool) (w : world)
    : option (list Z) * Z * world :=
  if negb calloc_ok then (None, 0, w)
  else
    let w0 := heap_alloc SStdinBuf w in
    let '(r, out_size, rest) :=
      get_stdin_user_loop (w_stdin w0) (replicate (Z.to_nat max_size) 0) 0 max_size in
    let w1 := set_stdin w0 rest in
    match r with
    | inl b => (Some b, out_size, w1)
    | inr b =>
        (None, out_size,
         heap_free (Some b) (DEBUG_ERR "get_stdin_user: max buffersize reached" [] w1))
    end.

(** What is left on stdin after a line: everything after the first byte
    that reads as [EOF] (0xFF) or ['\n'] (10) through the [char]. *)
Fixpoint after_line (stdin : list Z) : list Z :=
  match stdin with
  | [] => []
  | b :: rest => if (u8 b =? 255) || (u8 b =? 10) then rest else after_line rest
  end.

(** ** Lemmas *)

(** A byte read back through an [int8_t]: the value is restored by the
    [uint8_t] store, and it equals [EOF] exactly for 0xFF. *)
Lemma s8_byte b : 0 <= b < 256 -> u8 (s8 b) = b /\ (s8 b = EOF <-> b = 255).
Proof.
  intros Hb. unfold s8, EOF. rewrite (u8_small b) by lia.
  destruct (Z.leb_spec 128 b).
  - split; [|lia]. unfold u8. rewrite <-(Z.mod_add _ 1 256) by lia.
    rewrite Z.mod_small; lia.
  - split; [by apply u8_small|lia].
Qed.

Lemma strnlen_loop_cstr s i n :
  Forall (fun c => c <> 0) s -> i <= n ->
  strnlen_loop (cstr_mem s) i n = Z.min n (i + Z.of_nat (length s)).
Proof.
  unfold cstr_mem. revert i. induction s as [|c s IH]; intros i Hs Hi; simpl.
  - rewrite andb_false_r. lia.
  - apply Forall_cons in Hs as [Hc Hs].
    destruct (Z.ltb_spec i n); destruct (Z.eqb_spec c 0); simpl; try contradiction.
    + rewrite IH by (auto; lia). lia.
    + lia.
Qed.

Definition no_ff (l : list Z) : Prop := Forall (fun b => 0 <= b < 255) l.

Lemma read_from_stdin_loop_no_ff fuel stdin :
  no_ff stdin ->
  read_from_stdin_loop fuel stdin =
  (take fuel stdin, drop fuel stdin, bool_decide (length stdin < fuel)%nat).
Proof.
  revert stdin. induction fuel as [|f IH]; intros [|b rest] H; simpl;
    try (rewrite ?bool_decide_false, ?bool_decide_true by (simpl; lia); done).
  apply Forall_cons in H as [Hb H]. destruct (s8_byte b ltac:(lia)) as [Hu Heof].
  destruct (Z.eqb_spec (s8 b) EOF) as [E|E]; [apply Heof in E; lia|].
  rewrite IH by done. rewrite Hu. repeat f_equal. apply bool_decide_ext. lia.
Qed.

(** The loop stores at most [fuel] bytes and consumes at least as many
    bytes as it stores. *)
Lemma read_from_stdin_loop_length fuel stdin bs rest eof :
  read_from_stdin_loop fuel stdin = (bs, rest, eof) ->
  (length bs <= fuel)%nat /\ (length bs + length rest <= length stdin)%nat.
Proof.
  revert stdin bs rest. induction fuel as [|f IH]; intros [|b stdin] bs rest E;
    simpl in E; try (injection E as <- <- <-; simpl; lia).
  destruct (s8 b =? EOF); [injection E as <- <- <-; simpl; lia|].
  destruct (read_from_stdin_loop f stdin) as [[bs' r'] e'] eqn:E'. injection E as <- <- <-.
  apply IH in E'. simpl. lia.
Qed.

Lemma read_from_stdin_loop_ff fuel pre post :
  no_ff pre -> (length pre < fuel)%nat ->
  read_from_stdin_loop fuel (pre ++ 255 :: post) = (pre, post, true).
Proof.
  revert fuel. induction pre as [|b pre IH]; intros [|f] H Hlen; simpl in *; try lia.
  - done.
  - apply Forall_cons in H as [Hb H]. destruct (s8_byte b ltac:(lia)) as [Hu Heof].
    destruct (Z.eqb_spec (s8 b) EOF) as [E|E]; [apply Heof in E; lia|].
    rewrite IH by (auto; lia). by rewrite Hu.
Qed.

Lemma insert_head {A} (x : A) (buf : list A) :
  (0 < length buf)%nat -> <[0%nat := x]> buf = x :: drop 1 buf.
Proof. destruct buf; simpl; [lia|done]. Qed.

(** The loop ends with [buf[0] = 0] over an untouched tail, whatever it
    read, and reports the offset 0. *)
(** A character read into a [char] ends the line exactly when its byte
    is 0xFF or 10. *)
Lemma s8_line_end b : (s8 b =? EOF) || (s8 b =? 10) = (u8 b =? 255) || (u8 b =? 10).
Proof.
  unfold s8, EOF. pose proof (u8_range b).
  destruct (Z.leb_spec 128 (u8 b));
    destruct (Z.eqb_spec (u8 b) 255), (Z.eqb_spec (u8 b) 10); simpl;
    repeat match goal with |- context [?x =? ?y] => destruct (Z.eqb_spec x y) end; lia.
Qed.

Lemma get_stdin_user_loop_result stdin buf ms :
  0 < ms -> (0 < length buf)%nat ->
  get_stdin_user_loop stdin buf 0 ms = (inl (0 :: drop 1 buf), 0, after_line stdin).
Proof.
  intros Hms. revert buf. induction stdin as [|b stdin IH]; intros buf Hbuf; simpl.
  - by rewrite insert_head by done.
  - rewrite s8_line_end. case_match; [by rewrite insert_head by done|].
    replace (ms <=? Z.of_nat 0) with false by (symmetry; apply Z.leb_gt; lia).
    rewrite IH by (by rewrite length_insert). rewrite insert_head by done. simpl. by rewrite drop_0.
Qed.

(** ** Theorems *)

(** C13: [strnlen] on a C string returns the length of the string, capped
    at [n]. *)
Theorem strnlen_cstr s n :
  Forall (fun c => c <> 0) s -> 0 <= n ->
  strnlen (Some (cstr_mem s)) n = Z.min n (Z.of_nat (length s)).
Proof. intros Hs Hn. simpl. rewrite strnlen_loop_cstr by done. lia. Qed.

(** C14: a path is valid exactly when it is non-empty, does not start
    with '-', is shorter than [MAX_FILE_PATH] = 255 bytes and names a file. *)
Theorem is_path_valid_spec fs s :
  Forall (fun c => c <> 0) s ->
  is_path_valid fs (Some s) = true <->
  (exists c rest, s = c :: rest /\ c <> 45) /\ (length s < 255)%nat /\ is_Some (fs !! s).
Proof.
  intros Hs. unfold is_path_valid. destruct s as [|c rest].
  - split; [discriminate|]. intros [(? & ? & ? & _) _]. discriminate.
  - unfold strnlen. rewrite strnlen_loop_cstr by (done || unfold MAX_FILE_PATH; lia).
    unfold MAX_FILE_PATH. destruct (Z.eqb_spec c 45); simpl.
    + split; [discriminate|]. intros [(c' & r' & [= <- <-] & ?) _]. contradiction.
    + destruct (Z.leb_spec 255 (Z.min 255 (0 + Z.of_nat (S (length rest))))).
      * split; [discriminate|]. intros [_ [? _]]. lia.
      * rewrite bool_decide_eq_true. split.
        -- intros Hf. split; [eauto|]. split; [lia|done].
        -- intros (_ & _ & Hf). done.
Qed.

(** Reading an existing file shorter than [MAX_FILE_BUF_SIZE] = 65535
    bytes returns its size and its contents, and logs the success. *)
Lemma read_file_into_memory_fits w p contents :
  w_fs w !! p = Some contents -> Z.of_nat (length contents) < MAX_FILE_BUF_SIZE ->
  read_file_into_memory (Some p) true w =
  (Z.of_nat (length contents), Some contents,
   DEBUG_INFO READ_OK_MSG [LPtr (cstr_mem p); LInt (Z.of_nat (length contents))]
     (heap_alloc SFileBuf w)).
Proof.
  intros Hp Hlen. unfold read_file_into_memory. rewrite Hp.
  unfold u32, MAX_FILE_BUF_SIZE in *. rewrite Z.mod_small by lia.
  destruct (Z.leb_spec 65535 (Z.of_nat (length contents))); [lia|].
  simpl. by rewrite Nat2Z.id, take_ge by lia.
Qed.

(** C15: a file of [MAX_FILE_BUF_SIZE] = 65535 bytes or more (and below
    2^32) is refused: the size is 0, no buffer is returned, and the
    error is logged with the size. *)
Theorem read_file_into_memory_too_large w p contents :
  w_fs w !! p = Some contents -> MAX_FILE_BUF_SIZE <= Z.of_nat (length contents) < 2 ^ 32 ->
  read_file_into_memory (Some p) true w =
  (0, None, DEBUG_ERR "read_file: File exceeds max size: %d" [LInt (Z.of_nat (length contents))] w).
Proof.
  intros Hp Hlen. unfold read_file_into_memory. rewrite Hp.
  unfold u32. rewrite Z.mod_small by lia. by rewrite (proj2 (Z.leb_le _ _)) by lia.
Qed.

(** C16: the file size from [ftell] is stored in a [uint32_t]: a file of
    2^32 + 5 bytes passes the size check and only its first 5 bytes are
    read, reported as the whole file. *)
Theorem read_file_into_memory_size_wraps p i o h :
  read_file_into_memory (Some p) true (mk_world {[p := replicate (Z.to_nat (2 ^ 32 + 5)) 0]} i o h) =
  (5, Some (replicate 5 0),
   DEBUG_INFO READ_OK_MSG [LPtr (cstr_mem p); LInt 5]
     (mk_world {[p := replicate (Z.to_nat (2 ^ 32 + 5)) 0]} i o (h ++ [HAlloc SFileBuf]))).
Proof.
  unfold read_file_into_memory. cbn [w_fs]. rewrite lookup_singleton_eq.
  rewrite length_replicate, Z2Nat.id by lia.
  change (u32 (2 ^ 32 + 5)) with 5. change (MAX_FILE_BUF_SIZE <=? 5) with false. cbn [negb].
  rewrite take_replicate, Nat.min_l by lia. reflexivity.
Qed.

(** C17: without 0xFF bytes on stdin, [read_from_stdin] reads
    [min(n, available)] bytes into the front of the buffer, leaves the
    rest of stdin, and logs [EOF] exactly when stdin ran out before the
    buffer was full. *)
Theorem read_from_stdin_ok buf n w :
  0 < n -> no_ff (w_stdin w) ->
  read_from_stdin (Some buf) n w =
  (Z.of_nat (length (take (Z.to_nat n) (w_stdin w))),
   Some (take (Z.to_nat n) (w_stdin w) ++ drop (length (take (Z.to_nat n) (w_stdin w))) buf),
   let w1 := set_stdin w (drop (Z.to_nat n) (w_stdin w)) in
   if bool_decide (length (w_stdin w) < Z.to_nat n)%nat then log_eof w1 else w1).
Proof.
  intros Hn H. unfold read_from_stdin. destruct (Z.eqb_spec n 0); [lia|].
  by rewrite read_from_stdin_loop_no_ff.
Qed.

(** C18: a 0xFF byte on stdin reads as [EOF] through the [int8_t]: the
    call stops before it, the byte is consumed and lost, and the short
    count tells the caller that the stream has ended. *)
Theorem read_from_stdin_ff_truncates buf n w pre post :
  w_stdin w = pre ++ 255 :: post -> no_ff pre -> Z.of_nat (length pre) < n ->
  read_from_stdin (Some buf) n w =
  (Z.of_nat (length pre), Some (pre ++ drop (length pre) buf), log_eof (set_stdin w post)).
Proof.
  intros Hw H Hlen. unfold read_from_stdin. destruct (Z.eqb_spec n 0); [lia|].
  by rewrite Hw, read_from_stdin_loop_ff by (done || lia).
Qed.

(** C19: [get_stdin_user] never advances [buf_ptr]: whatever is typed,
    it returns a buffer of zeros and stores 0 into [*out_size], so a key
    entered on stdin is always the empty key; it consumes stdin up to and
    including the end of the line. *)
Theorem get_stdin_user_discards_key w ms :
  0 < ms ->
  get_stdin_user ms true w =
  (Some (replicate (Z.to_nat ms) 0), 0, set_stdin (heap_alloc SStdinBuf w) (after_line (w_stdin w))).
Proof.
  intros Hms. unfold get_stdin_user. simpl.
  rewrite get_stdin_user_loop_result by (done || rewrite length_replicate; lia). do 3 f_equal.
  destruct (Z.to_nat ms) as [|m] eqn:E; [lia|]. simpl. by rewrite drop_0.
Qed.

(** ** Witnesses *)

Lemma strnlen_cstr_witness : strnlen (Some (cstr_mem [97; 98; 99])) 2 = Z.min 2 (Z.of_nat (length [97; 98; 99])).
Proof. apply strnlen_cstr; [repeat constructor; lia | lia]. Defined.

Lemma is_path_valid_spec_witness :
  is_path_valid {[ [102] := [1; 2] ]} (Some [102]) = true <->
  (exists c rest, [102] = c :: rest /\ c <> 45) /\ (length [102] < 255)%nat /\
  is_Some (({[ [102] := [1; 2] ]} : gmap (list Z) (list Z)) !! [102]).
Proof. apply is_path_valid_spec. repeat constructor; lia. Defined.

Abbreviation world_big := (mk_world {[ [102] := replicate (Z.to_nat 65535) 0 ]} [] [] []).

Lemma read_file_into_memory_too_large_witness :
  read_file_into_memory (Some [102]) true world_big =
  (0, None, DEBUG_ERR "read_file: File exceeds max size: %d"
              [LInt (Z.of_nat (length (replicate (Z.to_nat 65535) 0)))] world_big).
Proof.
  apply (read_file_into_memory_too_large _ _ (replicate (Z.to_nat 65535) 0));
    [apply lookup_singleton_eq | rewrite length_replicate, Z2Nat.id; unfold MAX_FILE_BUF_SIZE; lia].
Defined.

Abbreviation world_567 := (mk_world ∅ [5; 6; 7] [] []).

Lemma read_from_stdin_ok_witness :
  read_from_stdin (Some [0; 0; 0]) 2 world_567 =
  (Z.of_nat (length (take (Z.to_nat 2) (w_stdin world_567))),
   Some (take (Z.to_nat 2) (w_stdin world_567)
         ++ drop (length (take (Z.to_nat 2) (w_stdin world_567))) [0; 0; 0]),
   let w1 := set_stdin world_567 (drop (Z.to_nat 2) (w_stdin world_567)) in
   if bool_decide (length (w_stdin world_567) < Z.to_nat 2)%nat then log_eof w1 else w1).
Proof. apply read_from_stdin_ok; [lia | repeat constructor; lia]. Defined.

Lemma read_from_stdin_ff_truncates_witness :
  read_from_stdin (Some [0; 0; 0; 0]) 4 (mk_world ∅ [5; 6; 255; 7] [] []) =
  (Z.of_nat (length [5; 6]), Some ([5; 6] ++ drop (length [5; 6]) [0; 0; 0; 0]),
   log_eof (set_stdin (mk_world ∅ [5; 6; 255; 7] [] []) [7])).
Proof. apply read_from_stdin_ff_truncates; [reflexivity | repeat constructor; lia | simpl; lia]. Defined.

Lemma get_stdin_user_discards_key_witness :
  get_stdin_user 255 true (mk_world ∅ [107; 101; 121; 10; 9] [] []) =
  (Some (replicate (Z.to_nat 255) 0), 0,
   set_stdin (heap_alloc SStdinBuf (mk_world ∅ [107; 101; 121; 10; 9] [] []))
     (after_line (w_stdin (mk_world ∅ [107; 101; 121; 10; 9] [] [])))).
Proof. apply get_stdin_user_discards_key. lia. Defined.
