(* ===== verification/CryptMain.v ===== *)
(** * The command line of minicrypt (cryptmain.c)

    [struct crypt_params] and the functions of cryptmain.c that move bytes:
    [write_output_buffer] (154-177), [mode_input_file] (91-118) and
    [mode_input_stdin] (120-152) and [print_cli_params] (179-198), with
    the environment [world] of [World] threaded through: the ciphertext
    and the log lines of [DEBUG_INFO] and [DEBUG_ERR] reach the same
    stdout trace, and the output buffer of [mode_input_file] is on the
    heap trace.  The stdin loop runs once per 16-byte chunk; it is a
    [Fixpoint] with fuel, and the theorems show that [S (length stdin / 16)]
    rounds are enough for it to return.

    [mode_input_stdin] calls [crypt_buffer(ctx, stdin_buf, stdin_buf, n)]
    with input and output the same buffer: the loop of libcryptprov.c reads
    [input[pos]] before it writes [output[pos]] and never reads a position it
    has written, so passing the same list as input and output is the
    in-place call. *)

From stdpp Require Import gmap.
From S2P Require Import Prelude World CryptContext CryptBuffer Keystream Util.

(** ** Parameters (cryptmain.h) *)

Definition CRYPT_STDIN_BUF_SIZE : Z := 16.

(** [struct crypt_params]; the fields [key] and [key_size] are named
    [prm_key] and [prm_key_size] to keep them apart from the fields of
    [crypt_context].  Paths are the bytes of the C string. *)
Record crypt_params := mk_crypt_params {
  prm_key : option (list Z);
  prm_key_size : Z;
  input_buffer : option (list Z);
  input_buffer_size : Z;
  output_buffer_path : option (list Z)
}.

(** ** [write_output_buffer] (cryptmain.c:154-177) *)
Definition write_output_buffer (params : option crypt_params) (buf : option (list Z))
    (buf_size : Z) (w : world) : Z * world :=
  match params, buf with
  | Some p, Some b =>
      if buf_size =? 0 then (0, w)
      else
        match output_buffer_path p with
        | Some path =>
            let '(bytes_written, fs') := write_to_file (w_fs w) (Some path) (Some b) buf_size in
            let w' := set_fs w fs' in
            if negb (bytes_written =? buf_size) then
              (bytes_written, DEBUG_ERR "Failed to write file: %d written (%d expected)"
                                [LInt bytes_written; LInt buf_size] w')
            else
              (buf_size, DEBUG_INFO "Written output to file %s (size: %d)"
                           [LPtr (cstr_mem path); LInt buf_size] w')
        | None => (buf_size, put_bytes (take (Z.to_nat buf_size) b) w)
        end
  | _, _ => (0, w)
  end.

(** ** [mode_input_file] (cryptmain.c:91-118)

    One [crypt_buffer] call over the whole input into a zero-filled
    buffer from [calloc] ([calloc_ok] is its outcome), freed after the
    write; when [crypt_buffer] fails the function returns without freeing
    it.  The result is the return value, the context and the
    environment. *)
Definition mode_input_file (ctx : option crypt_context) (params : option crypt_params)
    (calloc_ok : bool) (w : world) : Z * option crypt_context * world :=
  match ctx, params with
  | Some _, Some p =>
      match input_buffer p with
      | None => (-1, ctx, w)
      | Some inb =>
          if negb calloc_ok then (-1, ctx, DEBUG_ERR "mode_input_file: out of memory" [] w)
          else
            let w0 := heap_alloc SOutBuf w in
            let out_buf := replicate (Z.to_nat (input_buffer_size p)) 0 in
            let r := crypt_buffer ctx (Some out_buf) (Some inb) (input_buffer_size p) in
            if negb (cr_ret r =? input_buffer_size p) then (cr_ret r, cr_ctx r, w0)
            else
              let '(res, w') := write_output_buffer params (cr_output r) (input_buffer_size p) w0 in
              let freed := Some (default out_buf (cr_output r)) in
              if negb (res =? input_buffer_size p) then
                (res, cr_ctx r,
                 heap_free freed
                   (DEBUG_ERR "mode_input_file: failed to write file to: %s"
                      [LPtr (cstr_mem (default (str_bytes "stdout") (output_buffer_path p)))] w'))
              else (0, cr_ctx r, heap_free freed w')
      end
  | _, _ => (-1, ctx, w)
  end.

(** ** [mode_input_stdin] (cryptmain.c:120-152) *)

(** The [for (;;)] loop: clear the buffer, read up to 16 bytes, transform
    them in place, write them, stop after a short read.  The write's
    failure is only logged.  The result is the context, [total_read] and
    the environment; [None]: the fuel ran out. *)
Fixpoint stdin_loop (fuel : nat) (ctx : option crypt_context) (params : option crypt_params)
    (total_read : Z) (w : world) : option (option crypt_context * Z * world) :=
  match fuel with
  | O => None
  | S f =>
      let stdin_buf := replicate (Z.to_nat CRYPT_STDIN_BUF_SIZE) 0 in
      let '(n, buf, w1) := read_from_stdin (Some stdin_buf) CRYPT_STDIN_BUF_SIZE w in
      let total_read' := u32 (total_read + n) in
      let r := crypt_buffer ctx buf buf n in
      let '(res, w2) := write_output_buffer params (cr_output r) n w1 in
      let w' := if negb (res =? n) then DEBUG_ERR "Failed to write to stream: 0x%08x" [LInt res] w2
                else w2 in
      if n <? CRYPT_STDIN_BUF_SIZE then Some (cr_ctx r, total_read', w')
      else stdin_loop f (cr_ctx r) params total_read' w'
  end.

Definition mode_input_stdin (ctx : option crypt_context) (params : option crypt_params)
    (fuel : nat) (w : world) : option (Z * option crypt_context * world) :=
  match ctx, params with
  | Some _, Some _ =>
      match stdin_loop fuel ctx params 0 w with
      | Some (c', total, w') =>
          Some (0, c', DEBUG_INFO "mode_input_stdin: total read: %d" [LInt total] w')
      | None => None
      end
  | _, _ => Some (-1, ctx, w)
  end.

(** ** [print_cli_params] (cryptmain.c:179-198)

    [%s] of [p->key] and of [p->input_buffer] is passed the buffers
    themselves: the key and the whole input are printed to stdout, and
    neither buffer holds a NUL of its own ([-k] and [-f] keys and input
    files are copied without one). *)
Definition print_cli_params (params : option crypt_params) (w : world) : world :=
  match params with
  | None => w
  | Some p =>
      let w1 := DEBUG_INFO "key: %s (size: %d)" [LPtr (default [] (prm_key p)); LInt (prm_key_size p)] w in
      let w2 :=
        match input_buffer p with
        | Some b => DEBUG_INFO "input_buf: %s (size: %d)" [LPtr b; LInt (input_buffer_size p)] w1
        | None => DEBUG_INFO "input_buf: stdin" [] w1
        end in
      match output_buffer_path p with
      | Some path => DEBUG_INFO "output_buf_path: %s" [LPtr (cstr_mem path)] w2
      | None => DEBUG_INFO "output_buf_path: stdout" [] w2
      end
  end.

(** What stdin mode writes to stdout for the input [s] from keystream
    byte [m] on: the full 16-byte chunks, the [EOF] line of the read that
    comes up short, then the bytes of that last read. *)
Definition stdin_trace (K : list Z) (m : nat) (s : list Z) : list out_item :=
  let n := (16 * (length s / 16))%nat in
  (OByte <$> ks_xor K m (take n s)) ++ [OLog (mk_log false EOF_MSG [])] ++
  (OByte <$> ks_xor K (m + n) (drop n s)).

(** ** Lemmas *)

Lemma write_output_buffer_stdin params buf n w :
  w_stdin (write_output_buffer params buf n w).2 = w_stdin w.
Proof. unfold write_output_buffer. by repeat case_match; simplify_eq. Qed.

Lemma no_ff_bytes_ok l : no_ff l -> bytes_ok l = true.
Proof. intros H. apply bytes_ok_Forall. eapply Forall_impl; [exact H|]. simpl. lia. Qed.

Lemma u32_add_l a b : u32 (u32 a + b) = u32 (a + b).
Proof. unfold u32. apply Zplus_mod_idemp_l. Qed.

Lemma stdin_trace_short K m s :
  (length s < 16)%nat ->
  stdin_trace K m s = [OLog (mk_log false EOF_MSG [])] ++ (OByte <$> ks_xor K m s).
Proof.
  intros H. unfold stdin_trace. rewrite Nat.div_small by done.
  by rewrite Nat.mul_0_r, take_0, drop_0, Nat.add_0_r.
Qed.

Lemma stdin_trace_full K m chunk rest :
  length chunk = 16%nat ->
  stdin_trace K m (chunk ++ rest) = (OByte <$> ks_xor K m chunk) ++ stdin_trace K (m + 16) rest.
Proof.
  intros Hc. unfold stdin_trace. rewrite length_app, Hc.
  replace (16 + length rest)%nat with (1 * 16 + length rest)%nat by lia.
  rewrite Nat.div_add_l by lia.
  replace (16 * (1 + length rest / 16))%nat with (length chunk + 16 * (length rest / 16))%nat by lia.
  rewrite take_app_add, drop_app_add, ks_xor_app, fmap_app, Hc. rewrite <-!app_assoc.
  by rewrite Nat.add_assoc.
Qed.

Lemma stdout_bytes_stdin_trace K m s : stdout_bytes (stdin_trace K m s) = ks_xor K m s.
Proof.
  unfold stdin_trace. set (n := (16 * (length s / 16))%nat).
  assert (n <= length s)%nat by (apply Nat.Div0.mul_div_le; lia).
  autorewrite with minicrypt. cbn [app].
  transitivity (ks_xor K m (take n s ++ drop n s)); [|by rewrite take_drop].
  by rewrite ks_xor_app, length_take, Nat.min_l by lia.
Qed.

(** Equality of two results that hold environments: the environments are
    compared part by part ([world_ext]), after the operations on them
    are reduced. *)
Ltac world_split :=
  repeat lazymatch goal with
    | |- Some _ = Some _ => f_equal
    | |- (_, _) = (_, _) => f_equal
    end;
  try reflexivity; apply world_ext.

Ltac world_close := rewrite ?app_nil_r, <-?app_assoc; reflexivity.

Ltac world_eq :=
  world_split;
  cbn [w_fs w_stdin w_stdout w_heap print_cli_params put_bytes log_eof DEBUG_INFO DEBUG_ERR debug
       set_stdin set_fs heap_alloc heap_free prm_key prm_key_size input_buffer input_buffer_size
       output_buffer_path default negb andb orb Z.eqb id];
  world_close.

Section StdinLoop.
Context (K : list Z) (p : crypt_params).
Hypothesis HL : (0 < length K < 255)%nat.
Hypothesis Hstdout : output_buffer_path p = None.

Lemma write_output_buffer_stdout b n w :
  0 < n -> write_output_buffer (Some p) (Some b) n w = (n, put_bytes (take (Z.to_nat n) b) w).
Proof.
  intros Hn. unfold write_output_buffer. rewrite Hstdout.
  destruct (Z.eqb_spec n 0); [lia|done].
Qed.

(** One round on a non-empty read of [chunk] from the state "[K], [m]
    bytes": the chunk goes out XORed with the keystream. *)
Lemma stdin_round m c chunk w :
  ctx_models K m c -> (0 < length chunk <= 16)%nat -> no_ff chunk ->
  exists c',
    crypt_buffer (Some c) (Some (chunk ++ drop (length chunk) (replicate 16 0)))
      (Some (chunk ++ drop (length chunk) (replicate 16 0))) (Z.of_nat (length chunk)) =
      {| cr_ret := Z.of_nat (length chunk); cr_ctx := Some c';
         cr_output := Some (ks_xor K m chunk ++ drop (length chunk)
                              (chunk ++ drop (length chunk) (replicate 16 0))) |} /\
    write_output_buffer (Some p)
      (Some (ks_xor K m chunk ++ drop (length chunk) (chunk ++ drop (length chunk) (replicate 16 0))))
      (Z.of_nat (length chunk)) w = (Z.of_nat (length chunk), put_bytes (ks_xor K m chunk) w) /\
    ctx_models K (m + length chunk) c'.
Proof.
  intros Hm Hc Hff. set (buf := chunk ++ drop (length chunk) (replicate 16 0)).
  assert (take (length chunk) buf = chunk) as Tb by apply take_app_length.
  destruct (crypt_buffer_models K m c buf buf (Z.of_nat (length chunk))) as (c' & Hcall & Hm');
    [done | done | crypt_lia
    | rewrite Nat2Z.id; unfold buf; rewrite length_app, length_drop, length_replicate; lia
    | rewrite Nat2Z.id, Tb; by apply no_ff_bytes_ok |].
  rewrite Nat2Z.id, Tb in Hcall. rewrite Nat2Z.id in Hm'.
  change (zip_with Z.lxor chunk (map (ks_byte K) (seq m (length chunk)))) with (ks_xor K m chunk) in Hcall.
  exists c'. split; [exact Hcall|]. split; [|exact Hm'].
  rewrite write_output_buffer_stdout by lia. rewrite Nat2Z.id, take_app_length' by
    (rewrite length_ks_xor; lia). done.
Qed.

(** With enough rounds, the loop from the state "[K], [m] bytes" reads
    all of a stdin without 0xFF bytes: stdout gets [stdin_trace], stdin is
    empty and [total_read] has grown by the length of stdin. *)
Lemma stdin_loop_models fuel : forall s m c total w,
  ctx_models K m c -> w_stdin w = s -> no_ff s -> (length s < 16 * fuel)%nat ->
  exists c',
    stdin_loop fuel (Some c) (Some p) total w =
      Some (Some c', u32 (total + Z.of_nat (length s)),
            mk_world (w_fs w) [] (w_stdout w ++ stdin_trace K m s) (w_heap w)) /\
    ctx_models K (m + length s) c'.
Proof.
  induction fuel as [|f IH]; intros s m c total w Hm Hs Hff Hfuel; [lia|].
  cbn [stdin_loop]. unfold read_from_stdin.
  change (CRYPT_STDIN_BUF_SIZE =? 0) with false. cbn iota.
  rewrite Hs, read_from_stdin_loop_no_ff by done.
  change (Z.to_nat CRYPT_STDIN_BUF_SIZE) with 16%nat.
  destruct (decide (length s < 16)%nat) as [Hlt|Hge].
  - (* a short read: the last round, which logs EOF *)
    rewrite bool_decide_true by done. rewrite (take_ge s), (drop_ge s) by lia.
    rewrite stdin_trace_short by done.
    destruct (decide (s = [])) as [->|Hne].
    + cbn [length Z.of_nat]. rewrite crypt_buffer_inputLen_0. simpl.
      exists c. split; [|by rewrite Nat.add_0_r]. rewrite Z.add_0_r. world_eq.
    + assert (length s <> 0%nat) by (by destruct s).
      destruct (stdin_round m c s (log_eof (set_stdin w []))) as (c' & Hcall & Hwr & Hm');
        [done | lia | done |].
      rewrite Hcall. cbn [cr_output cr_ctx]. rewrite Hwr, Z.eqb_refl.
      rewrite (proj2 (Z.ltb_lt _ _)) by (unfold CRYPT_STDIN_BUF_SIZE; lia).
      exists c'. split; [|done]. world_eq.
  - (* a full chunk: the loop goes on with the rest of stdin *)
    rewrite bool_decide_false by lia.
    set (chunk := take 16 s). set (rest := drop 16 s).
    assert (s = chunk ++ rest) as Hsplit by (symmetry; apply take_drop).
    assert (length chunk = 16%nat) as Lc by (unfold chunk; rewrite length_take; lia).
    destruct (stdin_round m c chunk (set_stdin w rest)) as (c' & Hcall & Hwr & Hm');
      [done | lia | by apply Forall_take |].
    rewrite Hcall. cbn [cr_output cr_ctx]. rewrite Hwr, Z.eqb_refl. cbn [negb].
    rewrite Lc. change (Z.of_nat 16 <? CRYPT_STDIN_BUF_SIZE) with false.
    destruct (IH rest (m + 16)%nat c' (u32 (total + Z.of_nat 16))
                (put_bytes (ks_xor K m chunk) (set_stdin w rest)))
      as (c'' & Hloop & Hm''); [by rewrite Lc in Hm' | done | by apply Forall_drop
                               | rewrite Hsplit, length_app in Hfuel; lia |].
    rewrite Hloop. exists c''. split.
    + rewrite u32_add_l, Hsplit, stdin_trace_full, length_app, Lc by done.
      rewrite Nat2Z.inj_add, Z.add_assoc. world_eq.
    + rewrite Hsplit, length_app, Lc, Nat.add_assoc. done.
Qed.
End StdinLoop.

Lemma fuel_enough n : (n < 16 * S (n / 16))%nat.
Proof. pose proof (Nat.div_mod_eq n 16). pose proof (Nat.mod_upper_bound n 16). lia. Qed.

(** Every round that does not end the loop consumes 16 bytes of stdin,
    whatever the bytes, the context and the writes do. *)
Lemma stdin_loop_total fuel : forall ctx params total w,
  (length (w_stdin w) < 16 * fuel)%nat -> is_Some (stdin_loop fuel ctx params total w).
Proof.
  induction fuel as [|f IH]; intros ctx params total w H; [lia|].
  cbn [stdin_loop]. unfold read_from_stdin.
  change (CRYPT_STDIN_BUF_SIZE =? 0) with false. cbn iota.
  destruct (read_from_stdin_loop _ (w_stdin w)) as [[bs rest] eof] eqn:E.
  apply read_from_stdin_loop_length in E as [Hb Hr].
  change (Z.to_nat CRYPT_STDIN_BUF_SIZE) with 16%nat in Hb.
  match goal with |- context [write_output_buffer ?pr ?b ?n ?w1] =>
    pose proof (write_output_buffer_stdin pr b n w1) as Hw;
    destruct (write_output_buffer pr b n w1) as [res w2] eqn:Ew end.
  cbn zeta iota. destruct (Z.ltb_spec (Z.of_nat (length bs)) CRYPT_STDIN_BUF_SIZE); [done|].
  apply IH. cbn in Hw.
  assert (w_stdin w2 = rest) as H2 by (rewrite Hw; by destruct eof).
  unfold CRYPT_STDIN_BUF_SIZE in *. destruct (negb _); cbn; rewrite H2; lia.
Qed.

(** The call of file mode: the whole input into a zero-filled buffer of
    its size, from a context that represents [K] after 0 bytes. *)
Lemma mode_input_file_call K c s :
  (0 < length K < 255)%nat -> ctx_models K 0 c ->
  (0 < length s)%nat -> Z.of_nat (length s) < MAX_FILE_BUF_SIZE -> bytes_ok s = true ->
  exists c',
    crypt_buffer (Some c) (Some (replicate (length s) 0)) (Some s) (Z.of_nat (length s)) =
      {| cr_ret := Z.of_nat (length s); cr_ctx := Some c'; cr_output := Some (ks_xor K 0 s) |} /\
    ctx_models K (length s) c'.
Proof.
  intros HL Hm H0 Hmax Hok.
  destruct (crypt_buffer_models K 0 c (replicate (length s) 0) s (Z.of_nat (length s)))
    as (c' & Hcall & Hm');
    [done | done | unfold MAX_FILE_BUF_SIZE in *; crypt_lia | rewrite Nat2Z.id; lia
    | rewrite Nat2Z.id, take_ge by lia; done |].
  rewrite Nat2Z.id, take_ge in Hcall by lia. rewrite Nat2Z.id in Hm'.
  change (zip_with Z.lxor s (map (ks_byte K) (seq 0 (length s)))) with (ks_xor K 0 s) in Hcall.
  rewrite drop_ge, app_nil_r in Hcall by (rewrite length_replicate; lia). eauto.
Qed.

(** File mode transforms a whole input file of [0 < size < 65535] bytes
    with one call, writes input XOR keystream to stdout, frees the
    output buffer and returns 0. *)
Lemma mode_input_file_models K c p s w :
  (0 < length K < 255)%nat -> ctx_models K 0 c -> output_buffer_path p = None ->
  input_buffer p = Some s -> input_buffer_size p = Z.of_nat (length s) ->
  (0 < length s)%nat -> Z.of_nat (length s) < MAX_FILE_BUF_SIZE -> bytes_ok s = true ->
  exists c',
    mode_input_file (Some c) (Some p) true w =
      (0, Some c', heap_free (Some (ks_xor K 0 s)) (put_bytes (ks_xor K 0 s) (heap_alloc SOutBuf w))) /\
    ctx_models K (length s) c'.
Proof.
  intros HL Hm Hp Hin Hsz H0 Hmax Hok. unfold mode_input_file. rewrite Hin, Hsz.
  destruct (mode_input_file_call K c s) as (c' & Hcall & Hm'); [done..|].
  rewrite Nat2Z.id, Hcall, Z.eqb_refl. cbn [negb cr_output cr_ctx default].
  erewrite write_output_buffer_stdout by (done || lia). rewrite Z.eqb_refl. cbn [negb].
  rewrite Nat2Z.id, take_ge by (rewrite length_ks_xor; lia). eauto.
Qed.

(** With an output path [q], file mode appends the transformed input to
    the file [q] (created when missing), logs the write and frees the
    output buffer. *)
Lemma mode_input_file_to_file K c p q s w :
  (0 < length K < 255)%nat -> ctx_models K 0 c -> output_buffer_path p = Some q ->
  input_buffer p = Some s -> input_buffer_size p = Z.of_nat (length s) ->
  (0 < length s)%nat -> Z.of_nat (length s) < MAX_FILE_BUF_SIZE -> bytes_ok s = true ->
  exists c',
    mode_input_file (Some c) (Some p) true w =
      (0, Some c',
       heap_free (Some (ks_xor K 0 s))
         (DEBUG_INFO "Written output to file %s (size: %d)" [LPtr (cstr_mem q); LInt (Z.of_nat (length s))]
            (set_fs (heap_alloc SOutBuf w) (<[q := default [] (w_fs w !! q) ++ ks_xor K 0 s]> (w_fs w))))) /\
    ctx_models K (length s) c'.
Proof.
  intros HL Hm Hp Hin Hsz H0 Hmax Hok. unfold mode_input_file. rewrite Hin, Hsz.
  destruct (mode_input_file_call K c s) as (c' & Hcall & Hm'); [done..|].
  rewrite Nat2Z.id, Hcall, Z.eqb_refl. cbn [negb cr_output cr_ctx default].
  unfold write_output_buffer. rewrite Hp, (proj2 (Z.eqb_neq _ _)) by lia. cbn [write_to_file].
  rewrite (proj2 (Z.eqb_neq _ _)) by lia. rewrite Z.eqb_refl. cbn [negb].
  rewrite Nat2Z.id, take_ge by (rewrite length_ks_xor; lia). rewrite Z.eqb_refl. eauto.
Qed.

(** ** Theorems *)

(** C20: stdin mode terminates within [1 + length stdin / 16] rounds and
    reads the whole of a stdin without 0xFF bytes.  Stdout gets the
    full 16-byte chunks XORed with the keystream of a fresh context, the
    [EOF] log line of the last read, the bytes of that read, and the
    "total read" log line; the context then represents [length stdin]
    bytes. *)
Theorem mode_input_stdin_output K c p w :
  (0 < length K < 255)%nat -> ctx_models K 0 c -> output_buffer_path p = None ->
  no_ff (w_stdin w) ->
  exists c',
    mode_input_stdin (Some c) (Some p) (S (length (w_stdin w) / 16)) w =
      Some (0, Some c',
            mk_world (w_fs w) []
              (w_stdout w ++ stdin_trace K 0 (w_stdin w) ++
               [OLog (mk_log false "mode_input_stdin: total read: %d"
                        [LInt (u32 (Z.of_nat (length (w_stdin w))))])]) (w_heap w)) /\
    ctx_models K (length (w_stdin w)) c'.
Proof.
  intros HL Hm Hp Hff. unfold mode_input_stdin.
  destruct (stdin_loop_models K p HL Hp (S (length (w_stdin w) / 16)) (w_stdin w) 0 c 0 w)
    as (c' & Hloop & Hm'); auto using fuel_enough.
  rewrite Hloop. exists c'. split; [world_eq|done].
Qed.

(** C21: file mode and stdin mode agree on the bytes.  From the same
    fresh context, transforming [s] (no 0xFF byte, [0 < length s < 65535])
    as an input file with one [crypt_buffer] call and as stdin in 16-byte
    chunks writes the same bytes, [s] XOR the keystream, to stdout (stdin
    mode adds its log lines), and leaves contexts that represent
    [length s] bytes. *)
Theorem file_and_stdin_modes_agree K c pf ps s w :
  (0 < length K < 255)%nat -> ctx_models K 0 c ->
  output_buffer_path pf = None -> output_buffer_path ps = None ->
  input_buffer pf = Some s -> input_buffer_size pf = Z.of_nat (length s) ->
  (0 < length s)%nat -> Z.of_nat (length s) < MAX_FILE_BUF_SIZE -> no_ff s ->
  exists cf cs wf ws,
    mode_input_file (Some c) (Some pf) true w = (0, Some cf, wf) /\
    mode_input_stdin (Some c) (Some ps) (S (length s / 16)) (set_stdin w s) = Some (0, Some cs, ws) /\
    stdout_bytes (w_stdout wf) = stdout_bytes (w_stdout w) ++ ks_xor K 0 s /\
    stdout_bytes (w_stdout ws) = stdout_bytes (w_stdout wf) /\
    ctx_models K (length s) cf /\ ctx_models K (length s) cs.
Proof.
  intros HL Hm Hpf Hps Hin Hsz H0 Hmax Hff.
  destruct (mode_input_file_models K c pf s w) as (cf & Hfile & Hmf); auto using no_ff_bytes_ok.
  destruct (stdin_loop_models K ps HL Hps (S (length s / 16)) s 0 c 0 (set_stdin w s))
    as (cs & Hloop & Hms); auto using fuel_enough.
  exists cf, cs. do 2 eexists. split; [exact Hfile|]. split.
  { unfold mode_input_stdin. rewrite Hloop. reflexivity. }
  unfold heap_free, heap_alloc, put_bytes, set_stdin, DEBUG_INFO, debug. cbn [w_stdout].
  rewrite !stdout_bytes_app, stdout_bytes_bytes, stdout_bytes_stdin_trace. cbn.
  rewrite app_nil_r. auto.
Qed.

(** C22: with an empty key ([key_size = 0], which [crypt_alloc_context]
    accepts), file mode on a 2-byte input gets [CRYPT_ERROR_PARAMETER] = 2
    back from [crypt_buffer], takes it for the byte count, writes the
    zero-filled output buffer and reports success. *)
Theorem mode_input_file_empty_key c p w b1 b2 :
  key_size c = 0 -> input_buffer p = Some [b1; b2] -> input_buffer_size p = 2 ->
  output_buffer_path p = None ->
  mode_input_file (Some c) (Some p) true w =
  (0, Some c, heap_free (Some [0; 0]) (put_bytes [0; 0] (heap_alloc SOutBuf w))).
Proof.
  intros Hks Hin Hsz Hp. unfold mode_input_file. rewrite Hin, Hsz.
  rewrite crypt_buffer_key_size_0 by done. simpl.
  unfold write_output_buffer. by rewrite Hp.
Qed.

(** C27: stdin mode ends on any stdin, 0xFF bytes, key and write
    failures included, within the [1 + length stdin / 16] rounds that
    [main] gives it. *)
Theorem mode_input_stdin_terminates ctx params w :
  is_Some (mode_input_stdin ctx params (S (length (w_stdin w) / 16)) w).
Proof.
  unfold mode_input_stdin. destruct ctx, params; try done.
  destruct (stdin_loop_total (S (length (w_stdin w) / 16)) (Some c) (Some c0) 0 w) as [[[? ?] ?] ->];
    [apply fuel_enough | done].
Qed.

(** ** Witnesses *)

Abbreviation world_123 := (mk_world ∅ [1; 2; 3] [] []).
Abbreviation params_stdin := (mk_crypt_params (Some [65; 66]) 2 None 0 None).
Abbreviation params_file := (mk_crypt_params (Some [65; 66]) 2 (Some [1; 2; 3]) 3 None).

Lemma mode_input_stdin_output_witness :
  exists c',
    mode_input_stdin (Some ctx_AB) (Some params_stdin) (S (length (w_stdin world_123) / 16)) world_123 =
      Some (0, Some c',
            mk_world (w_fs world_123) []
              (w_stdout world_123 ++ stdin_trace [65; 66] 0 (w_stdin world_123) ++
               [OLog (mk_log false "mode_input_stdin: total read: %d"
                        [LInt (u32 (Z.of_nat (length (w_stdin world_123))))])]) (w_heap world_123)) /\
    ctx_models [65; 66] (length (w_stdin world_123)) c'.
Proof.
  apply mode_input_stdin_output; [simpl; lia | repeat split; reflexivity | reflexivity
                                 | simpl; repeat constructor; lia].
Defined.

Lemma file_and_stdin_modes_agree_witness :
  exists cf cs wf ws,
    mode_input_file (Some ctx_AB) (Some params_file) true world_123 = (0, Some cf, wf) /\
    mode_input_stdin (Some ctx_AB) (Some params_stdin) (S (length [1; 2; 3] / 16))
                     (set_stdin world_123 [1; 2; 3]) = Some (0, Some cs, ws) /\
    stdout_bytes (w_stdout wf) = stdout_bytes (w_stdout world_123) ++ ks_xor [65; 66] 0 [1; 2; 3] /\
    stdout_bytes (w_stdout ws) = stdout_bytes (w_stdout wf) /\
    ctx_models [65; 66] (length [1; 2; 3]) cf /\ ctx_models [65; 66] (length [1; 2; 3]) cs.
Proof.
  apply file_and_stdin_modes_agree;
    [simpl; lia | repeat split; reflexivity | reflexivity | reflexivity | reflexivity
    | reflexivity | simpl; lia | unfold MAX_FILE_BUF_SIZE; simpl; lia | repeat constructor; lia].
Defined.

Lemma mode_input_file_empty_key_witness :
  mode_input_file (Some {| version := 1; version_string := Some "v0.1"; key := Some [];
                           key_size := 0; key_state := 0 |})
                  (Some (mk_crypt_params (Some []) 0 (Some [7; 9]) 2 None)) true world_123 =
  (0, Some {| version := 1; version_string := Some "v0.1"; key := Some []; key_size := 0; key_state := 0 |},
   heap_free (Some [0; 0]) (put_bytes [0; 0] (heap_alloc SOutBuf world_123))).
Proof. apply (mode_input_file_empty_key _ _ _ 7 9); reflexivity. Defined.
