(* ===== verification/CommandLine.v ===== *)
(** * Argument parsing and [main] (cryptmain.c)

    [parse_cli_and_load] (cryptmain.c:201-348), [print_help] (350-361)
    and [main] (38-89).  The arguments are C strings (lists of non-NUL
    bytes); [argv[argc]] is NULL, so [argv !! argc = None].  The loop
    index [curr_arg] is a [uint8_t]: it is kept in [0, 256) with [u8]
    after every increment.  The loop is a [Fixpoint] with fuel; the
    theorems show that [argc] rounds are enough when [argc <= 254] and
    that no fuel is enough for some command lines of 257 arguments.  The
    environment [world] is threaded through, so every [DEBUG_INFO] and
    [DEBUG_ERR] of the parser and of [main] is on the stdout trace.
    Allocations of the parser and of [main] are taken to succeed;
    [read_file_into_memory] is called with a successful [malloc].  Every
    allocation and [free] is on the heap trace: the cleanup at
    [params_fail], [free_cli_params] and the [free] calls of the final
    [crypt_free_context] ([release_context]). *)

From stdpp Require Import gmap.
From S2P Require Import Prelude World CryptContext CryptBuffer Keystream Util CryptMain.

(** [strncmp(lit, s, 2) == 0] for a two-character literal [lit]: the
    string starts with [lit]. *)
Definition starts_with2 (lit s : list Z) : bool := bool_decide (take 2 s = lit).

Definition OPT_H : list Z := [45; 104].   (* "-h" *)
Definition OPT_K : list Z := [45; 107].   (* "-k" *)
Definition OPT_F : list Z := [45; 102].   (* "-f" *)
Definition OPT_O : list Z := [45; 111].   (* "-o" *)

(** The zero-filled [struct crypt_params] from [calloc]. *)
Definition empty_params : crypt_params :=
  {| prm_key := None; prm_key_size := 0; input_buffer := None; input_buffer_size := 0;
     output_buffer_path := None |}.

Definition set_key (p : crypt_params) (k : list Z) (ks : Z) : crypt_params :=
  {| prm_key := Some k; prm_key_size := ks; input_buffer := input_buffer p;
     input_buffer_size := input_buffer_size p; output_buffer_path := output_buffer_path p |}.

Definition set_input (p : crypt_params) (b : list Z) (sz : Z) : crypt_params :=
  {| prm_key := prm_key p; prm_key_size := prm_key_size p; input_buffer := Some b;
     input_buffer_size := sz; output_buffer_path := output_buffer_path p |}.

Definition set_output (p : crypt_params) (path : list Z) : crypt_params :=
  {| prm_key := prm_key p; prm_key_size := prm_key_size p; input_buffer := input_buffer p;
     input_buffer_size := input_buffer_size p; output_buffer_path := Some path |}.

(** A [uint16_t] store. *)
Definition u16 (z : Z) : Z := z mod 65536.

(** ** Releasing the parameters *)

(** [memset(buf, 0x00, size); free(buf);] on a pointer that may be NULL. *)
Definition wipe_free (buf : option (list Z)) (size : Z) (w : world) : world :=
  match buf with
  | Some b => heap_free (Some (memset_zero b (Z.to_nat size))) w
  | None => w
  end.

(** [sizeof('\0')]: a character constant has type [int] in C, so the
    [-o] copy is allocated with [path_len + 4] zero bytes
    (cryptmain.c:284). *)
Definition SIZEOF_CHAR_CONST : Z := 4.

(** The block of the [-o] copy: the path, then the rest of the
    [calloc]'d zeros. *)
Definition path_block (q : list Z) : list Z := q ++ replicate (Z.to_nat SIZEOF_CHAR_CONST) 0.

(** [free(p->output_buffer_path)]: the copy of the path. *)
Definition free_path (path : option (list Z)) (w : world) : world :=
  match path with
  | Some q => heap_free (Some (path_block q)) w
  | None => w
  end.

(** The cleanup at [params_fail] (cryptmain.c:333-347), on the non-NULL
    [params]: the input buffer is zeroed and freed, then the output path
    and the struct are freed.  The key buffer is not touched. *)
Definition params_fail (p : crypt_params) (w : world) : world :=
  heap_free None (free_path (output_buffer_path p) (wipe_free (input_buffer p) (input_buffer_size p) w)).

(** [free_cli_params] (cryptmain.c:364-385). *)
Definition free_cli_params (params : option crypt_params) (w : world) : world :=
  match params with
  | None => w
  | Some p =>
      heap_free None
        (free_path (output_buffer_path p)
           (wipe_free (input_buffer p) (input_buffer_size p)
              (wipe_free (prm_key p) (prm_key_size p) w)))
  end.

(** The two [free] calls of [crypt_free_context] (libcryptprov.c:38-51),
    with what the blocks hold then (the context's bytes are zeroed, and
    not modelled). *)
Definition release_context (ctx : option crypt_context) (w : world) : world :=
  match crypt_free_context ctx with
  | None => w
  | Some fb =>
      heap_free None (match freed_key fb with Some k => heap_free (Some k) w | None => w end)
  end.

(** The [for] loop of [parse_cli_and_load] (cryptmain.c:212-317).
    [None]: out of fuel; [Some (None, w)]: [goto params_fail];
    [Some (Some p, w)]: the loop ended with the parameters [p].  Every
    branch that consumes an argument does [curr_arg++; continue;], so the
    index moves by 2 ([u8] at each increment).  The error branches log
    their message and run the cleanup of [params_fail] on the parameters
    built so far.  The [malloc] of the [-k] copy and the [calloc] of the
    [-o] copy are taken to succeed. *)
Fixpoint parse_loop (fuel : nat) (argv : list (list Z)) (curr_arg : Z) (p : crypt_params)
    (w : world) : option (option crypt_params * world) :=
  match fuel with
  | O => None
  | S f =>
      let argc := Z.of_nat (length argv) in
      if negb (curr_arg <? argc) then Some (Some p, w)
      else
        let arg := default [] (argv !! Z.to_nat curr_arg) in
        let next := argv !! Z.to_nat (curr_arg + 1) in
        let skip2 := u8 (u8 (curr_arg + 1) + 1) in
        let fail w' := Some (None, params_fail p w') in
        if starts_with2 OPT_H arg then fail (DEBUG_INFO "Printing help..." [] w)
        else if starts_with2 OPT_K arg then
          if bool_decide (is_Some (prm_key p)) then
            fail (DEBUG_ERR "Key parameter already set, exiting" [] w)
          else
            let buf_size := strnlen (cstr_mem <$> next) CRYPT_MAX_KEY_LEN in
            if (argc <=? curr_arg + 1) || (CRYPT_MAX_KEY_LEN <=? buf_size) then
              fail (DEBUG_ERR "Invalid parameter for -k" [] w)
            else parse_loop f argv skip2
                   (set_key p (take (Z.to_nat buf_size) (default [] next)) (u16 buf_size))
                   (heap_alloc SKeyArg w)
        else if starts_with2 OPT_F arg then
          if bool_decide (is_Some (prm_key p)) then
            fail (DEBUG_ERR "Key parameter already set, exiting" [] w)
          else if (argc <=? curr_arg + 1) || negb (is_path_valid (w_fs w) next) then
            fail (DEBUG_ERR "Invalid parameter for -f, or path not valid: %s" [ptr_arg next] w)
          else
            let '(buf_size, buf, w1) := read_file_into_memory next true w in
            if buf_size =? 0 then fail (DEBUG_ERR "Invalid path for -f: %s" [ptr_arg next] w1)
            else parse_loop f argv skip2 (set_key p (default [] buf) (u16 buf_size)) w1
        else if starts_with2 OPT_O arg then
          let path_len := strnlen (cstr_mem <$> next) MAX_FILE_PATH in
          if (argc <=? curr_arg + 1) || (MAX_FILE_PATH <=? path_len) then
            fail (DEBUG_ERR "Invalid specifier for -o" [] w)
          else if bool_decide (head (default [] next) = Some 45) then parse_loop f argv skip2 p w
          else parse_loop f argv skip2
                 (set_output p (take (Z.to_nat path_len) (default [] next))) (heap_alloc SOutPath w)
        else
          if bool_decide (is_Some (input_buffer p)) then fail w
          else if negb (is_path_valid (w_fs w) (Some arg)) then
            fail (DEBUG_ERR "Input file %s does not exist" [LPtr (cstr_mem arg)] w)
          else
            let '(buf_size, buf, w1) := read_file_into_memory (Some arg) true w in
            if buf_size =? 0 then fail (DEBUG_ERR "Invalid path for -f: %s" [ptr_arg next] w1)
            else parse_loop f argv skip2 (set_input p (default [] buf) buf_size) w1
  end.

(** [parse_cli_and_load] (cryptmain.c:201-348): the loop from index 1,
    then the key from stdin when no [-k] or [-f] was given.  The result is
    the parameters ([None]: NULL) and the environment; [None] when the
    fuel ran out.  The [calloc] of the parameters is taken to succeed. *)
Definition parse_cli_and_load (argv : list (list Z)) (fuel : nat) (w : world)
    : option (option crypt_params * world) :=
  if Z.of_nat (length argv) <=? 1 then Some (None, w)
  else
    match parse_loop fuel argv 1 empty_params (heap_alloc SParams w) with
    | None => None
    | Some (None, w1) => Some (None, w1)
    | Some (Some p, w1) =>
        match prm_key p with
        | Some _ => Some (Some p, w1)
        | None =>
            let w2 := DEBUG_INFO "Enter symmetric key: " [] w1 in
            let '(k, out_size, w3) := get_stdin_user CRYPT_MAX_KEY_LEN true w2 in
            match k with
            | None => Some (None, params_fail p (DEBUG_ERR "Failed to get symmetric key" [] w3))
            | Some kb => Some (Some (set_key p kb out_size), w3)
            end
        end
    end.

(** [CRYPT_MAIN_VERSION] (cryptmain.h:3). *)
Definition CRYPT_MAIN_VERSION : string := "1.0".

(** The characters of the C escapes [\t] and [\n]. *)
Definition TAB : string := String (Ascii.ascii_of_nat 9) EmptyString.
Definition NL : string := String (Ascii.ascii_of_nat 10) EmptyString.

(** [print_help] (cryptmain.c:350-361): its lines, with the escapes as
    the characters they denote. *)
Definition help_lines : list string :=
  ["Help: ";
   "crypt [-h] -k <key> | -f <key_file> [-o <output_file>] [<input_file>]";
   "-h" +:+ TAB +:+ TAB +:+ TAB +:+ TAB +:+ "Print this help";
   "-k <key>" +:+ TAB +:+ TAB +:+ TAB +:+
     "Supply a key via command line. -k and -f are mutually exclusive";
   "-f <key_path>" +:+ TAB +:+ TAB +:+ "Supply a key file via standard path";
   "-o <out_path>" +:+ TAB +:+ TAB +:+ "Encryption output sent to a file rather than stdout";
   "[<input_file>]" +:+ TAB +:+ TAB +:+
     "Optional parameter that specifies the input buffer as a file, otherwise stdin will be used" +:+ NL;
   "Exiting cleanly." +:+ NL].

Definition print_help (w : world) : world :=
  foldl (fun w' line => DEBUG_INFO line [] w') w help_lines.

(** The stdout items of [print_help]. *)
Definition help_trace : list out_item := (fun line => info line []) <$> help_lines.

(** The two lines [main] prints first (cryptmain.c:40-41). *)
Definition banner : world -> world :=
  fun w =>
    DEBUG_INFO ("libcryptprov version: %s (0x%08x)" +:+ NL)
      [LPtr (cstr_mem (str_bytes crypt_get_version_string)); LInt crypt_get_version_long]
      (DEBUG_INFO " [crypt] (v%s)" [LPtr (cstr_mem (str_bytes CRYPT_MAIN_VERSION))] w).

(** The stdout items of [banner]. *)
Definition banner_trace : list out_item :=
  [info " [crypt] (v%s)" [LPtr (cstr_mem (str_bytes CRYPT_MAIN_VERSION))];
   info ("libcryptprov version: %s (0x%08x)" +:+ NL)
     [LPtr (cstr_mem (str_bytes crypt_get_version_string)); LInt crypt_get_version_long]].

(** [main] (cryptmain.c:38-89).  [params->key_size] is a [uint16_t]
    passed to the [uint8_t] parameter of [crypt_alloc_context].  The
    stdin loop gets [1 + length stdin / 16] rounds, which the theorems of
    [CryptMain] show to be enough.  The result of the mode is only
    logged: [main] returns 0 once the context exists.  A successful
    [crypt_alloc_context] allocates the context and its key copy; with
    [alloc_succeeds] its only failure is the parameter check, which
    allocates nothing.  The result is the exit status and the
    environment; [None] when a fuel ran out. *)
Definition main (argv : list (list Z)) (w : world) : option (Z * world) :=
  let w0 := banner w in
  match parse_cli_and_load argv (length argv) w0 with
  | None => None
  | Some (None, w1) => Some (-1, print_help w1)
  | Some (Some p, w1) =>
      match prm_key p with
      | None => Some (-1, print_help w1)
      | Some k =>
          let w2 := print_cli_params (Some p) w1 in
          let '(res, ctx) := crypt_alloc_context true (Some k) (u8 (prm_key_size p)) alloc_succeeds in
          if bool_decide (res <> CRYPT_ERROR_OK) then
            Some (crypt_error_code res,
                  free_cli_params (Some p)
                    (DEBUG_ERR "Failed to initialize cryptographic context: 0x%08x"
                       [LInt (crypt_error_code res)] w2))
          else
            let w2' := heap_alloc SCtxKey (heap_alloc SCtx w2) in
            let r :=
              match input_buffer p with
              | Some _ => Some (mode_input_file ctx (Some p) true w2')
              | None => mode_input_stdin ctx (Some p) (S (length (w_stdin w2') / 16)) w2'
              end in
            match r with
            | None => None
            | Some (res, ctx', w3) =>
                let w4 := if negb (res =? 0) then DEBUG_ERR "Failed to process I/O: 0x%08x" [LInt res] w3
                          else w3 in
                Some (0, free_cli_params (Some p) (release_context ctx' (DEBUG_INFO "Cleanup..." [] w4)))
            end
      end
  end.

(** The [free] of a buffer holding only zeros, when one was set. *)
Definition wiped (buf : option (list Z)) : list heap_event :=
  match buf with
  | Some b => [HFree (Some (replicate (length b) 0))]
  | None => []
  end.

(** A command line of 257 arguments: the program name, then 128 pairs
    [-o p]. *)
Definition argv_wrap : list (list Z) :=
  map (fun n => if Nat.odd n then OPT_O else [112]) (seq 0 257).


(** ** Lemmas on the parser *)

Lemma u8_skip2 i : u8 (u8 (i + 1) + 1) = u8 (i + 2).
Proof. unfold u8. rewrite Zplus_mod_idemp_l. f_equal; lia. Qed.

Lemma starts_with2_head lit a :
  head lit = Some 45 -> head a <> Some 45 -> starts_with2 lit a = false.
Proof.
  intros Hl Ha. apply bool_decide_eq_false. intros E.
  apply Ha. rewrite <-Hl, <-E. by destruct a.
Qed.

Lemma is_path_valid_head fs a : is_path_valid fs (Some a) = true -> head a <> Some 45.
Proof.
  unfold is_path_valid. destruct a as [|c r]; [done|]. intros H E.
  injection E as ->. by rewrite Z.eqb_refl in H.
Qed.

(** A path that [is_path_valid] accepts matches none of the options. *)
Lemma is_path_valid_not_option fs a lit :
  is_path_valid fs (Some a) = true -> lit ∈ [OPT_H; OPT_K; OPT_F; OPT_O] ->
  starts_with2 lit a = false.
Proof.
  intros Hv Hl. apply starts_with2_head; [|by eapply is_path_valid_head].
  repeat (apply elem_of_cons in Hl as [->|Hl]; [done|]). by apply elem_of_nil in Hl.
Qed.

(** The four options differ in their first two bytes. *)
Lemma starts_with2_exclusive l1 l2 a :
  l1 ∈ [OPT_H; OPT_K; OPT_F; OPT_O] -> l2 ∈ [OPT_H; OPT_K; OPT_F; OPT_O] -> l1 <> l2 ->
  starts_with2 l1 a = true -> starts_with2 l2 a = false.
Proof.
  unfold starts_with2. intros H1 H2 Hne E%bool_decide_eq_true. rewrite E.
  apply bool_decide_eq_false. intros ->. done.
Qed.

Lemma strnlen_arg k n :
  Forall (fun c => c <> 0) k -> (length k < Z.to_nat n)%nat ->
  strnlen (cstr_mem <$> Some k) n = Z.of_nat (length k).
Proof. intros Hk Hn. simpl. rewrite strnlen_loop_cstr by (done || lia). lia. Qed.

Ltac guard_false := rewrite ?(proj2 (Z.leb_gt _ _)) by lia; cbn [orb negb].

(** One round of the loop on each kind of argument at index [i]. *)
Section Steps.
Context (argv : list (list Z)) (i : Z) (a : list Z).
Hypothesis Hi : 0 <= i.
Hypothesis Ha : argv !! Z.to_nat i = Some a.

Lemma parse_loop_index_lt : i < Z.of_nat (length argv).
Proof. apply lookup_lt_Some in Ha. lia. Qed.

Lemma parse_loop_next_lt k : argv !! Z.to_nat (i + 1) = Some k -> i + 1 < Z.of_nat (length argv).
Proof. intros Hk. apply lookup_lt_Some in Hk. lia. Qed.

(** [-k KEY]: the key is the argument after the option; the loop goes on
    two arguments further. *)
Lemma parse_loop_key f p k w :
  starts_with2 OPT_K a = true -> argv !! Z.to_nat (i + 1) = Some k ->
  Forall (fun c => c <> 0) k -> (length k < 255)%nat -> prm_key p = None ->
  parse_loop (S f) argv i p w =
  parse_loop f argv (u8 (i + 2)) (set_key p k (Z.of_nat (length k))) (heap_alloc SKeyArg w).
Proof.
  intros HK Hk Hnz Hlen Hp. pose proof parse_loop_index_lt. pose proof (parse_loop_next_lt k Hk).
  cbn [parse_loop]. rewrite (proj2 (Z.ltb_lt _ _)) by lia. cbn [negb].
  rewrite Ha, Hk. cbn [default from_option id].
  rewrite (starts_with2_exclusive OPT_K OPT_H), HK, Hp by (done || set_solver).
  rewrite bool_decide_false by (intros [? ?]; done).
  rewrite strnlen_arg by (done || cbv; lia). unfold CRYPT_MAX_KEY_LEN. guard_false.
  rewrite u8_skip2, Nat2Z.id, take_ge by lia. unfold u16. by rewrite Z.mod_small by lia.
Qed.

(** An input path: the file is read into the input buffer and the loop
    goes on two arguments further, so the argument after the input path is
    never examined. *)
Lemma parse_loop_input f p contents w :
  is_path_valid (w_fs w) (Some a) = true -> w_fs w !! a = Some contents ->
  (0 < length contents)%nat -> Z.of_nat (length contents) < MAX_FILE_BUF_SIZE ->
  input_buffer p = None ->
  parse_loop (S f) argv i p w =
  parse_loop f argv (u8 (i + 2)) (set_input p contents (Z.of_nat (length contents)))
    (DEBUG_INFO READ_OK_MSG [LPtr (cstr_mem a); LInt (Z.of_nat (length contents))]
       (heap_alloc SFileBuf w)).
Proof.
  intros Hv Hc H0 Hmax Hp. pose proof parse_loop_index_lt.
  cbn [parse_loop]. rewrite (proj2 (Z.ltb_lt _ _)) by lia. cbn [negb].
  rewrite Ha. cbn [default from_option id].
  rewrite !(is_path_valid_not_option (w_fs w) a) by (done || set_solver).
  rewrite Hp, bool_decide_false, Hv by (intros [? ?]; done). cbn [negb].
  rewrite (read_file_into_memory_fits _ _ contents) by done. rewrite (proj2 (Z.eqb_neq _ _)) by lia.
  by rewrite u8_skip2.
Qed.

(** [-o PATH] with a path that does not start with '-': the output path is
    set. *)
Lemma parse_loop_output f p path w :
  starts_with2 OPT_O a = true -> argv !! Z.to_nat (i + 1) = Some path ->
  Forall (fun c => c <> 0) path -> (length path < 255)%nat -> head path <> Some 45 ->
  parse_loop (S f) argv i p w =
  parse_loop f argv (u8 (i + 2)) (set_output p path) (heap_alloc SOutPath w).
Proof.
  intros HO Hk Hnz Hlen Hh. pose proof parse_loop_index_lt. pose proof (parse_loop_next_lt path Hk).
  cbn [parse_loop]. rewrite (proj2 (Z.ltb_lt _ _)) by lia. cbn [negb].
  rewrite Ha, Hk. cbn [default from_option id].
  rewrite !(starts_with2_exclusive OPT_O), HO by (done || set_solver).
  rewrite strnlen_arg by (done || cbv; lia). unfold MAX_FILE_PATH. guard_false.
  rewrite bool_decide_false by done. by rewrite u8_skip2, Nat2Z.id, take_ge by lia.
Qed.

(** [-f KEYFILE]: the key is the contents of the file. *)
Lemma parse_loop_keyfile f p kp key w :
  starts_with2 OPT_F a = true -> argv !! Z.to_nat (i + 1) = Some kp ->
  is_path_valid (w_fs w) (Some kp) = true -> w_fs w !! kp = Some key ->
  (0 < length key)%nat -> Z.of_nat (length key) < MAX_FILE_BUF_SIZE -> prm_key p = None ->
  parse_loop (S f) argv i p w =
  parse_loop f argv (u8 (i + 2)) (set_key p key (Z.of_nat (length key)))
    (DEBUG_INFO READ_OK_MSG [LPtr (cstr_mem kp); LInt (Z.of_nat (length key))]
       (heap_alloc SFileBuf w)).
Proof.
  intros HF Hk Hv Hc H0 Hmax Hp. pose proof parse_loop_index_lt. pose proof (parse_loop_next_lt kp Hk).
  cbn [parse_loop]. rewrite (proj2 (Z.ltb_lt _ _)) by lia. cbn [negb].
  rewrite Ha, Hk. cbn [default from_option id].
  rewrite !(starts_with2_exclusive OPT_F), HF, Hp by (done || set_solver).
  rewrite bool_decide_false by (intros [? ?]; done). guard_false. rewrite Hv. cbn [negb orb].
  rewrite (read_file_into_memory_fits _ _ key) by done. rewrite (proj2 (Z.eqb_neq _ _)) by lia.
  unfold u16, MAX_FILE_BUF_SIZE in *. by rewrite u8_skip2, (Z.mod_small _ 65536) by lia.
Qed.
(** [-h]: the loop jumps to [params_fail]. *)
Lemma parse_loop_help f p w :
  starts_with2 OPT_H a = true ->
  parse_loop (S f) argv i p w = Some (None, params_fail p (DEBUG_INFO "Printing help..." [] w)).
Proof.
  intros HH. pose proof parse_loop_index_lt. cbn [parse_loop].
  rewrite (proj2 (Z.ltb_lt _ _)) by lia. cbn [negb]. rewrite Ha. cbn [default from_option id].
  by rewrite HH.
Qed.
End Steps.

(** Each round of the loop ends it normally (the index is past [argc]),
    fails, or moves the index by two. *)
Lemma parse_loop_round f argv i p w :
  (Z.of_nat (length argv) <= i /\ parse_loop (S f) argv i p w = Some (Some p, w)) \/
  (i < Z.of_nat (length argv) /\
   ((exists w', parse_loop (S f) argv i p w = Some (None, w')) \/
    exists p' w', parse_loop (S f) argv i p w = parse_loop f argv (u8 (i + 2)) p' w')).
Proof.
  rewrite <-u8_skip2. cbn [parse_loop].
  destruct (Z.ltb_spec i (Z.of_nat (length argv))); cbn [negb]; [right; split; [done|]|by left].
  repeat case_match; eauto.
Qed.

Lemma parse_loop_past_end f argv i p w :
  Z.of_nat (length argv) <= i -> parse_loop (S f) argv i p w = Some (Some p, w).
Proof. intros H. cbn [parse_loop]. by rewrite (proj2 (Z.ltb_ge _ _)) by lia. Qed.

Lemma argv_wrap_lookup j :
  (j < 257)%nat -> argv_wrap !! j = Some (if Nat.odd j then OPT_O else [112]).
Proof. intros Hj. unfold argv_wrap. by rewrite list_lookup_fmap, lookup_seq_lt. Qed.

(** ** Theorems on the parser *)

(** C28: with at most 254 arguments the loop ends: from any index
    [i >= 0], [argc - i] rounds of fuel are enough, so [main], which
    gives [parse_cli_and_load] [argc] rounds from index 1, gets a result. *)
Theorem parse_loop_terminates argv :
  (length argv <= 254)%nat ->
  forall fuel i p w, 0 <= i -> (Z.to_nat (Z.of_nat (length argv) - i) < fuel)%nat ->
  is_Some (parse_loop fuel argv i p w).
Proof.
  intros Hargc. induction fuel as [|f IH]; intros i p w Hi Hf; [lia|].
  destruct (parse_loop_round f argv i p w) as [[_ ->]|[Hlt [[w' ->]|(p' & w' & ->)]]]; [done|done|].
  unfold u8. rewrite Z.mod_small by lia. apply IH; lia.
Qed.

(** C29: with 256 arguments or more the loop never ends normally: the
    [uint8_t] index wraps at 256 and stays below [argc], so the loop
    only stops through [params_fail]. *)
Theorem parse_loop_wide_never_ends argv :
  (256 <= length argv)%nat ->
  forall fuel i p p' w w', 0 <= i < 256 -> parse_loop fuel argv i p w <> Some (Some p', w').
Proof.
  intros Hargc. induction fuel as [|f IH]; intros i p p' w w' Hi; [done|].
  destruct (parse_loop_round f argv i p w) as [[? _]|[_ [[w'' ->]|(p'' & w'' & ->)]]]; [lia|done|].
  apply IH. pose proof (u8_range (i + 2)). lia.
Qed.

(** C30: the command line [prog -o p -o p ... -o p] with 128 pairs
    (257 arguments) makes the loop run forever: the index goes
    1, 3, ..., 255, wraps to 1, and no amount of fuel ends it. *)
Theorem parse_loop_wrap_hangs fuel p w :
  parse_loop fuel argv_wrap 1 p w = None.
Proof.
  enough (forall j, (j <= 127)%nat -> forall p w,
            parse_loop fuel argv_wrap (Z.of_nat (2 * j + 1)) p w = None) as H
    by exact (H 0%nat ltac:(lia) p w).
  induction fuel as [|f IH]; intros j Hj q w'; [done|].
  assert (argv_wrap !! Z.to_nat (Z.of_nat (2 * j + 1)) = Some OPT_O) as H1
    by (rewrite Nat2Z.id, argv_wrap_lookup, Nat.odd_odd by lia; done).
  assert (argv_wrap !! Z.to_nat (Z.of_nat (2 * j + 1) + 1) = Some [112]) as H2
    by (replace (Z.to_nat _) with (2 * (j + 1))%nat by lia;
        rewrite argv_wrap_lookup, Nat.odd_even by lia; done).
  rewrite (parse_loop_output argv_wrap (Z.of_nat (2 * j + 1)) OPT_O ltac:(lia) H1 f q [112] w')
    by (done || lia || (repeat constructor; lia)).
  destruct (decide (j = 127%nat)) as [->|Hne].
  - apply (IH 0%nat); lia.
  - unfold u8. rewrite Z.mod_small by lia.
    replace (Z.of_nat (2 * j + 1) + 2) with (Z.of_nat (2 * S j + 1)) by lia. apply IH; lia.
Qed.

(** C25: the argument after an input path is skipped without being
    looked at: [crypt INPUT X] parses to "input = INPUT" whatever [X] is,
    even [-h] or [-k]. *)
Theorem parse_loop_skips_after_input ip s x w :
  is_path_valid (w_fs w) (Some ip) = true -> w_fs w !! ip = Some s ->
  (0 < length s)%nat -> Z.of_nat (length s) < MAX_FILE_BUF_SIZE ->
  parse_loop 2 [[]; ip; x] 1 empty_params w =
  Some (Some (set_input empty_params s (Z.of_nat (length s))),
        DEBUG_INFO READ_OK_MSG [LPtr (cstr_mem ip); LInt (Z.of_nat (length s))] (heap_alloc SFileBuf w)).
Proof.
  intros Hip Hs Hs0 Hs1.
  by rewrite (parse_loop_input [[]; ip; x] 1 ip ltac:(lia) eq_refl 1 _ s).
Qed.

(** ** [main] on a key file and an input file *)

(** ** Releasing memory *)

(** A context that represents [K] is released as a key buffer of zeros
    and the struct. *)
Lemma release_context_models K m c w :
  ctx_models K m c ->
  release_context (Some c) w = heap_free None (heap_free (Some (replicate (length K) 0)) w).
Proof. intros Hm. unfold release_context. by rewrite (crypt_free_context_models K m c Hm). Qed.

(** A buffer whose size field is its length is freed as zeros. *)
Lemma wipe_free_all b n w :
  n = Z.of_nat (length b) -> wipe_free (Some b) n w = heap_free (Some (replicate (length b) 0)) w.
Proof. intros ->. unfold wipe_free. by rewrite Nat2Z.id, memset_zero_all. Qed.

Ltac release_eq :=
  world_split;
  cbn [w_fs w_stdin w_stdout w_heap print_cli_params put_bytes log_eof DEBUG_INFO DEBUG_ERR debug
       set_stdin set_fs heap_alloc heap_free prm_key prm_key_size input_buffer input_buffer_size
       output_buffer_path default negb andb orb Z.eqb id
       free_cli_params release_context wipe_free free_path set_key set_input set_output empty_params
       crypt_free_context freed_key key key_size fmap option_fmap option_map memset_zero take drop
       replicate Nat.min Z.to_nat Z.of_nat];
  world_close.

Lemma print_help_stdout w :
  print_help w = mk_world (w_fs w) (w_stdin w) (w_stdout w ++ help_trace) (w_heap w).
Proof.
  apply world_ext; cbn [print_help help_lines foldl DEBUG_INFO debug w_fs w_stdin w_stdout w_heap];
    [done..| |done].
  rewrite <-!app_assoc. reflexivity.
Qed.

Lemma u8_of_nat n : u8 (Z.of_nat n) = Z.of_nat (n mod 256).
Proof. unfold u8. by rewrite Nat2Z.inj_mod. Qed.

Lemma banner_stdout w :
  banner w = mk_world (w_fs w) (w_stdin w) (w_stdout w ++ banner_trace) (w_heap w).
Proof. unfold banner, DEBUG_INFO, debug. cbn. by rewrite <-app_assoc. Qed.

(** The context [crypt_alloc_context] returns for the key [k] of [n]
    bytes. *)
Abbreviation fresh_ctx k n :=
  {| version := crypt_get_version_long; version_string := Some crypt_get_version_string;
     key := Some (take (Z.to_nat n) k); key_size := n; key_state := 0 |}.

Section KeyFileInput.
Context (fs : gmap (list Z) (list Z)) (kp key ip s : list Z).
Hypothesis Hkp : is_path_valid fs (Some kp) = true.
Hypothesis Hkey : fs !! kp = Some key.
Hypothesis Hip : is_path_valid fs (Some ip) = true.
Hypothesis Hs : fs !! ip = Some s.
Hypothesis Hkey_len : (0 < length key)%nat /\ Z.of_nat (length key) < MAX_FILE_BUF_SIZE.
Hypothesis Hs_len : (0 < length s)%nat /\ Z.of_nat (length s) < MAX_FILE_BUF_SIZE.

Abbreviation P_file :=
  (set_input (set_key empty_params key (Z.of_nat (length key))) s (Z.of_nat (length s))).

Lemma parse_keyfile_input w :
  w_fs w = fs ->
  parse_loop 4 [[]; OPT_F; kp; ip] 1 empty_params w =
  Some (Some P_file,
        DEBUG_INFO READ_OK_MSG [LPtr (cstr_mem ip); LInt (Z.of_nat (length s))]
          (heap_alloc SFileBuf
             (DEBUG_INFO READ_OK_MSG [LPtr (cstr_mem kp); LInt (Z.of_nat (length key))]
                (heap_alloc SFileBuf w)))).
Proof.
  intros Hw. rewrite (parse_loop_keyfile [[]; OPT_F; kp; ip] 1 OPT_F ltac:(lia) eq_refl 3 _ kp key)
    by (rewrite ?Hw; done || lia).
  change (u8 (1 + 2)) with 3.
  rewrite (parse_loop_input [[]; OPT_F; kp; ip] 3 ip ltac:(lia) eq_refl 2 _ s) by (cbn; rewrite ?Hw; done || lia).
  reflexivity.
Qed.

(** Up to the mode: [main] prints its banner, reads both files, prints
    the parameters, allocates the context with [u8 (length key)] bytes of
    the key and runs file mode; the mode's result is only logged. *)
Lemma main_keyfile_input stdin out h :
  (length key mod 256 < 255)%nat ->
  main [[]; OPT_F; kp; ip] (mk_world fs stdin out h) =
  let w2 := print_cli_params (Some P_file)
              (mk_world fs stdin
                 (out ++ banner_trace ++
                  [info READ_OK_MSG [LPtr (cstr_mem kp); LInt (Z.of_nat (length key))];
                   info READ_OK_MSG [LPtr (cstr_mem ip); LInt (Z.of_nat (length s))]])
                 (h ++ [HAlloc SParams; HAlloc SFileBuf; HAlloc SFileBuf; HAlloc SCtx; HAlloc SCtxKey])) in
  let '(res, ctx', w3) :=
    mode_input_file (Some (fresh_ctx key (Z.of_nat (length key mod 256)))) (Some P_file) true w2 in
  Some (0, free_cli_params (Some P_file) (release_context ctx' (DEBUG_INFO "Cleanup..." []
             (if negb (res =? 0) then DEBUG_ERR "Failed to process I/O: 0x%08x" [LInt res] w3 else w3)))).
Proof.
  intros Hmod. unfold main, parse_cli_and_load. rewrite banner_stdout.
  rewrite (proj2 (Z.leb_gt _ _)) by (simpl; lia).
  rewrite parse_keyfile_input by done. cbn [prm_key set_input set_key input_buffer prm_key_size].
  rewrite u8_of_nat, crypt_alloc_context_success by crypt_lia. rewrite bool_decide_false by tauto.
  cbv zeta. match goal with |- ?lhs = _ => match lhs with context [mode_input_file _ _ true ?w] =>
    replace w with (print_cli_params (Some P_file)
              (mk_world fs stdin
                 (out ++ banner_trace ++
                  [info READ_OK_MSG [LPtr (cstr_mem kp); LInt (Z.of_nat (length key))];
                   info READ_OK_MSG [LPtr (cstr_mem ip); LInt (Z.of_nat (length s))]])
                 (h ++ [HAlloc SParams; HAlloc SFileBuf; HAlloc SFileBuf; HAlloc SCtx; HAlloc SCtxKey])))
      by release_eq
  end end.
  by destruct (mode_input_file _ _ _ _) as [[res c'] w3].
Qed.
End KeyFileInput.

(** ** Theorems on [main] *)

(** C23: [crypt -f KEYFILE INPUT] exits with 0 and writes to stdout the
    banner, the log lines of both reads, the parameters (the key and the
    whole input among them), the input XORed with the keystream of the
    first [length key mod 256] bytes of the key file, and the cleanup
    line.  The key size goes through the [uint8_t] parameter of
    [crypt_alloc_context], so a key file of 300 bytes acts as its first 44
    bytes.  Every block allocated is freed: the output buffer holding the
    ciphertext, the context's key copy zeroed, the context, the key and
    input buffers zeroed, and the parameters. *)
Theorem main_file_mode fs kp key ip s stdin out h :
  is_path_valid fs (Some kp) = true -> fs !! kp = Some key ->
  is_path_valid fs (Some ip) = true -> fs !! ip = Some s ->
  (0 < length key)%nat -> Z.of_nat (length key) < MAX_FILE_BUF_SIZE -> bytes_ok key = true ->
  (0 < length s)%nat -> Z.of_nat (length s) < MAX_FILE_BUF_SIZE -> bytes_ok s = true ->
  (0 < length key mod 256 < 255)%nat ->
  main [[]; OPT_F; kp; ip] (mk_world fs stdin out h) =
  Some (0, mk_world fs stdin
             (out ++ banner_trace ++
              [info READ_OK_MSG [LPtr (cstr_mem kp); LInt (Z.of_nat (length key))];
               info READ_OK_MSG [LPtr (cstr_mem ip); LInt (Z.of_nat (length s))];
               info "key: %s (size: %d)" [LPtr key; LInt (Z.of_nat (length key))];
               info "input_buf: %s (size: %d)" [LPtr s; LInt (Z.of_nat (length s))];
               info "output_buf_path: stdout" []] ++
              (OByte <$> ks_xor (take (length key mod 256) key) 0 s) ++
              [info "Cleanup..." []])
             (h ++ [HAlloc SParams; HAlloc SFileBuf; HAlloc SFileBuf; HAlloc SCtx; HAlloc SCtxKey;
                    HAlloc SOutBuf; HFree (Some (ks_xor (take (length key mod 256) key) 0 s));
                    HFree (Some (replicate (length key mod 256) 0)); HFree None;
                    HFree (Some (replicate (length key) 0)); HFree (Some (replicate (length s) 0));
                    HFree None])).
Proof.
  intros Hkp Hkey Hip Hs Hk0 Hk1 Hkok Hs0 Hs1 Hsok Hmod.
  rewrite (main_keyfile_input fs kp key ip s) by (done || lia).
  pose proof (Nat.Div0.mod_le (length key) 256).
  pose proof (fresh_ctx_models key (Z.of_nat (length key mod 256))) as Hm.
  rewrite Nat2Z.id in Hm. specialize (Hm ltac:(crypt_lia) H Hkok).
  cbv zeta. rewrite Nat2Z.id.
  match type of Hm with ctx_models ?K _ ?c =>
    match goal with |- context [mode_input_file _ (Some ?pr) true ?w] =>
      destruct (mode_input_file_models K c pr s w) as (c' & Hf & Hm')
    end
  end; [rewrite length_take; lia | exact Hm | reflexivity | reflexivity | reflexivity
       | exact Hs0 | exact Hs1 | exact Hsok |].
  rewrite Hf. cbv iota beta. rewrite (release_context_models _ _ _ _ Hm'), length_take, Nat.min_l by lia.
  cbn [free_cli_params prm_key prm_key_size input_buffer input_buffer_size set_key set_input].
  rewrite !wipe_free_all by done. release_eq.
Qed.

(** C24: a key file whose length is a multiple of 256 gives
    [key_size = 0] after the [uint8_t] conversion; [crypt_alloc_context]
    accepts it, [crypt_buffer] answers [CRYPT_ERROR_PARAMETER] = 2, and
    for an input of any length other than 2 [main] writes no byte of
    output: stdout gets only log lines, among them the I/O failure, and
    the exit status is still 0.  The output buffer of [mode_input_file]
    is never freed. *)
Theorem main_keyfile_256_silent fs kp key ip s stdin out h :
  is_path_valid fs (Some kp) = true -> fs !! kp = Some key ->
  is_path_valid fs (Some ip) = true -> fs !! ip = Some s ->
  (0 < length key)%nat -> Z.of_nat (length key) < MAX_FILE_BUF_SIZE ->
  (0 < length s)%nat -> Z.of_nat (length s) < MAX_FILE_BUF_SIZE ->
  (length key mod 256 = 0)%nat -> length s <> 2%nat ->
  main [[]; OPT_F; kp; ip] (mk_world fs stdin out h) =
  Some (0, mk_world fs stdin
             (out ++ banner_trace ++
              [info READ_OK_MSG [LPtr (cstr_mem kp); LInt (Z.of_nat (length key))];
               info READ_OK_MSG [LPtr (cstr_mem ip); LInt (Z.of_nat (length s))];
               info "key: %s (size: %d)" [LPtr key; LInt (Z.of_nat (length key))];
               info "input_buf: %s (size: %d)" [LPtr s; LInt (Z.of_nat (length s))];
               info "output_buf_path: stdout" [];
               err "Failed to process I/O: 0x%08x" [LInt 2];
               info "Cleanup..." []])
             (h ++ [HAlloc SParams; HAlloc SFileBuf; HAlloc SFileBuf; HAlloc SCtx; HAlloc SCtxKey;
                    HAlloc SOutBuf; HFree (Some []); HFree None;
                    HFree (Some (replicate (length key) 0)); HFree (Some (replicate (length s) 0));
                    HFree None])).
Proof.
  intros Hkp Hkey Hip Hs Hk0 Hk1 Hs0 Hs1 Hmod Hs2.
  rewrite (main_keyfile_input fs kp key ip s) by (done || lia). rewrite Hmod.
  unfold mode_input_file. cbv zeta. cbn [input_buffer input_buffer_size set_key set_input].
  rewrite crypt_buffer_key_size_0 by done. cbn [cr_ret cr_ctx crypt_error_code].
  rewrite (proj2 (Z.eqb_neq _ _)) by lia. cbn [negb].
  cbn [free_cli_params prm_key prm_key_size input_buffer input_buffer_size set_key set_input].
  rewrite !wipe_free_all by done. release_eq.
Qed.

(** C26: without [-k] or [-f] the key is read from stdin, but
    [get_stdin_user] hands back an empty key ([key_size = 0], a buffer of
    zeros); for an input file of any length other than 2, [crypt INPUT]
    consumes stdin up to the end of the typed line, writes no byte of
    output, logs the I/O failure and exits with 0. *)
Theorem main_stdin_key_unused fs ip s stdin out h :
  is_path_valid fs (Some ip) = true -> fs !! ip = Some s ->
  (0 < length s)%nat -> Z.of_nat (length s) < MAX_FILE_BUF_SIZE -> length s <> 2%nat ->
    main [[]; ip] (mk_world fs stdin out h) =
    Some (0, mk_world fs (after_line stdin)
               (out ++ banner_trace ++
                [info READ_OK_MSG [LPtr (cstr_mem ip); LInt (Z.of_nat (length s))];
                 info "Enter symmetric key: " [];
                 info "key: %s (size: %d)" [LPtr (replicate (Z.to_nat CRYPT_MAX_KEY_LEN) 0); LInt 0];
                 info "input_buf: %s (size: %d)" [LPtr s; LInt (Z.of_nat (length s))];
                 info "output_buf_path: stdout" [];
                 err "Failed to process I/O: 0x%08x" [LInt 2];
                 info "Cleanup..." []])
               (h ++ [HAlloc SParams; HAlloc SFileBuf; HAlloc SStdinBuf; HAlloc SCtx; HAlloc SCtxKey;
                      HAlloc SOutBuf; HFree (Some []); HFree None;
                      HFree (Some (replicate (Z.to_nat CRYPT_MAX_KEY_LEN) 0));
                      HFree (Some (replicate (length s) 0)); HFree None])).
Proof.
  intros Hip Hs Hs0 Hs1 Hs2. unfold main, parse_cli_and_load. rewrite banner_stdout.
  rewrite (proj2 (Z.leb_gt _ _)) by (simpl; lia).
  rewrite (parse_loop_input [[]; ip] 1 ip ltac:(lia) eq_refl 1 _ s) by (cbn; done || lia).
  change (u8 (1 + 2)) with 3. rewrite parse_loop_past_end by (simpl; lia).
  cbn [prm_key set_input empty_params].
  unfold get_stdin_user. cbn [negb]. change (w_stdin (heap_alloc _ (DEBUG_INFO _ _ _))) with stdin.
  rewrite get_stdin_user_loop_result by (crypt_lia || rewrite length_replicate; crypt_lia).
  replace (0 :: drop 1 (replicate (Z.to_nat CRYPT_MAX_KEY_LEN) 0))
    with (replicate (Z.to_nat CRYPT_MAX_KEY_LEN) 0) by reflexivity.
  cbn [prm_key prm_key_size input_buffer set_key set_input].
  change (u8 0) with 0. rewrite crypt_alloc_context_success by crypt_lia.
  rewrite bool_decide_false by tauto.
  unfold mode_input_file. cbv zeta. cbn [input_buffer input_buffer_size set_key set_input].
  rewrite crypt_buffer_key_size_0 by done. cbn [cr_ret cr_ctx crypt_error_code].
  rewrite (proj2 (Z.eqb_neq _ _)) by lia. cbn [negb].
  cbn [free_cli_params prm_key prm_key_size input_buffer input_buffer_size set_key set_input].
  rewrite (wipe_free_all s) by done. release_eq.
Qed.

(** C31: [crypt -k KEY] with the data on stdin (no 0xFF byte) exits
    with 0 and consumes stdin.  Stdout gets the banner, the parameters,
    the stdin trace of the key [KEY] and the closing lines.  The key line
    passes the key buffer itself to [%s]: the key is printed, and the
    buffer holds no NUL, so [printf] reads past it.  Both copies of the
    key, the context's and the parameters', are zeroed before they are
    freed. *)
Theorem main_key_stdin_mode fs k s out h :
  Forall (fun c => c <> 0) k -> (0 < length k < 255)%nat -> bytes_ok k = true -> no_ff s ->
  main [[]; OPT_K; k] (mk_world fs s out h) =
  Some (0, mk_world fs []
             (out ++ banner_trace ++
              [info "key: %s (size: %d)" [LPtr k; LInt (Z.of_nat (length k))];
               info "input_buf: stdin" [];
               info "output_buf_path: stdout" []] ++
              stdin_trace k 0 s ++
              [info "mode_input_stdin: total read: %d" [LInt (u32 (Z.of_nat (length s)))];
               info "Cleanup..." []])
             (h ++ [HAlloc SParams; HAlloc SKeyArg; HAlloc SCtx; HAlloc SCtxKey;
                    HFree (Some (replicate (length k) 0)); HFree None;
                    HFree (Some (replicate (length k) 0)); HFree None])) /\
  reads_past (LPtr k) = true.
Proof.
  intros Hnz Hlen Hok Hff. split.
  2: { unfold reads_past. rewrite bool_decide_false; [done|].
       intros Hin. eapply Forall_forall in Hnz; [|exact Hin]. done. }
  unfold main, parse_cli_and_load. rewrite banner_stdout.
  rewrite (proj2 (Z.leb_gt _ _)) by (simpl; lia).
  rewrite (parse_loop_key [[]; OPT_K; k] 1 OPT_K ltac:(lia) eq_refl 2 _ k) by (done || lia).
  change (u8 (1 + 2)) with 3. rewrite parse_loop_past_end by (simpl; lia).
  cbn [prm_key prm_key_size input_buffer set_key empty_params].
  rewrite u8_small by lia. rewrite crypt_alloc_context_success by crypt_lia.
  rewrite bool_decide_false by tauto. cbv zeta.
  pose proof (fresh_ctx_models k (Z.of_nat (length k))) as Hm.
  rewrite Nat2Z.id, take_ge in Hm by lia. specialize (Hm ltac:(crypt_lia) ltac:(lia) Hok).
  rewrite Nat2Z.id, take_ge by lia.
  match goal with |- context [mode_input_stdin (Some ?c) (Some ?pr) _ ?w] =>
    change (w_stdin w) with s;
    destruct (stdin_loop_models k pr Hlen eq_refl (S (length s / 16)) s 0 c 0 w)
      as (c' & Hloop & Hm'); [exact Hm | reflexivity | exact Hff | apply fuel_enough |]
  end.
  unfold mode_input_stdin. rewrite Hloop. cbv iota beta. rewrite (release_context_models _ _ _ _ Hm').
  cbn [free_cli_params prm_key prm_key_size set_key empty_params].
  rewrite wipe_free_all by done. release_eq.
Qed.

(** C35: [params_fail] does not release the key.  On [crypt -k KEY -h]
    the key is copied into a buffer of its own, then [-h] jumps to
    [params_fail], which frees the parameters but neither zeroes nor
    frees the key copy: [main] prints the help and returns -1 with one
    block more allocated than freed, the copy of the key. *)
Theorem main_help_after_key_leaks fs k s out h :
  Forall (fun c => c <> 0) k -> (length k < 255)%nat ->
  main [[]; OPT_K; k; OPT_H] (mk_world fs s out h) =
  Some (-1, mk_world fs s (out ++ banner_trace ++ [info "Printing help..." []] ++ help_trace)
                     (h ++ [HAlloc SParams; HAlloc SKeyArg; HFree None])).
Proof.
  intros Hnz Hlen. unfold main, parse_cli_and_load. rewrite banner_stdout.
  rewrite (proj2 (Z.leb_gt _ _)) by (simpl; lia).
  rewrite (parse_loop_key [[]; OPT_K; k; OPT_H] 1 OPT_K ltac:(lia) eq_refl 3 _ k) by (done || lia).
  change (u8 (1 + 2)) with 3.
  rewrite (parse_loop_help [[]; OPT_K; k; OPT_H] 3 OPT_H eq_refl) by done.
  rewrite print_help_stdout. unfold params_fail.
  cbn [input_buffer output_buffer_path set_key empty_params wipe_free free_path].
  release_eq.
Qed.

(** C36: [free_cli_params] zeroes the key and the input buffer before it
    frees them.  When each size field is the length of its buffer, it
    frees, in this order, the key as zeros, the input as zeros, the
    output path and the parameters struct. *)
Theorem free_cli_params_wipes p w :
  (forall k, prm_key p = Some k -> prm_key_size p = Z.of_nat (length k)) ->
  (forall b, input_buffer p = Some b -> input_buffer_size p = Z.of_nat (length b)) ->
  w_heap (free_cli_params (Some p) w) =
  w_heap w ++ wiped (prm_key p) ++ wiped (input_buffer p) ++
  match output_buffer_path p with Some q => [HFree (Some (path_block q))] | None => [] end ++
  [HFree None].
Proof.
  intros Hk Hb. unfold free_cli_params.
  destruct (prm_key p) as [k|]; [rewrite (wipe_free_all k) by (by apply Hk)|];
    (destruct (input_buffer p) as [b|]; [rewrite (wipe_free_all b) by (by apply Hb)|]);
    destruct (output_buffer_path p);
    cbn [w_heap heap_free free_path wipe_free wiped]; by rewrite <-?app_assoc.
Qed.

(** C37: [crypt -k KEY -o OUT INPUT] exits with 0 and appends the input
    XORed with the keystream of [KEY] to the file [OUT], which need not
    exist.  [write_to_file] opens it in append mode, so what [OUT] held
    before stays in front of the new ciphertext.  Stdout gets only log
    lines, and every block is freed, the key copies and the input
    zeroed. *)
Theorem main_output_file fs k op ip s stdin out h :
  Forall (fun c => c <> 0) k -> (0 < length k < 255)%nat -> bytes_ok k = true ->
  Forall (fun c => c <> 0) op -> (length op < 255)%nat -> head op <> Some 45 ->
  is_path_valid fs (Some ip) = true -> fs !! ip = Some s ->
  (0 < length s)%nat -> Z.of_nat (length s) < MAX_FILE_BUF_SIZE -> bytes_ok s = true ->
  main [[]; OPT_K; k; OPT_O; op; ip] (mk_world fs stdin out h) =
  Some (0, mk_world (<[op := default [] (fs !! op) ++ ks_xor k 0 s]> fs) stdin
             (out ++ banner_trace ++
              [info READ_OK_MSG [LPtr (cstr_mem ip); LInt (Z.of_nat (length s))];
               info "key: %s (size: %d)" [LPtr k; LInt (Z.of_nat (length k))];
               info "input_buf: %s (size: %d)" [LPtr s; LInt (Z.of_nat (length s))];
               info "output_buf_path: %s" [LPtr (cstr_mem op)];
               info "Written output to file %s (size: %d)" [LPtr (cstr_mem op); LInt (Z.of_nat (length s))];
               info "Cleanup..." []])
             (h ++ [HAlloc SParams; HAlloc SKeyArg; HAlloc SOutPath; HAlloc SFileBuf; HAlloc SCtx;
                    HAlloc SCtxKey; HAlloc SOutBuf; HFree (Some (ks_xor k 0 s));
                    HFree (Some (replicate (length k) 0)); HFree None;
                    HFree (Some (replicate (length k) 0)); HFree (Some (replicate (length s) 0));
                    HFree (Some (path_block op)); HFree None])).
Proof.
  intros Hnz Hlen Hok Hopz Hopl Hoph Hip Hs Hs0 Hs1 Hsok.
  unfold main, parse_cli_and_load. rewrite banner_stdout.
  rewrite (proj2 (Z.leb_gt _ _)) by (simpl; lia).
  rewrite (parse_loop_key [[]; OPT_K; k; OPT_O; op; ip] 1 OPT_K ltac:(lia) eq_refl 5 _ k) by (done || lia).
  change (u8 (1 + 2)) with 3.
  rewrite (parse_loop_output [[]; OPT_K; k; OPT_O; op; ip] 3 OPT_O ltac:(lia) eq_refl 4 _ op) by done.
  change (u8 (3 + 2)) with 5.
  rewrite (parse_loop_input [[]; OPT_K; k; OPT_O; op; ip] 5 ip ltac:(lia) eq_refl 3 _ s)
    by (cbn; done || lia).
  change (u8 (5 + 2)) with 7. rewrite parse_loop_past_end by (simpl; lia).
  cbn [prm_key prm_key_size input_buffer set_key set_input set_output empty_params].
  rewrite u8_small by lia. rewrite crypt_alloc_context_success by crypt_lia.
  rewrite bool_decide_false by tauto. cbv zeta.
  pose proof (fresh_ctx_models k (Z.of_nat (length k))) as Hm.
  rewrite Nat2Z.id, take_ge in Hm by lia. specialize (Hm ltac:(crypt_lia) ltac:(lia) Hok).
  rewrite Nat2Z.id, take_ge by lia.
  match goal with |- context [mode_input_file (Some ?c) (Some ?pr) true ?w] =>
    destruct (mode_input_file_to_file k c pr op s w) as (c' & Hf & Hm')
  end; [done | exact Hm | reflexivity | reflexivity | reflexivity | done.. |].
  rewrite Hf. cbv iota beta. rewrite (release_context_models _ _ _ _ Hm').
  cbn [free_cli_params prm_key prm_key_size input_buffer input_buffer_size output_buffer_path
       set_key set_input set_output empty_params].
  rewrite !wipe_free_all by done. release_eq.
Qed.

(** ** Witnesses *)

Abbreviation key300 := (replicate 300 7).
Abbreviation key256 := (replicate 256 7).
Abbreviation fs_key k :=
  (<[ [107] := k ]> ({[ [105] := [1; 2; 3] ]} : gmap (list Z) (list Z))).

Ltac fs_facts :=
  first [reflexivity | vm_compute; lia | simpl; lia | crypt_lia | repeat constructor; lia | simpl; congruence].

Lemma main_file_mode_witness :
  main [[]; OPT_F; [107]; [105]] (mk_world (fs_key key300) [] [] []) =
  Some (0, mk_world (fs_key key300) []
             ([] ++ banner_trace ++
              [info READ_OK_MSG [LPtr (cstr_mem [107]); LInt (Z.of_nat (length key300))];
               info READ_OK_MSG [LPtr (cstr_mem [105]); LInt (Z.of_nat (length [1; 2; 3]))];
               info "key: %s (size: %d)" [LPtr key300; LInt (Z.of_nat (length key300))];
               info "input_buf: %s (size: %d)" [LPtr [1; 2; 3]; LInt (Z.of_nat (length [1; 2; 3]))];
               info "output_buf_path: stdout" []] ++
              (OByte <$> ks_xor (take (length key300 mod 256) key300) 0 [1; 2; 3]) ++
              [info "Cleanup..." []])
             ([] ++ [HAlloc SParams; HAlloc SFileBuf; HAlloc SFileBuf; HAlloc SCtx; HAlloc SCtxKey;
                     HAlloc SOutBuf; HFree (Some (ks_xor (take (length key300 mod 256) key300) 0 [1; 2; 3]));
                     HFree (Some (replicate (length key300 mod 256) 0)); HFree None;
                     HFree (Some (replicate (length key300) 0)); HFree (Some (replicate (length [1; 2; 3]) 0));
                     HFree None])).
Proof. apply main_file_mode; fs_facts. Defined.

Lemma main_keyfile_256_silent_witness :
  main [[]; OPT_F; [107]; [105]] (mk_world (fs_key key256) [] [OByte 9] []) =
  Some (0, mk_world (fs_key key256) []
             ([OByte 9] ++ banner_trace ++
              [info READ_OK_MSG [LPtr (cstr_mem [107]); LInt (Z.of_nat (length key256))];
               info READ_OK_MSG [LPtr (cstr_mem [105]); LInt (Z.of_nat (length [1; 2; 3]))];
               info "key: %s (size: %d)" [LPtr key256; LInt (Z.of_nat (length key256))];
               info "input_buf: %s (size: %d)" [LPtr [1; 2; 3]; LInt (Z.of_nat (length [1; 2; 3]))];
               info "output_buf_path: stdout" [];
               err "Failed to process I/O: 0x%08x" [LInt 2];
               info "Cleanup..." []])
             ([] ++ [HAlloc SParams; HAlloc SFileBuf; HAlloc SFileBuf; HAlloc SCtx; HAlloc SCtxKey;
                     HAlloc SOutBuf; HFree (Some []); HFree None;
                     HFree (Some (replicate (length key256) 0)); HFree (Some (replicate (length [1; 2; 3]) 0));
                     HFree None])).
Proof. apply main_keyfile_256_silent; fs_facts. Defined.

Lemma parse_loop_skips_after_input_witness :
  parse_loop 2 [[]; [105]; OPT_H] 1 empty_params (mk_world (fs_key key300) [] [] []) =
  Some (Some (set_input empty_params [1; 2; 3] (Z.of_nat (length [1; 2; 3]))),
        DEBUG_INFO READ_OK_MSG [LPtr (cstr_mem [105]); LInt (Z.of_nat (length [1; 2; 3]))]
          (heap_alloc SFileBuf (mk_world (fs_key key300) [] [] []))).
Proof. apply parse_loop_skips_after_input; fs_facts. Defined.

Lemma main_stdin_key_unused_witness :
    main [[]; [105]] (mk_world (fs_key key300) [65; 66; 10] [] []) =
    Some (0, mk_world (fs_key key300) (after_line [65; 66; 10])
               ([] ++ banner_trace ++
                [info READ_OK_MSG [LPtr (cstr_mem [105]); LInt (Z.of_nat (length [1; 2; 3]))];
                 info "Enter symmetric key: " [];
                 info "key: %s (size: %d)" [LPtr (replicate (Z.to_nat CRYPT_MAX_KEY_LEN) 0); LInt 0];
                 info "input_buf: %s (size: %d)" [LPtr [1; 2; 3]; LInt (Z.of_nat (length [1; 2; 3]))];
                 info "output_buf_path: stdout" [];
                 err "Failed to process I/O: 0x%08x" [LInt 2];
                 info "Cleanup..." []])
               ([] ++ [HAlloc SParams; HAlloc SFileBuf; HAlloc SStdinBuf; HAlloc SCtx; HAlloc SCtxKey;
                       HAlloc SOutBuf; HFree (Some []); HFree None;
                       HFree (Some (replicate (Z.to_nat CRYPT_MAX_KEY_LEN) 0));
                       HFree (Some (replicate (length [1; 2; 3]) 0)); HFree None])).
Proof. apply main_stdin_key_unused; fs_facts. Defined.

Lemma main_key_stdin_mode_witness :
  main [[]; OPT_K; [65; 66]] (mk_world ∅ [1; 2; 3] [] []) =
  Some (0, mk_world ∅ []
             ([] ++ banner_trace ++
              [info "key: %s (size: %d)" [LPtr [65; 66]; LInt (Z.of_nat (length [65; 66]))];
               info "input_buf: stdin" [];
               info "output_buf_path: stdout" []] ++
              stdin_trace [65; 66] 0 [1; 2; 3] ++
              [info "mode_input_stdin: total read: %d" [LInt (u32 (Z.of_nat (length [1; 2; 3])))];
               info "Cleanup..." []])
             ([] ++ [HAlloc SParams; HAlloc SKeyArg; HAlloc SCtx; HAlloc SCtxKey;
                     HFree (Some (replicate (length [65; 66]) 0)); HFree None;
                     HFree (Some (replicate (length [65; 66]) 0)); HFree None])) /\
  reads_past (LPtr [65; 66]) = true.
Proof. apply main_key_stdin_mode; fs_facts. Defined.

Lemma parse_loop_terminates_witness :
  is_Some (parse_loop 2 [[]; [105]] 1 empty_params (mk_world (fs_key key300) [] [] [])).
Proof. apply parse_loop_terminates; fs_facts. Defined.

Lemma parse_loop_wide_never_ends_witness :
  parse_loop 3 argv_wrap 1 empty_params (mk_world ∅ [] [] []) <> Some (Some empty_params, mk_world ∅ [] [] []).
Proof.
  apply parse_loop_wide_never_ends; [unfold argv_wrap; rewrite length_map, length_seq; lia | lia].
Defined.

Lemma main_help_after_key_leaks_witness :
  main [[]; OPT_K; [65; 66]; OPT_H] (mk_world ∅ [] [] []) =
  Some (-1, mk_world ∅ [] ([] ++ banner_trace ++ [info "Printing help..." []] ++ help_trace)
                      ([] ++ [HAlloc SParams; HAlloc SKeyArg; HFree None])).
Proof. apply main_help_after_key_leaks; fs_facts. Defined.

Abbreviation params_full := (mk_crypt_params (Some [65; 66]) 2 (Some [1; 2; 3]) 3 (Some [111])).

Lemma free_cli_params_wipes_witness :
  w_heap (free_cli_params (Some params_full) (mk_world ∅ [] [] [])) =
  w_heap (mk_world ∅ [] [] []) ++ wiped (prm_key params_full) ++ wiped (input_buffer params_full) ++
  match output_buffer_path params_full with Some q => [HFree (Some (path_block q))] | None => [] end ++
  [HFree None].
Proof.
  apply free_cli_params_wipes; intros b Hb; injection Hb as <-; reflexivity.
Defined.

(** An output file that already holds a byte. *)
Abbreviation fs_out := (<[ [111] := [9] ]> (fs_key key300)).

Lemma main_output_file_witness :
  main [[]; OPT_K; [65; 66]; OPT_O; [111]; [105]] (mk_world fs_out [] [] []) =
  Some (0, mk_world (<[ [111] := default [] (fs_out !! [111]) ++ ks_xor [65; 66] 0 [1; 2; 3] ]> fs_out) []
             ([] ++ banner_trace ++
              [info READ_OK_MSG [LPtr (cstr_mem [105]); LInt (Z.of_nat (length [1; 2; 3]))];
               info "key: %s (size: %d)" [LPtr [65; 66]; LInt (Z.of_nat (length [65; 66]))];
               info "input_buf: %s (size: %d)" [LPtr [1; 2; 3]; LInt (Z.of_nat (length [1; 2; 3]))];
               info "output_buf_path: %s" [LPtr (cstr_mem [111])];
               info "Written output to file %s (size: %d)"
                 [LPtr (cstr_mem [111]); LInt (Z.of_nat (length [1; 2; 3]))];
               info "Cleanup..." []])
             ([] ++ [HAlloc SParams; HAlloc SKeyArg; HAlloc SOutPath; HAlloc SFileBuf; HAlloc SCtx;
                     HAlloc SCtxKey; HAlloc SOutBuf; HFree (Some (ks_xor [65; 66] 0 [1; 2; 3]));
                     HFree (Some (replicate (length [65; 66]) 0)); HFree None;
                     HFree (Some (replicate (length [65; 66]) 0)); HFree (Some (replicate (length [1; 2; 3]) 0));
                     HFree (Some (path_block [111])); HFree None])).
Proof. apply main_output_file; fs_facts. Defined.
